(** * Stream-processing toolkit: scorer, validator, error parser, profiler

    A shallow embedding of the computational core of the repository:

    - [tools/sp/atlas_api.py]: [analyze_processor_complexity_detailed],
      [_parse_tier_validation_error], [_substitute_variables],
      [start_processor], [profile_processors],
      [profile_processors_continuous], [_check_thresholds],
      [_analyze_profile_data], [_calculate_processor_stats],
      [_calculate_trend], [_generate_recommendations];
    - [tests/test_runner.py]: [validate_processor_file],
      [validate_all_processors], [main];
    - [tests/test_processors.py]: the connection checks of
      [ProcessorValidationTests] ([test_source_connections_exist],
      [test_merge_connections_exist], [test_dlq_connections_exist],
      [test_emit_stage_structure]).

    The code is Python working on parsed JSON documents, so the first
    module fixes the fragment of Python's object model the functions rely
    on: values, exceptions, [repr]/[str], membership, subscripting.  A
    function that can raise returns a [result]; a [try]/[except] is a
    match on it.  Text is ASCII; numbers of the profiler are rationals,
    its sums, averages and trends computed in double precision.  What the
    functions read from outside (files, HTTP replies, the clock) is a
    parameter.

    Each later module embeds one component and ends with the definitions
    its statements use; the properties follow the modules. *)

From Stdlib Require Import ZArith QArith Qabs Qminmax List String Ascii Bool Lia Lqa.
From Stdlib Require Import DecimalString.
From Stdlib Require Import Floats.SpecFloat.
Import ListNotations.

Local Open Scope string_scope.
Local Open Scope Z_scope.

(* ===================================================================== *)
(** * Python values and exceptions *)
(* ===================================================================== *)

Module Py.

(** Exception classes that the modelled code can meet.  Only the class is
    tracked; the interpreter's message text is not part of the source. *)
Inductive exn : Type :=
| TypeError
| KeyError
| IndexError
| AttributeError
| ValueError
| OverflowError
| ZeroDivisionError
| JSONDecodeError
| OSError.

(** A computation either returns a value or raises. *)
Inductive result (A : Type) : Type :=
| Ok (a : A)
| Raise (e : exn).

Arguments Ok {A} a.
Arguments Raise {A} e.

Definition bind {A B : Type} (c : result A) (k : A -> result B) : result B :=
  match c with
  | Ok a => k a
  | Raise e => Raise e
  end.

Notation "x <- c ;; k" := (bind c (fun x => k))
  (at level 61, c at next level, right associativity).

(** [str(e)] for a caught exception: the class name stands for the
    interpreter's message. *)
Definition exn_str (e : exn) : string :=
  match e with
  | TypeError => "TypeError"
  | KeyError => "KeyError"
  | IndexError => "IndexError"
  | AttributeError => "AttributeError"
  | ValueError => "ValueError"
  | OverflowError => "OverflowError"
  | ZeroDivisionError => "ZeroDivisionError"
  | JSONDecodeError => "JSONDecodeError"
  | OSError => "OSError"
  end.

(** A Python [float] as [json.load] produces it: the IEEE-754 double and
    the text [repr] prints for it (the shortest digit string that reads
    back as the same double, or [inf], [-inf], [nan]).  The text is carried
    with the value, it is not recomputed. *)
Record pyfloat : Type := { fl_val : spec_float; fl_repr : string }.

(** Parsed JSON.  A [dict] is the list of its items in insertion order
    (keys are strings; [json.load] keeps one item per key). *)
#[warnings="-register-all"]
Inductive value : Type :=
| VNone
| VBool (b : bool)
| VInt (z : Z)
| VFloat (f : pyfloat)
| VStr (s : string)
| VList (l : list value)
| VDict (d : list (string * value)).

Definition dict : Type := list (string * value).

(** ** Text *)

Definition squote : ascii := ascii_of_nat 39.
Definition dquote : ascii := ascii_of_nat 34.
Definition backslash : ascii := ascii_of_nat 92.

Definition str_of_Z (z : Z) : string := NilZero.string_of_int (Z.to_int z).

Fixpoint has_char (c : ascii) (s : string) : bool :=
  match s with
  | EmptyString => false
  | String a t => Ascii.eqb a c || has_char c t
  end.

Definition hex_digit (n : nat) : ascii :=
  if (n <? 10)%nat then ascii_of_nat (48 + n) else ascii_of_nat (87 + n).

(** One character of [repr(s)], [q] being the quote in use. *)
Definition repr_char (q c : ascii) : string :=
  let n := nat_of_ascii c in
  if Ascii.eqb c backslash then String backslash (String backslash EmptyString)
  else if Ascii.eqb c q then String backslash (String q EmptyString)
  else if (n =? 9)%nat then String backslash "t"
  else if (n =? 10)%nat then String backslash "n"
  else if (n =? 13)%nat then String backslash "r"
  else if ((n <? 32) || (n =? 127))%nat
       then String backslash
              (String "x" (String (hex_digit (n / 16))
                             (String (hex_digit (n mod 16)) EmptyString)))
  else String c EmptyString.

Fixpoint repr_chars (q : ascii) (s : string) : string :=
  match s with
  | EmptyString => EmptyString
  | String c t => repr_char q c ++ repr_chars q t
  end.

(** [repr] of a [str]: single quotes, unless the text has a single quote
    and no double quote.  Text is taken to be ASCII. *)
Definition repr_str (s : string) : string :=
  let q := if has_char squote s && negb (has_char dquote s)
           then dquote else squote in
  String q (repr_chars q s ++ String q EmptyString).

Fixpoint repr (v : value) : string :=
  match v with
  | VNone => "None"
  | VBool true => "True"
  | VBool false => "False"
  | VInt z => str_of_Z z
  | VFloat f => fl_repr f
  | VStr s => repr_str s
  | VList l => "[" ++ String.concat ", " (map repr l) ++ "]"
  | VDict d =>
      "{" ++ String.concat ", "
               (map (fun kv => match kv with
                               | (k, x) => repr_str k ++ ": " ++ repr x
                               end) d) ++ "}"
  end.

(** [str(v)]: the text itself for a [str], [repr] otherwise. *)
Definition str (v : value) : string :=
  match v with
  | VStr s => s
  | _ => repr v
  end.

(** [s.lower()] on ASCII text. *)
Definition lower_char (c : ascii) : ascii :=
  let n := nat_of_ascii c in
  if ((65 <=? n) && (n <=? 90))%nat then ascii_of_nat (n + 32) else c.

Fixpoint lower (s : string) : string :=
  match s with
  | EmptyString => EmptyString
  | String c t => String (lower_char c) (lower t)
  end.

(** [needle in hay] for two [str]. *)
Fixpoint contains (needle hay : string) : bool :=
  prefix needle hay ||
  match hay with
  | EmptyString => false
  | String _ t => contains needle t
  end.

(** ** Containers *)

Fixpoint dict_get (d : dict) (k : string) : option value :=
  match d with
  | [] => None
  | (k', v) :: d' => if String.eqb k' k then Some v else dict_get d' k
  end.

Definition dict_has (d : dict) (k : string) : bool :=
  match dict_get d k with
  | Some _ => true
  | None => false
  end.

Definition is_str (k : string) (v : value) : bool :=
  match v with
  | VStr s => String.eqb s k
  | _ => false
  end.

(** [k in c] for a [str] key [k]. *)
Definition py_in (k : string) (c : value) : result bool :=
  match c with
  | VDict d => Ok (dict_has d k)
  | VList l => Ok (existsb (is_str k) l)
  | VStr s => Ok (contains k s)
  | _ => Raise TypeError
  end.

(** [c[k]] for a [str] key [k]. *)
Definition getitem (c : value) (k : string) : result value :=
  match c with
  | VDict d =>
      match dict_get d k with
      | Some v => Ok v
      | None => Raise KeyError
      end
  | _ => Raise TypeError
  end.

(** [c[0]]. *)
Definition item0 (c : value) : result value :=
  match c with
  | VList (x :: _) => Ok x
  | VList [] => Raise IndexError
  | VStr (String a _) => Ok (VStr (String a EmptyString))
  | VStr EmptyString => Raise IndexError
  | VDict _ => Raise KeyError          (* keys are strings *)
  | _ => Raise TypeError
  end.

(** [c.get(k, default)]. *)
Definition get (c : value) (k : string) (default : value) : result value :=
  match c with
  | VDict d =>
      match dict_get d k with
      | Some v => Ok v
      | None => Ok default
      end
  | _ => Raise AttributeError
  end.

Definition is_dict (v : value) : bool :=
  match v with
  | VDict _ => true
  | _ => false
  end.

Definition is_list (v : value) : bool :=
  match v with
  | VList _ => true
  | _ => false
  end.

(** [isinstance(v, (int, float))]; [bool] is a subclass of [int]. *)
Definition is_number (v : value) : bool :=
  match v with
  | VBool _ | VInt _ | VFloat _ => true
  | _ => false
  end.

(** [int(x)] for a [float]: truncation toward zero. *)
Definition float_to_int (f : spec_float) : result Z :=
  match f with
  | S754_zero _ => Ok 0
  | S754_infinity _ => Raise OverflowError
  | S754_nan => Raise ValueError
  | S754_finite s m e =>
      let mag := if (0 <=? e)%Z then Z.shiftl (Zpos m) e
                 else Z.shiftr (Zpos m) (- e) in
      Ok (if s then - mag else mag)
  end.

(** [int(v)] for [v] a number. *)
Definition to_int (v : value) : result Z :=
  match v with
  | VBool b => Ok (if b then 1 else 0)
  | VInt z => Ok z
  | VFloat f => float_to_int (fl_val f)
  | _ => Raise TypeError
  end.

(** Truth value of [v]. *)
Definition truthy (v : value) : bool :=
  match v with
  | VNone => false
  | VBool b => b
  | VInt z => negb (z =? 0)
  | VFloat f => match fl_val f with S754_zero _ => false | _ => true end
  | VStr s => negb (String.eqb s EmptyString)
  | VList l => match l with [] => false | _ => true end
  | VDict d => match d with [] => false | _ => true end
  end.

Fixpoint chars (s : string) : list value :=
  match s with
  | EmptyString => []
  | String c t => VStr (String c EmptyString) :: chars t
  end.

(** The items [for x in v] visits. *)
Definition iterate (v : value) : result (list value) :=
  match v with
  | VList l => Ok l
  | VDict d => Ok (map (fun kv => VStr (fst kv)) d)
  | VStr s => Ok (chars s)
  | _ => Raise TypeError
  end.

(** [len(v)]. *)
Definition len (v : value) : result Z :=
  match v with
  | VList l => Ok (Z.of_nat (List.length l))
  | VDict d => Ok (Z.of_nat (List.length d))
  | VStr s => Ok (Z.of_nat (String.length s))
  | _ => Raise TypeError
  end.

End Py.

(* ===================================================================== *)
(** * Pipeline complexity scorer
      ([AtlasStreamProcessingAPI.analyze_processor_complexity_detailed]) *)
(* ===================================================================== *)

Module Scorer.
Import Py.

Inductive tier : Type := SP2 | SP5 | SP10 | SP30 | SP50.

Definition tier_name (t : tier) : string :=
  match t with
  | SP2 => "SP2"
  | SP5 => "SP5"
  | SP10 => "SP10"
  | SP30 => "SP30"
  | SP50 => "SP50"
  end.

Definition tier_eqb (a b : tier) : bool := String.eqb (tier_name a) (tier_name b).

Definition tier_hierarchy : list tier := [SP2; SP5; SP10; SP30; SP50].

(** [l.index(t)]; every tier occurs in [tier_hierarchy]. *)
Fixpoint index (l : list tier) (t : tier) : nat :=
  match l with
  | [] => O
  | x :: l' => if tier_eqb x t then O else S (index l' t)
  end.

(** What the source accumulates while it walks the pipeline. *)
Record acc : Type := {
  complexity_score : Z;
  connections_count : Z;
  total_parallelism : Z;
  complexity_factors : list string;
  parallelism_details : list string
}.

Definition acc0 : acc :=
  {| complexity_score := 0; connections_count := 0; total_parallelism := 0;
     complexity_factors := []; parallelism_details := [] |}.

(** [complexity_score += w; complexity_factors.append(text)]. *)
Definition add_factor (w : Z) (text : string) (a : acc) : acc :=
  {| complexity_score := complexity_score a + w;
     connections_count := connections_count a;
     total_parallelism := total_parallelism a;
     complexity_factors := (complexity_factors a ++ [text])%list;
     parallelism_details := parallelism_details a |}.

Definition add_connection (a : acc) : acc :=
  {| complexity_score := complexity_score a;
     connections_count := connections_count a + 1;
     total_parallelism := total_parallelism a;
     complexity_factors := complexity_factors a;
     parallelism_details := parallelism_details a |}.

(** The six "complex operations", in the order of the source's [if]s:
    token looked for in [str(stage)], weight, label. *)
Definition complex_operations : list (string * Z * string) :=
  [ ("$function", 40, "JavaScript function");
    ("$window", 30, "Window processing");
    ("$facet", 25, "Facet operation");
    ("$lookup", 20, "Lookup/join operation");
    ("$group", 15, "Grouping operation");
    ("$sort", 10, "Sort operation") ].

Definition factor_text (stage_name label : string) (w : Z) : string :=
  stage_name ++ ": " ++ label ++ " (+" ++ str_of_Z w ++ " complexity)".

Definition check_operation (stage_name text : string)
    (a : acc) (op : string * Z * string) : acc :=
  match op with
  | (token, w, label) =>
      if contains token text
      then add_factor w (factor_text stage_name label w) a
      else a
  end.

(** The body shared by the three parallelism branches: [v] has passed
    [isinstance(v, (int, float))]; [place] is what the detail line puts in
    brackets. *)
Definition count_parallelism (stage_name place : string) (v : value)
    (a : acc) : result acc :=
  parallelism_val <- to_int v ;;
  if parallelism_val >? 1 then
    let contribution := parallelism_val - 1 in
    let detail := stage_name ++ " (" ++ place ++ "): parallelism="
                  ++ str_of_Z parallelism_val ++ " (contributes "
                  ++ str_of_Z contribution ++ ")" in
    Ok {| complexity_score := complexity_score a + parallelism_val * 5;
          connections_count := connections_count a;
          total_parallelism := total_parallelism a + contribution;
          complexity_factors := complexity_factors a;
          parallelism_details := (parallelism_details a ++ [detail])%list |}
  else Ok a.

(** [if "parallelism" in cfg: v = cfg.get("parallelism", 1);
     if isinstance(v, (int, float)): ...]. *)
Definition parallelism_in (stage_name place : string) (cfg : dict)
    (a : acc) : result acc :=
  match dict_get cfg "parallelism" with
  | Some parallel_val =>
      if is_number parallel_val
      then count_parallelism stage_name place parallel_val a
      else Ok a
  | None => Ok a
  end.

(** One turn of [for key, value in stage.items()]. *)
Definition scan_item (stage_name first_key : string)
    (a : acc) (item : string * value) : result acc :=
  match item with
  | (key, value) =>
      if String.eqb key "parallelism" && is_number value
      then count_parallelism stage_name first_key value a
      else
        match value with
        | VDict cfg =>
            a1 <- parallelism_in stage_name key cfg a ;;
            match dict_get cfg "into" with
            | Some (VDict into_config) =>
                parallelism_in stage_name (key ++ ".into") into_config a1
            | _ => Ok a1
            end
        | _ => Ok a
        end
  end.

Fixpoint scan_items (stage_name first_key : string)
    (items : dict) (a : acc) : result acc :=
  match items with
  | [] => Ok a
  | item :: rest =>
      a1 <- scan_item stage_name first_key a item ;;
      scan_items stage_name first_key rest a1
  end.

(** [list(stage.keys())[0]], asked for only while iterating the items. *)
Definition first_key (d : dict) : string :=
  match d with
  | (k, _) :: _ => k
  | [] => EmptyString
  end.

(** The body of [for i, stage in enumerate(pipeline)]. *)
Definition score_stage (i : nat) (stage : value) (a : acc) : result acc :=
  let stage_name := "Stage " ++ str_of_Z (Z.of_nat i + 1) in
  let text := str stage in
  let a1 := fold_left (check_operation stage_name text) complex_operations a in
  has_source <- py_in "$source" stage ;;
  let a2 := if has_source then add_connection a1 else a1 in
  has_merge <- py_in "$merge" stage ;;
  let a3 := if has_merge then add_connection a2 else a2 in
  a4 <- match stage with
        | VDict d => scan_items stage_name (first_key d) d a3
        | _ => Ok a3
        end ;;
  Ok (if contains "kafka" (lower text)
      then add_factor 15 (factor_text stage_name "Kafka integration" 15) a4
      else a4).

Fixpoint score_stages (i : nat) (stages : list value) (a : acc) : result acc :=
  match stages with
  | [] => Ok a
  | stage :: rest =>
      a1 <- score_stage i stage a ;;
      score_stages (S i) rest a1
  end.

(** Pipeline length factor. *)
Definition length_factor (pipeline_length : Z) (a : acc) : acc :=
  let text w := "Pipeline length: " ++ str_of_Z pipeline_length
                ++ " stages (+" ++ str_of_Z w ++ " complexity)" in
  if pipeline_length >? 8 then add_factor 20 (text 20) a
  else if pipeline_length >? 5 then add_factor 10 (text 10) a
  else if pipeline_length >? 3 then add_factor 5 (text 5) a
  else a.

(** Connection count factor. *)
Definition connection_factor (a : acc) : acc :=
  let n := connections_count a in
  let text w := "Connection count: " ++ str_of_Z n
                ++ " (+" ++ str_of_Z w ++ " complexity)" in
  if n >? 4 then add_factor 15 (text 15) a
  else if n >? 2 then add_factor 10 (text 10) a
  else a.

(** Parallelism-based tier minimum. *)
Definition min_tier_from_parallelism (total : Z) : tier :=
  if total >? 48 then SP50
  else if total >? 8 then SP30
  else if total >? 1 then SP10
  else if total =? 1 then SP5
  else SP2.

(** Tier from the complexity score, with its [complexity_reason]. *)
Definition complexity_tier (score : Z) : tier * string :=
  if score >=? 80 then (SP50, "Very complex pipeline (80+ complexity points)")
  else if score >=? 50 then (SP30, "Complex pipeline (50+ complexity points)")
  else if score >=? 25 then (SP10, "Moderate complexity (25+ complexity points)")
  else if score >=? 10 then (SP5, "Simple pipeline (10+ complexity points)")
  else (SP2, "Very simple pipeline (<10 complexity points)").

(** [tier_hierarchy[max(complexity_index, parallelism_index)]]. *)
Definition final_tier (recommended min_par : tier) : tier :=
  nth (Nat.max (index tier_hierarchy recommended)
               (index tier_hierarchy min_par)) tier_hierarchy SP2.

Inductive driver : Type := ComplexityDriven | ParallelismDriven.

(** Which branch of "Build reasoning" runs. *)
Definition decisive (recommended min_par : tier) : driver :=
  if (index tier_hierarchy min_par <=? index tier_hierarchy recommended)%nat
  then ComplexityDriven else ParallelismDriven.

(** The ["analysis"] entry of a full report. *)
Record details : Type := {
  d_total_parallelism : Z;
  d_complexity_score : Z;
  d_pipeline_stages : Z;
  d_connections_count : Z;
  d_complexity_tier : tier;
  d_parallelism_tier : tier;
  d_parallelism_details : list string;
  d_complexity_factors : list string
}.

Inductive analysis_entry : Type :=
| AnalysisError (error : string)
| Analysis (d : details).

Inductive reasoning_entry : Type :=
| ReasoningNote (text : string)
| Reasoning (primary secondary final_decision : string).

(** The dictionary the function returns. *)
Record report : Type := {
  recommended_tier : tier;
  analysis : analysis_entry;
  reasoning : reasoning_entry
}.

(** Where the definition comes from: the local file
    [../../processors/<name>.json], else the control-plane API. *)
Inductive local_file : Type :=
| FileAbsent                    (* [processor_file.exists()] is false *)
| FileFails (e : exn)           (* [open] or [json.load] raises *)
| FileHolds (v : value).

Inductive api_reply : Type :=
| RequestFails                          (* [requests.get] raises *)
| Response (status_code : Z) (json : result value).

Definition load_processor_data (file : local_file) (api : api_reply)
    : result (option value) :=
  match file with
  | FileHolds v => Ok (Some v)
  | FileFails e => Raise e
  | FileAbsent =>
      Ok (match api with
          | Response status_code json =>
              if status_code =? 200
              then match json with
                   | Ok v => Some v
                   | Raise _ => None     (* bare [except: pass] *)
                   end
              else None
          | RequestFails => None
          end)
  end.

Definition missing_report : report :=
  {| recommended_tier := SP10;
     analysis := AnalysisError "Processor not found locally or in Atlas";
     reasoning := ReasoningNote "Default fallback for missing processor" |}.

Definition error_report (e : exn) : report :=
  {| recommended_tier := SP10;
     analysis := AnalysisError (exn_str e);
     reasoning := ReasoningNote "Error occurred during analysis, using default tier" |}.

(** From the walk over the stages to the report. *)
Definition build_report (pipeline_length : Z) (walked : acc) : report :=
  let a := connection_factor (length_factor pipeline_length walked) in
  let min_par := min_tier_from_parallelism (total_parallelism a) in
  let (recommended, complexity_reason) := complexity_tier (complexity_score a) in
  let final := final_tier recommended min_par in
  let (primary_reason, secondary_reason) :=
    match decisive recommended min_par with
    | ComplexityDriven =>
        ("Complexity-driven: " ++ complexity_reason,
         "Parallelism requirement: " ++ tier_name min_par
         ++ " (total parallelism: " ++ str_of_Z (total_parallelism a) ++ ")")
    | ParallelismDriven =>
        ("Parallelism-driven: " ++ tier_name min_par ++ " required for "
         ++ str_of_Z (total_parallelism a) ++ " total parallelism",
         "Complexity score: " ++ str_of_Z (complexity_score a)
         ++ " (suggests " ++ tier_name recommended ++ ")")
    end in
  {| recommended_tier := final;
     analysis := Analysis
       {| d_total_parallelism := total_parallelism a;
          d_complexity_score := complexity_score a;
          d_pipeline_stages := pipeline_length;
          d_connections_count := connections_count a;
          d_complexity_tier := recommended;
          d_parallelism_tier := min_par;
          d_parallelism_details := parallelism_details a;
          d_complexity_factors := complexity_factors a |};
     reasoning := Reasoning primary_reason secondary_reason
       ("Selected " ++ tier_name final ++ " as the higher requirement") |}.

(** The scoring proper, on the value bound to [pipeline]. *)
Definition score_pipeline (pipeline : value) : result report :=
  stages <- iterate pipeline ;;
  walked <- score_stages 0 stages acc0 ;;
  pipeline_length <- len pipeline ;;
  Ok (build_report pipeline_length walked).

(** The [try] block. *)
Definition analyze_body (file : local_file) (api : api_reply) : result report :=
  processor_data <- load_processor_data file api ;;
  match processor_data with
  | None => Ok missing_report
  | Some data =>
      if negb (truthy data) then Ok missing_report
      else
        pipeline <- get data "pipeline" (VList []) ;;
        score_pipeline pipeline
  end.

Definition analyze_processor_complexity_detailed
    (file : local_file) (api : api_reply) : result report :=
  match analyze_body file api with
  | Ok r => Ok r
  | Raise e => Ok (error_report e)      (* [except Exception as e] *)
  end.

(** [analyze_processor_complexity]: [analysis["recommended_tier"]]. *)
Definition analyze_processor_complexity
    (file : local_file) (api : api_reply) : result tier :=
  r <- analyze_processor_complexity_detailed file api ;;
  Ok (recommended_tier r).

(** ** Statements about the scorer *)

(** The end-to-end scenario: a source, a grouping stage, a sort stage and
    a merge whose [into] carries [parallelism: 9]. *)
Definition scenario_pipeline : value :=
  VList
    [ VDict [("$source", VDict [("connectionName", VStr "sample_stream_solar")])];
      VDict [("$group", VDict [("_id", VStr "$device_id");
                               ("total", VDict [("$sum", VInt 1)])])];
      VDict [("$sort", VDict [("total", VInt (-1))])];
      VDict [("$merge",
              VDict [("into", VDict [("connectionName", VStr "Cluster01");
                                     ("db", VStr "solar");
                                     ("coll", VStr "totals");
                                     ("parallelism", VInt 9)])])] ].

Definition scenario_document : dict :=
  [("name", VStr "solar_totals"); ("pipeline", scenario_pipeline)].

Definition scenario_processor : value := VDict scenario_document.

(** What the scenario is said to score. *)
Definition scenario_expectation (r : report) : Prop :=
  exists d,
    analysis r = Analysis d /\
    d_complexity_score d = 70 /\
    d_total_parallelism d = 8 /\
    d_complexity_tier d = d_parallelism_tier d /\
    recommended_tier r = d_complexity_tier d /\
    decisive (d_complexity_tier d) (d_parallelism_tier d) = ComplexityDriven.


(** The stage has [op] among its operator keys. *)
Definition uses_operator (op : string) (stage : value) : bool :=
  match stage with
  | VDict d => dict_has d op
  | _ => false
  end.

(** A pipeline in which [$group] is only the start of a field path. *)
Definition field_path_pipeline : value :=
  VList
    [ VDict [("$source", VDict [("connectionName", VStr "sample_stream_solar")])];
      VDict [("$project", VDict [("total", VStr "$group_total")])];
      VDict [("$merge",
              VDict [("into", VDict [("connectionName", VStr "Cluster01");
                                     ("db", VStr "solar");
                                     ("coll", VStr "totals")])])] ].

(** What the walk over the stages maintains. *)
Definition sound (a : acc) : Prop :=
  0 <= complexity_score a /\
  0 <= total_parallelism a /\
  (1 <= total_parallelism a -> 10 <= complexity_score a).

(** A source and a merge, nothing else. *)
Definition bare_processor : value :=
  VDict [("pipeline",
          VList [VDict [("$source", VDict [("connectionName", VStr "in")])];
                 VDict [("$merge", VDict [("into", VDict [("coll", VStr "out")])])]])].

(** [field_path_pipeline] with another field path in the same place. *)
Definition renamed_path_pipeline : value :=
  VList
    [ VDict [("$source", VDict [("connectionName", VStr "sample_stream_solar")])];
      VDict [("$project", VDict [("total", VStr "$grand_total")])];
      VDict [("$merge",
              VDict [("into", VDict [("connectionName", VStr "Cluster01");
                                     ("db", VStr "solar");
                                     ("coll", VStr "totals")])])] ].

(** The operator tokens the scorer looks for. *)
Definition tokens : list string := map (fun op => fst (fst op)) complex_operations.

(** Of the scored texts, the text of the stage holds exactly the operator
    tokens [present], and not the word kafka in any case. *)
Definition text_holds (present : list string) (stage : value) : Prop :=
  (forall tok, In tok tokens ->
     contains tok (str stage) = existsb (String.eqb tok) present) /\
  contains "kafka" (lower (str stage)) = false.

(** The configuration sets no parallelism, directly or under [into]. *)
Definition no_parallelism (cfg : dict) : Prop :=
  dict_get cfg "parallelism" = None /\ dict_get cfg "into" = None.

(** A source, a grouping stage, a sort stage and a merge, each with its
    configuration. *)
Definition four_stages (src grp srt mrg : dict) : value :=
  VList [ VDict [("$source", VDict src)];
          VDict [("$group", VDict grp)];
          VDict [("$sort", VDict srt)];
          VDict [("$merge", VDict mrg)] ].

(** The report on the end-to-end scenario. *)
Definition scenario_report : report :=
  {| recommended_tier := SP30;
     analysis := Analysis
       {| d_total_parallelism := 8;
          d_complexity_score := 15 + 10 + 9 * 5 + 5;
          d_pipeline_stages := 4;
          d_connections_count := 2;
          d_complexity_tier := SP30;
          d_parallelism_tier := SP10;
          d_parallelism_details :=
            ["Stage 4 ($merge.into): parallelism=9 (contributes 8)"];
          d_complexity_factors :=
            ["Stage 2: Grouping operation (+15 complexity)";
             "Stage 3: Sort operation (+10 complexity)";
             "Pipeline length: 4 stages (+5 complexity)"] |};
     reasoning := Reasoning
       "Complexity-driven: Complex pipeline (50+ complexity points)"
       "Parallelism requirement: SP10 (total parallelism: 8)"
       "Selected SP30 as the higher requirement" |}.


(** ** Further statements about the scorer *)


(** The factor [text] has been charged, for at least [w] points. *)
Definition charged (text : string) (w : Z) (a : acc) : Prop :=
  In text (complexity_factors a) /\ w <= complexity_score a.


(** The stage operators that open a window, as the test suite lists
    them. *)
Definition window_operators : list string :=
  ["$tumblingWindow"; "$hoppingWindow"; "$sessionWindow"].

(** A lookup that joins on a fixed collection. *)
Definition lookup_stage : dict :=
  [("$lookup", VDict [("from", VDict [("connectionName", VStr "Cluster01");
                                      ("db", VStr "solar");
                                      ("coll", VStr "devices")]);
                      ("localField", VStr "device_id");
                      ("foreignField", VStr "_id");
                      ("as", VStr "device")])].

Definition lookup_processor : dict :=
  [("name", VStr "enrich");
   ("pipeline",
    VList [VDict [("$source", VDict [("connectionName", VStr "in")])];
           VDict lookup_stage;
           VDict [("$merge", VDict [("into", VDict [("coll", VStr "out")])])]])].


(** Two texts that differ at a position both have. *)
Fixpoint clash (a b : string) : bool :=
  match a, b with
  | String x a', String y b' => negb (Ascii.eqb x y) || clash a' b'
  | _, _ => false
  end.

(** No occurrence of [n] can start inside [p], whatever follows [p]. *)
Fixpoint apart (n p : string) : bool :=
  match p with
  | EmptyString => true
  | String _ p' => clash p n && apart n p'
  end.

(** A source, one window stage and a merge. *)
Definition windowed (op : string) (src win mrg : dict) : value :=
  VList [ VDict [("$source", VDict src)];
          VDict [(op, VDict win)];
          VDict [("$merge", VDict mrg)] ].

(** A ten-second tumbling window over a filter. *)
Definition window_configuration : dict :=
  [("interval", VDict [("size", VInt 10); ("unit", VStr "second")]);
   ("pipeline",
    VList [VDict [("$match", VDict [("watts", VDict [("$gt", VInt 0)])])]])].

Definition windowed_processor : dict :=
  [("name", VStr "solar_window");
   ("pipeline",
    windowed "$tumblingWindow"
      [("connectionName", VStr "sample_stream_solar")]
      window_configuration
      [("into", VDict [("connectionName", VStr "Cluster01");
                       ("db", VStr "solar");
                       ("coll", VStr "windows")])])].

End Scorer.

(* ===================================================================== *)
(** * Tier-violation error parser
      ([AtlasStreamProcessingAPI._parse_tier_validation_error]) *)
(* ===================================================================== *)

Module TierError.
Import Py.

Definition is_digit (c : ascii) : bool :=
  let n := nat_of_ascii c in ((48 <=? n) && (n <=? 57))%nat.

(** The longest run of digits [s] starts with: what a greedy [\d+]
    consumes. *)
Fixpoint digits_of (s : string) : string :=
  match s with
  | String c t => if is_digit c then String c (digits_of t) else EmptyString
  | EmptyString => EmptyString
  end.

(** [Some rest] when [s] is [lit] followed by [rest]. *)
Fixpoint strip (lit s : string) : option string :=
  match lit with
  | EmptyString => Some s
  | String a lit' =>
      match s with
      | String b s' => if Ascii.eqb a b then strip lit' s' else None
      | EmptyString => None
      end
  end.

(** The pattern [lit\d+] tried at the start of [s]: the digits matched. *)
Definition match_here (lit s : string) : option string :=
  match strip lit s with
  | Some rest =>
      match digits_of rest with
      | EmptyString => None
      | ds => Some ds
      end
  | None => None
  end.

(** [re.search] for the pattern [lit\d+]: the leftmost position where it
    matches wins; the result is the digit group there. *)
Fixpoint re_search (lit s : string) : option string :=
  match match_here lit s with
  | Some ds => Some ds
  | None =>
      match s with
      | String _ t => re_search lit t
      | EmptyString => None
      end
  end.

(** The text before the group [(SP\d+)] and before the [SP] of it. *)
Definition minimum_tier_prefix : string := "Minimum tier for this workload: ".
Definition requested_prefix : string := "Requested: ".

(** [sys.get_int_max_str_digits()], CPython's default: [int(text)] raises
    [ValueError] on more digits than this. *)
Definition int_max_str_digits : nat := 4300.

Definition digit_value (c : ascii) : Z := Z.of_nat (nat_of_ascii c - 48).

Fixpoint int_of_digits (acc : Z) (s : string) : Z :=
  match s with
  | EmptyString => acc
  | String c t => int_of_digits (10 * acc + digit_value c) t
  end.

(** [int(ds)] for [ds] a string of digits. *)
Definition py_int (ds : string) : result Z :=
  if (int_max_str_digits <? String.length ds)%nat then Raise ValueError
  else Ok (int_of_digits 0 ds).

(** The [try] block; [None] is Python's [None] ("no suggestion"). *)
Definition parse_body (error_text : string) : result (option string) :=
  match re_search (minimum_tier_prefix ++ "SP") error_text with
  | Some ds => Ok (Some ("SP" ++ ds))
  | None =>
      match re_search requested_prefix error_text with
      | Some ds =>
          requested_parallelism <- py_int ds ;;
          Ok (Some (if requested_parallelism >? 8 then "SP50"
                    else if requested_parallelism >? 4 then "SP30"
                    else if requested_parallelism >? 2 then "SP10"
                    else "SP5"))
      | None => Ok None
      end
  end.

Definition _parse_tier_validation_error (error_text : string)
    : result (option string) :=
  match parse_body error_text with
  | Ok r => Ok r
  | Raise _ => Ok None              (* bare [except: pass], then [return None] *)
  end.

(** The pattern [lit\d+] matches somewhere in
    [s]. *)
Definition matches (lit s : string) : Prop :=
  exists pre d rest, s = pre ++ lit ++ String d rest /\ is_digit d = true.

Definition sp30_phrase : string :=
  "Minimum tier for this workload: SP30 or larger".

(** Two rejections quoted in one text, the lower tier first. *)
Definition two_phrases : string :=
  "Minimum tier for this workload: SP10 or larger; " ++ sp30_phrase.


(** ** Further statements about the parser *)

(** [s] consists of digits. *)
Fixpoint all_digits (s : string) : bool :=
  match s with
  | EmptyString => true
  | String c t => is_digit c && all_digits t
  end.

(** A tier name as the control plane writes it: [SP] and a number. *)
Definition tier_shaped (s : string) : Prop :=
  exists ds, s = "SP" ++ ds /\ ds <> EmptyString /\ all_digits ds = true.

End TierError.

(* ===================================================================== *)
(** * Quick validator ([tests/test_runner.py], [validate_processor_file]) *)
(* ===================================================================== *)

Module Validator.
Import Py.

(** The [result] dictionary the function builds and returns. *)
Record outcome : Type := {
  file : string;
  valid : bool;
  errors : list string;
  warnings : list string
}.

(** The function appends to [result] as it goes and may be cut short by
    an exception; what was appended stays.  Hence a state monad over
    [outcome] whose computations may raise. *)
Definition M (A : Type) : Type := outcome -> outcome * result A.

Definition ret {A : Type} (a : A) : M A := fun o => (o, Ok a).

Definition vbind {A B : Type} (c : M A) (k : A -> M B) : M B :=
  fun o =>
    match c o with
    | (o1, Ok a) => k a o1
    | (o1, Raise e) => (o1, Raise e)
    end.

Definition lift {A : Type} (r : result A) : M A := fun o => (o, r).

Declare Scope validator_scope.
Notation "x <- c ;; k" := (vbind c (fun x => k))
  (at level 61, c at next level, right associativity) : validator_scope.
Notation "c ;;; k" := (vbind c (fun _ => k))
  (at level 61, right associativity) : validator_scope.
Local Open Scope validator_scope.

(** [result["errors"].append(msg); result["valid"] = False]. *)
Definition add_error (msg : string) : M unit :=
  fun o => ({| file := file o; valid := false;
               errors := (errors o ++ [msg])%list;
               warnings := warnings o |}, Ok tt).

(** [result["warnings"].append(msg)]. *)
Definition add_warning (msg : string) : M unit :=
  fun o => ({| file := file o; valid := valid o;
               errors := errors o;
               warnings := (warnings o ++ [msg])%list |}, Ok tt).

Definition when (b : bool) (c : M unit) : M unit := if b then c else ret tt.

(** [any(any(k in stage for k in ["$merge", "$emit"]) for stage in pipeline)],
    evaluated lazily, left to right. *)
Fixpoint has_output (stages : list value) : result bool :=
  match stages with
  | [] => Ok false
  | stage :: rest =>
      bind (py_in "$merge" stage) (fun m =>
        if m then Ok true
        else bind (py_in "$emit" stage) (fun e =>
               if e then Ok true else has_output rest))
  end.

(** [conn in connections], the known names being strings. *)
Definition known (connections : list string) (conn : value) : bool :=
  match conn with
  | VStr s => existsb (String.eqb s) connections
  | _ => false
  end.

(** [if "connectionName" in cfg: conn = cfg["connectionName"];
     if conn not in connections: warnings.append(f"Unknown <kind> connection: {conn}")]. *)
Definition check_connection (connections : list string) (kind : string)
    (cfg : value) : M unit :=
  has_name <- lift (py_in "connectionName" cfg) ;;
  when has_name
    (conn <- lift (getitem cfg "connectionName") ;;
     when (negb (known connections conn))
       (add_warning ("Unknown " ++ kind ++ " connection: " ++ str conn))).

(** Test 5, source: [if "$source" in stage and
    "connectionName" in stage["$source"]: ...]. *)
Definition check_source (connections : list string) (stage : value) : M unit :=
  has_source <- lift (py_in "$source" stage) ;;
  when has_source
    (source <- lift (getitem stage "$source") ;;
     check_connection connections "source" source).

(** Test 5, merge: [if "$merge" in stage and "into" in stage["$merge"]: ...]. *)
Definition check_merge (connections : list string) (stage : value) : M unit :=
  has_merge <- lift (py_in "$merge" stage) ;;
  when has_merge
    (merge <- lift (getitem stage "$merge") ;;
     has_into <- lift (py_in "into" merge) ;;
     when has_into
       (into <- lift (getitem merge "into") ;;
        when (is_dict into) (check_connection connections "merge" into))).

(** Test 5, emit: [if "$emit" in stage: ...]. *)
Definition check_emit (connections : list string) (stage : value) : M unit :=
  has_emit <- lift (py_in "$emit" stage) ;;
  when has_emit
    (emit <- lift (getitem stage "$emit") ;;
     when (is_dict emit) (check_connection connections "emit" emit)).

(** The body of the Test 5 loop. *)
Definition check_stage (connections : list string) (stage : value) : M unit :=
  check_source connections stage ;;;
  check_merge connections stage ;;;
  check_emit connections stage.

Fixpoint check_stages (connections : list string) (stages : list value)
    : M unit :=
  match stages with
  | [] => ret tt
  | stage :: rest =>
      check_stage connections stage ;;; check_stages connections rest
  end.

(** Tests 2 to 4; the result is what the later loops over [pipeline]
    visit. *)
Definition check_pipeline (processor : value) : M (list value) :=
  has_pipeline <- lift (py_in "pipeline" processor) ;;
  when (negb has_pipeline) (add_error "Missing required 'pipeline' field") ;;;
  pipeline <- lift (get processor "pipeline" (VList [])) ;;
  when (negb (is_list pipeline)) (add_error "'pipeline' must be a list") ;;;
  n <- lift (len pipeline) ;;
  when (n =? 0) (add_error "'pipeline' cannot be empty") ;;;
  when (truthy pipeline)
    (first <- lift (item0 pipeline) ;;
     starts_with_source <- lift (py_in "$source" first) ;;
     when (negb starts_with_source)
       (add_error "First pipeline stage must be '$source'")) ;;;
  stages <- lift (iterate pipeline) ;;
  output <- lift (has_output stages) ;;
  when (negb output) (add_warning "No output stage found ($merge, $emit)") ;;;
  ret stages.

(** [processor["name"] != filename]. *)
Definition differs (v : value) (filename : string) : bool :=
  match v with
  | VStr s => negb (String.eqb s filename)
  | _ => true
  end.

(** Test 6: naming convention. *)
Definition check_name (stem : string) (processor : value) : M unit :=
  has_name <- lift (py_in "name" processor) ;;
  when has_name
    (name <- lift (getitem processor "name") ;;
     when (differs name stem)
       (add_warning ("Processor name '" ++ str name
                     ++ "' doesn't match filename '" ++ stem ++ "'"))).

(** The [try] block after [json.load]. *)
Definition validate_body (stem : string) (connections : list string)
    (processor : value) : M unit :=
  stages <- check_pipeline processor ;;
  check_stages connections stages ;;;
  check_name stem processor.

(** [validate_processor_file]: [path] is [str(file_path)], [stem] is
    [file_path.stem], [content] what [open] and [json.load] give,
    [connections] what [load_valid_connections()] returns. *)
Definition validate_processor_file (path stem : string)
    (content : result value) (connections : list string) : outcome :=
  let start := {| file := path; valid := true; errors := []; warnings := [] |} in
  let run := (processor <- lift content ;;
              validate_body stem connections processor) start in
  match run with
  | (o, Ok _) => o
  | (o, Raise JSONDecodeError) =>
      fst (add_error ("Invalid JSON: " ++ exn_str JSONDecodeError) o)
  | (o, Raise e) =>
      fst (add_error ("Validation error: " ++ exn_str e) o)
  end.

(** [Some v] with [v] a mapping, or nothing. *)
Definition mapping_if_any (o : option value) : bool :=
  match o with
  | Some v => is_dict v
  | None => true
  end.

(** A stage the Test 5 loop can read: a mapping in which a [$source] and a
    [$merge], where present, are configured by mappings. *)
Definition stage_ok (stage : value) : bool :=
  match stage with
  | VDict d =>
      mapping_if_any (dict_get d "$source") && mapping_if_any (dict_get d "$merge")
  | _ => false
  end.

(** The stage refers to connection [x] from its source, from its merge
    target or from its emit configuration. *)
Definition refers_to (x : string) (stage : value) : Prop :=
  exists d, stage = VDict d /\
    ((exists cfg, dict_get d "$source" = Some (VDict cfg) /\
                  dict_get cfg "connectionName" = Some (VStr x)) \/
     (exists cfg into, dict_get d "$merge" = Some (VDict cfg) /\
                       dict_get cfg "into" = Some (VDict into) /\
                       dict_get into "connectionName" = Some (VStr x)) \/
     (exists cfg, dict_get d "$emit" = Some (VDict cfg) /\
                  dict_get cfg "connectionName" = Some (VStr x))).

(** Two outcomes with the same verdict: same file, validity and errors. *)
Definition same_verdict (o o' : outcome) : Prop :=
  file o = file o' /\ valid o = valid o' /\ errors o = errors o'.

(** Two computations that, from outcomes with the same verdict, end alike
    and leave the same verdict. *)
Definition agree {A : Type} (m m' : M A) : Prop :=
  forall o o', same_verdict o o' ->
    same_verdict (fst (m o)) (fst (m' o')) /\ snd (m o) = snd (m' o').

(** A computation that keeps the warnings written so far. *)
Definition keeps {A : Type} (m : M A) : Prop :=
  forall o w, In w (warnings o) -> In w (warnings (fst (m o))).

(** A computation that returns [a], from any outcome so far. *)
Definition returns {A : Type} (m : M A) (a : A) : Prop :=
  forall o, snd (m o) = Ok a.

(** A computation that returns normally. *)
Definition fine (m : M unit) : Prop := returns m tt.

(** A computation that leaves the warning [w] written. *)
Definition writes (w : string) (m : M unit) : Prop :=
  forall o, In w (warnings (fst (m o))).

(** The warning the Test 5 loop writes for connection [x]. *)
Definition unknown_warning (kind x : string) : string :=
  "Unknown " ++ kind ++ " connection: " ++ x.

(** A pipeline with a filter and a limit between its source, which names
    the unknown connection [X], and its merge. *)
Definition unknown_source_stages : list value :=
  [VDict [("$source", VDict [("connectionName", VStr "X")])];
   VDict [("$match", VDict [("watts", VDict [("$gt", VInt 0)])])];
   VDict [("$limit", VInt 100)];
   VDict [("$merge",
           VDict [("into", VDict [("connectionName", VStr "Y");
                                  ("db", VStr "solar");
                                  ("coll", VStr "totals")])])]].

Definition unknown_source_processor : dict :=
  [("name", VStr "solar"); ("pipeline", VList unknown_source_stages)].


(** ** Further statements about the validator *)

(** A computation under which a property of the outcome, once it holds,
    goes on holding. *)
Definition preserves (P : outcome -> Prop) {A : Type} (m : M A) : Prop :=
  forall o, P o -> P (fst (m o)).

(** The stage is a mapping with the key [$source]. *)
Definition starts_with_source (stage : value) : bool :=
  match stage with
  | VDict d => dict_has d "$source"
  | _ => false
  end.

(** The stage is a mapping with one of the keys [$merge], [$emit]. *)
Definition outputs (stage : value) : bool :=
  match stage with
  | VDict d => dict_has d "$merge" || dict_has d "$emit"
  | _ => false
  end.

(** A pipeline that reads a source and only reshapes the documents. *)
Definition no_output_processor : dict :=
  [("name", VStr "reshape");
   ("pipeline",
    VList [VDict [("$source", VDict [("connectionName", VStr "Y")])];
           VDict [("$addFields", VDict [("seen", VBool true)])]])].

End Validator.

(* ===================================================================== *)
(** * Profiler ([profile_processors], [profile_processors_continuous],
      [_check_thresholds], [_analyze_profile_data],
      [_calculate_processor_stats], [_calculate_trend],
      [_generate_recommendations]) *)
(* ===================================================================== *)

Module Profiler.
Import Py.

(** Metric values and clock readings are rationals: every finite double
    and every integer is one, and the comparisons the code makes are
    exact.  The sums and averages of the end-of-run analysis, and the
    change a trend is read from, are computed in double precision as the
    source computes them (see below). *)
Definition num : Type := Q.
Bind Scope Q_scope with num.

Definition Qltb (a b : Q) : bool := negb (Qle_bool b a).

(** ** Double precision

    Python's [float] is IEEE-754 binary64, rounding to nearest, ties to
    even. *)

(** The double nearest to an integer. *)
Definition double (z : Z) : spec_float := binary_normalize 53 1024 z 0 false.

(** The double nearest to a rational: the value itself when it is a
    double, and what the correctly rounded division [a / b] gives for the
    quotient of two integers. *)
Definition b64 (q : num) : spec_float :=
  match Qnum q with
  | Z0 => S754_zero false
  | Zpos n => SFdiv 53 1024 (S754_finite false n 0) (S754_finite false (Qden q) 0)
  | Zneg n => SFdiv 53 1024 (S754_finite true n 0) (S754_finite false (Qden q) 0)
  end.

(** The rational a double is.  An infinity is read as the first power of
    two past the doubles, which compares with every finite number as the
    infinity does; the averages of finite values are never NaN. *)
Definition rational (f : spec_float) : num :=
  match f with
  | S754_zero _ => 0%Q
  | S754_finite s m e =>
      (inject_Z (if s then Z.neg m else Z.pos m) * Qpower 2 e)%Q
  | S754_infinity s => if s then (- Qpower 2 1024)%Q else Qpower 2 1024
  | S754_nan => 0%Q
  end.

(** ** Samples *)

(** The dictionary [proc_sample]; [extras] holds [dlq_count],
    [state_size_bytes] and [scale_factor], which only the fixed-duration
    loop records. *)
Record proc_sample : Type := {
  name : string;
  memory_mb : num;
  input_count : num;
  output_count : num;
  latency_p50_us : num;
  latency_p99_us : num;
  throughput_per_sec : num;
  extras : option (num * num * num)
}.

(** An entry of [sample["processors"]]: a [proc_sample], or
    [{"name": ..., "error": ...}]. *)
Inductive entry : Type :=
| Sampled (p : proc_sample)
| Failed (processor_name : string) (error : string).

Definition entry_name (e : entry) : string :=
  match e with
  | Sampled p => name p
  | Failed n _ => n
  end.

(** ["error" not in p]. *)
Definition error_free (e : entry) : bool :=
  match e with
  | Sampled _ => true
  | Failed _ _ => false
  end.

(** An alert; the source renders it as text with the values to one
    decimal. *)
Inductive alert : Type :=
| HighMemory (processor : string) (value limit : num)
| HighLatency (processor : string) (p99_ms limit : num)
| LowThroughput (processor : string) (value limit : num).

Record sample : Type := {
  timestamp : num;
  processors : list entry;
  alerts : list alert
}.

(** [thresholds]: each key may be absent. *)
Record threshold_set : Type := {
  th_memory_mb : option num;
  th_latency_p99_ms : option num;
  th_throughput_min : option num
}.

Definition _check_thresholds (p : proc_sample) (th : threshold_set)
    : list alert :=
  ((match th_memory_mb th with
    | Some limit => if Qltb limit (memory_mb p)
                    then [HighMemory (name p) (memory_mb p) limit] else []
    | None => []
    end) ++
   (match th_latency_p99_ms th with
    | Some limit =>
        let p99_ms := (latency_p99_us p / 1000)%Q in
        if Qltb limit p99_ms then [HighLatency (name p) p99_ms limit] else []
    | None => []
    end) ++
   (match th_throughput_min th with
    | Some limit => if Qltb (throughput_per_sec p) limit
                    then [LowThroughput (name p) (throughput_per_sec p) limit]
                    else []
    | None => []
    end))%list.

(** ** One tick of the sampler *)

(** The [stats] of the first processor in the reply, with the defaults of
    the [stats.get] calls applied. *)
Record stats_reply : Type := {
  memoryUsageBytes : num;
  inputMessageCount : num;
  outputMessageCount : num;
  dlqMessageCount : num;
  latency_p50 : num;
  latency_p99 : num;
  stateSize : num;
  scaleFactor : num
}.

(** What [get_single_processor_stats] does for one processor in one tick. *)
Inductive fetched : Type :=
| FetchRaises (e : exn)
| FetchNothing                   (* [summary.success] is 0 *)
| Fetched (s : stats_reply).

(** [next((p for p in l if p["name"] == n), None)]. *)
Definition find_named (n : string) (l : list entry) : option entry :=
  find (fun e => String.eqb (entry_name e) n) l.

(** [max(0, input_diff / interval)], against the previous tick's entry of
    the same name.  An entry that recorded an error has no
    ["input_count"]. *)
Definition throughput (interval : Z) (previous : option sample)
    (n : string) (input_now : num) : result num :=
  match previous with
  | None => Ok 0%Q
  | Some prev =>
      match find_named n (processors prev) with
      | None => Ok 0%Q
      | Some (Failed _ _) => Raise KeyError
      | Some (Sampled prev_sample) =>
          let input_diff := (input_now - input_count prev_sample)%Q in
          if interval =? 0 then Raise ZeroDivisionError
          else let rate := (input_diff / inject_Z interval)%Q in
               Ok (if Qltb 0%Q rate then rate else 0%Q)
      end
  end.

(** The body of [for processor_name in processor_names], inside its
    [try]; [full] tells the fixed-duration loop from the continuous one. *)
Definition sample_one (full : bool) (interval : Z) (previous : option sample)
    (n : string) (f : fetched) : result (option proc_sample) :=
  match f with
  | FetchRaises e => Raise e
  | FetchNothing => Ok None
  | Fetched s =>
      rate <- throughput interval previous n (inputMessageCount s) ;;
      Ok (Some {| name := n;
                  memory_mb := (memoryUsageBytes s / 1048576)%Q;
                  input_count := inputMessageCount s;
                  output_count := outputMessageCount s;
                  latency_p50_us := latency_p50 s;
                  latency_p99_us := latency_p99 s;
                  throughput_per_sec := rate;
                  extras := if full
                            then Some (dlqMessageCount s, stateSize s, scaleFactor s)
                            else None |})
  end.

(** One tick: a sample built from the replies for the monitored names. *)
Fixpoint collect (full : bool) (interval : Z) (th : threshold_set)
    (previous : option sample) (fetch : string -> fetched)
    (names : list string) (s : sample) : sample :=
  match names with
  | [] => s
  | n :: rest =>
      let s1 :=
        match sample_one full interval previous n (fetch n) with
        | Ok (Some p) =>
            {| timestamp := timestamp s;
               processors := (processors s ++ [Sampled p])%list;
               alerts := (alerts s ++ _check_thresholds p th)%list |}
        | Ok None => s
        | Raise e =>
            {| timestamp := timestamp s;
               processors := (processors s ++ [Failed n (exn_str e)])%list;
               alerts := alerts s |}
        end in
      collect full interval th previous fetch rest s1
  end.

Definition tick (full : bool) (interval : Z) (th : threshold_set)
    (samples : list sample) (fetch : string -> fetched)
    (names : list string) (now : num) : sample :=
  collect full interval th (last (map Some samples) None) fetch names
    {| timestamp := now; processors := []; alerts := [] |}.

(** ** The two loops *)

(** What the world does during one tick: the replies, and how long the
    tick's processing (fetching, bookkeeping) takes on the clock. *)
Record tick_env : Type := {
  fetch : string -> fetched;
  work : num
}.

(** One tick as it happened: when it began, how long its processing took,
    and the length [time.sleep] was called with after it, if it was
    called.  A call with a negative length raised (see [time_sleep]). *)
Record tick_record : Type := {
  began : num;
  took : num;
  slept : option num
}.

(** The length the fixed-duration loop calls [time.sleep] with, if it
    calls it, [now] being the clock after the tick's processing. *)
Definition sleep_fixed (start_time duration : num) (interval : Z) (now : num)
    : option num :=
  let elapsed := (now - start_time)%Q in
  let remaining := (duration - elapsed)%Q in
  if Qltb (inject_Z interval) remaining then Some (inject_Z interval)
  else if Qltb 0%Q remaining then Some remaining
  else None.

(** The length the continuous loop calls [time.sleep] with:
    [time.sleep(interval)]. *)
Definition sleep_continuous (interval : Z) : option num :=
  Some (inject_Z interval).

(** [time.sleep(secs)] refuses a negative length. *)
Definition time_sleep (secs : num) : result unit :=
  if Qltb secs 0%Q then Raise ValueError else Ok tt.

(** The call of [time.sleep] after a tick, if one is made. *)
Definition nap_taken (nap : option num) : result unit :=
  match nap with
  | Some secs => time_sleep secs
  | None => Ok tt
  end.

Definition slept_for (s : option num) : num :=
  match s with
  | Some d => d
  | None => 0%Q
  end.

(** [while time.time() - start_time < duration]: the ticks performed
    while the world supplies them, with the samples collected.  A sleep
    that raises ends the loop after its tick; the exception is the one
    [ended] reads from the last tick. *)
Fixpoint fixed_loop (envs : list tick_env) (names : list string)
    (start_time duration : num) (interval : Z) (th : threshold_set)
    (now : num) (samples : list sample)
    : list sample * list tick_record :=
  match envs with
  | [] => (samples, [])
  | env :: rest =>
      if Qltb (now - start_time) duration then
        let s := tick true interval th samples (fetch env) names now in
        let after_work := (now + work env)%Q in
        let nap := sleep_fixed start_time duration interval after_work in
        let this := {| began := now; took := work env; slept := nap |} in
        match nap_taken nap with
        | Raise _ => ((samples ++ [s])%list, [this])
        | Ok _ =>
            let (all, trace) :=
              fixed_loop rest names start_time duration interval th
                (after_work + slept_for nap)%Q (samples ++ [s])%list in
            (all, this :: trace)
        end
      else (samples, [])
  end.

(** [while True], until the interrupt that ends the supply of ticks, or
    a sleep that raises. *)
Fixpoint continuous_loop (envs : list tick_env) (names : list string)
    (interval : Z) (th : threshold_set) (now : num) (samples : list sample)
    : list sample * list tick_record :=
  match envs with
  | [] => (samples, [])
  | env :: rest =>
      let s := tick false interval th samples (fetch env) names now in
      let after_work := (now + work env)%Q in
      let nap := sleep_continuous interval in
      let this := {| began := now; took := work env; slept := nap |} in
      match nap_taken nap with
      | Raise _ => ((samples ++ [s])%list, [this])
      | Ok _ =>
          let (all, trace) :=
            continuous_loop rest names interval th
              (after_work + slept_for nap)%Q (samples ++ [s])%list in
          (all, this :: trace)
      end
  end.

(** How a loop ended: what the sleep of its last tick did.  The sleeps
    before it returned, or the loop would have ended there. *)
Definition ended (trace : list tick_record) : result unit :=
  match rev trace with
  | [] => Ok tt
  | t :: _ => nap_taken (slept t)
  end.

(** ** Analysis at the end of a run *)

Inductive trend : Type :=
| insufficient_data
| stable
| increasing
| decreasing.

Definition trend_eqb (a b : trend) : bool :=
  match a, b with
  | insufficient_data, insufficient_data
  | stable, stable
  | increasing, increasing
  | decreasing, decreasing => true
  | _, _ => false
  end.

(** [sum(values)]: from 0, left to right, every addition rounded, as
    CPython adds floats up to version 3.11 (later versions compensate the
    rounding of the additions).  The values are doubles; an integer among
    them counts as the double it equals. *)
Definition sum (values : list num) : spec_float :=
  fold_left (fun total v => SFadd 53 1024 total (b64 v)) values (S754_zero false).

(** [sum(values) / len(values)]. *)
Definition average (values : list num) : spec_float :=
  SFdiv 53 1024 (sum values) (double (Z.of_nat (List.length values))).

(** The source's [change_pct] in double precision, on the two averages:
    IEEE-754 binary64 subtraction, division and multiplication. *)
Definition change_pct_double (first_avg second_avg : spec_float) : spec_float :=
  SFmul 53 1024 (SFdiv 53 1024 (SFsub 53 1024 second_avg first_avg) first_avg)
        (double 100).

(** [_calculate_trend]. *)
Definition _calculate_trend (values : list num) : trend :=
  if (List.length values <? 2)%nat then insufficient_data
  else
    let half := (List.length values / 2)%nat in
    let first_half := firstn half values in
    let second_half := skipn half values in
    match first_half, second_half with
    | [], _ | _, [] => stable
    | _, _ =>
        let first_avg := average first_half in
        let second_avg := average second_half in
        let change_pct :=
          if SFltb (double 0) first_avg
          then change_pct_double first_avg second_avg
          else double 0 in
        if SFltb (SFabs change_pct) (double 5) then stable
        else if SFltb (double 5) change_pct then increasing
        else decreasing
    end.

(** The dictionary [safe_stats] returns. *)
Record metric_stats : Type := {
  s_min : num;
  s_max : num;
  s_avg : num;
  s_trend : trend
}.

Definition minimum (values : list num) : num :=
  match values with
  | [] => 0%Q
  | v :: rest => fold_left (fun m x => if Qltb x m then x else m) rest v
  end.

Definition maximum (values : list num) : num :=
  match values with
  | [] => 0%Q
  | v :: rest => fold_left (fun m x => if Qltb m x then x else m) rest v
  end.

Definition safe_stats (values : list num) : metric_stats :=
  match values with
  | [] => {| s_min := 0%Q; s_max := 0%Q; s_avg := 0%Q; s_trend := stable |}
  | _ =>
      if forallb (fun v => Qeq_bool v 0%Q) values
      then {| s_min := 0%Q; s_max := 0%Q; s_avg := 0%Q; s_trend := stable |}
      else {| s_min := minimum values;
              s_max := maximum values;
              s_avg := rational (average values);
              s_trend := _calculate_trend values |}
  end.

(** The advisory texts. *)
Definition leak_advice : string :=
  "Memory usage is increasing - monitor for potential memory leaks".
Definition upsize_advice : string :=
  "High memory usage detected - consider increasing tier or optimizing processor".
Definition rightsize_advice : string :=
  "Low memory usage - processor may be over-provisioned".
Definition degradation_advice : string :=
  "Latency is increasing - check for performance degradation".
Definition high_latency_advice : string :=
  "High average latency - consider tier upgrade or optimization".
Definition bottleneck_advice : string :=
  "Throughput is decreasing - investigate potential bottlenecks".
Definition low_throughput_advice : string :=
  "Low throughput detected - verify data source and processing logic".
Definition healthy_advice : string :=
  "Processor performance appears healthy".

(** What [_generate_recommendations] reads of [stats]; a key may be
    absent ([stats.get(key, {})]). *)
Record stats_view : Type := {
  v_memory_mb : option metric_stats;
  v_latency_p99_ms : option metric_stats;
  v_throughput_per_sec : option metric_stats
}.

(** [m.get("trend") == t]. *)
Definition trend_is (m : option metric_stats) (t : trend) : bool :=
  match m with
  | Some s => trend_eqb (s_trend s) t
  | None => false
  end.

(** [m.get("max", 0)] and [m.get("avg", 0)]. *)
Definition max_of (m : option metric_stats) : num :=
  match m with
  | Some s => s_max s
  | None => 0%Q
  end.

Definition avg_of (m : option metric_stats) : num :=
  match m with
  | Some s => s_avg s
  | None => 0%Q
  end.

Definition _generate_recommendations (stats : stats_view) : list string :=
  let memory_stats := v_memory_mb stats in
  let latency_stats := v_latency_p99_ms stats in
  let throughput_stats := v_throughput_per_sec stats in
  let memory :=
    if trend_is memory_stats increasing then [leak_advice]
    else if Qltb 1000%Q (max_of memory_stats) then [upsize_advice]
    else if Qltb (avg_of memory_stats) 100%Q then [rightsize_advice]
    else [] in
  let latency :=
    if trend_is latency_stats increasing then [degradation_advice]
    else if Qltb 50%Q (avg_of latency_stats) then [high_latency_advice]
    else [] in
  let throughput :=
    if trend_is throughput_stats decreasing then [bottleneck_advice]
    else if Qltb (avg_of throughput_stats) 1%Q then [low_throughput_advice]
    else [] in
  match (memory ++ latency ++ throughput)%list with
  | [] => [healthy_advice]
  | recommendations => recommendations
  end.

(** The dictionary [_calculate_processor_stats] returns. *)
Record processor_stats : Type := {
  ps_memory_mb : metric_stats;
  ps_latency_p50_ms : metric_stats;
  ps_latency_p99_ms : metric_stats;
  ps_throughput_per_sec : metric_stats;
  ps_samples : nat;
  ps_recommendations : list string
}.

Definition _calculate_processor_stats (proc_data : list proc_sample)
    : processor_stats :=
  let memory := safe_stats (map memory_mb proc_data) in
  let p50 := safe_stats (map (fun p => (latency_p50_us p / 1000)%Q) proc_data) in
  let p99 := safe_stats (map (fun p => (latency_p99_us p / 1000)%Q) proc_data) in
  let rate := safe_stats (map throughput_per_sec proc_data) in
  {| ps_memory_mb := memory;
     ps_latency_p50_ms := p50;
     ps_latency_p99_ms := p99;
     ps_throughput_per_sec := rate;
     ps_samples := List.length proc_data;
     ps_recommendations :=
       _generate_recommendations
         {| v_memory_mb := Some memory;
            v_latency_p99_ms := Some p99;
            v_throughput_per_sec := Some rate |} |}.

Record profile_summary : Type := {
  start_time : num;
  end_time : num;
  duration_seconds : num;
  sample_count : nat;
  interval_seconds : Z
}.

(** The ["processors"] dictionary of the analysis, in insertion order. *)
Definition stats_table : Type := list (string * processor_stats).

(** [table[k] = v]. *)
Fixpoint assign (table : stats_table) (k : string) (v : processor_stats)
    : stats_table :=
  match table with
  | [] => [(k, v)]
  | (k', v') :: rest =>
      if String.eqb k' k then (k, v) :: rest else (k', v') :: assign rest k v
  end.

Definition keys (table : stats_table) : list string := map fst table.

Inductive analysis : Type :=
| NoSamples                              (* [{"error": "No samples collected"}] *)
| Profile (summary : profile_summary) (table : stats_table)
          (all_alerts : list alert).

(** [next((p for p in sample["processors"]
           if p["name"] == n and "error" not in p), None)]. *)
Definition find_sampled (n : string) (l : list entry) : option proc_sample :=
  match find (fun e => String.eqb (entry_name e) n && error_free e) l with
  | Some (Sampled p) => Some p
  | _ => None
  end.

(** [proc_data] for one name: its error-free entry in each sample that
    has one. *)
Fixpoint proc_data_of (n : string) (samples : list sample) : list proc_sample :=
  match samples with
  | [] => []
  | s :: rest =>
      match find_sampled n (processors s) with
      | Some p => p :: proc_data_of n rest
      | None => proc_data_of n rest
      end
  end.

(** The per-processor loop, over the names of the first sample's
    error-free entries. *)
Fixpoint per_processor (names : list string) (samples : list sample)
    (table : stats_table) : stats_table :=
  match names with
  | [] => table
  | n :: rest =>
      let proc_data := proc_data_of n samples in
      let table1 :=
        match proc_data with
        | [] => table
        | _ => assign table n (_calculate_processor_stats proc_data)
        end in
      per_processor rest samples table1
  end.

Definition _analyze_profile_data (samples : list sample) (duration : num)
    (interval : Z) : analysis :=
  match samples with
  | [] => NoSamples
  | first :: _ =>
      let summary :=
        {| start_time := timestamp first;
           end_time := timestamp (last samples first);
           duration_seconds := duration;
           sample_count := List.length samples;
           interval_seconds := interval |} in
      let all_alerts := flat_map alerts samples in
      let names := map entry_name (filter error_free (processors first)) in
      Profile summary (per_processor names samples []) all_alerts
  end.

(** The keys of the per-processor table of an analysis. *)
Definition analysed (a : analysis) : list string :=
  match a with
  | NoSamples => []
  | Profile _ table _ => keys table
  end.

(** [profile_processors], run against the ticks the world supplies.  An
    exception of [time.sleep] is not caught: the samples are lost. *)
Definition profile_processors (envs : list tick_env) (names : list string)
    (duration interval : Z) (th : threshold_set) (clock : num)
    : result analysis :=
  let (samples, trace) :=
    fixed_loop envs names clock (inject_Z duration) interval th clock [] in
  bind (ended trace)
    (fun _ => Ok (_analyze_profile_data samples (inject_Z duration) interval)).

(** [profile_processors_continuous], interrupted after the ticks the
    world supplies; [stopped] is the clock at the interrupt.  Only the
    interrupt is caught. *)
Definition profile_processors_continuous (envs : list tick_env)
    (names : list string) (interval : Z) (th : threshold_set)
    (clock stopped : num) : result analysis :=
  let (samples, trace) := continuous_loop envs names interval th clock [] in
  bind (ended trace)
    (fun _ => Ok (_analyze_profile_data samples (stopped - clock)%Q interval)).

(** ** Statements about the profiler *)

(** The seven rules in their listed order: the advisory, the metric it
    reads, and its condition. *)
Inductive metric : Type := Memory | Latency | Throughput.

Definition metric_eqb (a b : metric) : bool :=
  match a, b with
  | Memory, Memory | Latency, Latency | Throughput, Throughput => true
  | _, _ => false
  end.

Record rule : Type := {
  advice : string;
  about : metric;
  holds : stats_view -> bool
}.

Definition rules : list rule :=
  [ {| advice := leak_advice; about := Memory;
       holds := fun s => trend_is (v_memory_mb s) increasing |};
    {| advice := upsize_advice; about := Memory;
       holds := fun s => Qltb 1000%Q (max_of (v_memory_mb s)) |};
    {| advice := rightsize_advice; about := Memory;
       holds := fun s => Qltb (avg_of (v_memory_mb s)) 100%Q |};
    {| advice := degradation_advice; about := Latency;
       holds := fun s => trend_is (v_latency_p99_ms s) increasing |};
    {| advice := high_latency_advice; about := Latency;
       holds := fun s => Qltb 50%Q (avg_of (v_latency_p99_ms s)) |};
    {| advice := bottleneck_advice; about := Throughput;
       holds := fun s => trend_is (v_throughput_per_sec s) decreasing |};
    {| advice := low_throughput_advice; about := Throughput;
       holds := fun s => Qltb (avg_of (v_throughput_per_sec s)) 1%Q |} ].

Definition or_healthy (l : list string) : list string :=
  match l with
  | [] => [healthy_advice]
  | _ => l
  end.

(** The specification's reading: the rules are independent, every rule
    whose condition holds contributes, in the listed order. *)
Definition independent_rules (s : stats_view) : list string :=
  or_healthy (map advice (filter (fun r => holds r s) rules)).

(** The other reading: of the rules about one metric, only the first
    whose condition holds contributes. *)
Fixpoint first_per_metric (decided : list metric) (rs : list rule)
    (s : stats_view) : list string :=
  match rs with
  | [] => []
  | r :: rest =>
      if negb (existsb (metric_eqb (about r)) decided) && holds r s
      then advice r :: first_per_metric (about r :: decided) rest s
      else first_per_metric decided rest s
  end.

Definition grouped_rules (s : stats_view) : list string :=
  or_healthy (first_per_metric [] rules s).

(** Memory that grows and has passed the ceiling of 1000 MB. *)
Definition leaking_stats : stats_view :=
  {| v_memory_mb := Some {| s_min := 400; s_max := 2000; s_avg := 1200;
                            s_trend := increasing |};
     v_latency_p99_ms := Some {| s_min := 10; s_max := 20; s_avg := 15;
                                 s_trend := stable |};
     v_throughput_per_sec := Some {| s_min := 50; s_max := 60; s_avg := 55;
                                     s_trend := stable |} |}.

(** The average in exact arithmetic. *)
Definition exact_average (values : list num) : num :=
  (fold_left Qplus values 0 / inject_Z (Z.of_nat (List.length values)))%Q.

(** The relative change, in percent, of the second-half average with
    respect to the first-half average, in exact arithmetic. *)
Definition relative_change (values : list num) : num :=
  let half := (List.length values / 2)%nat in
  let first_avg := exact_average (firstn half values) in
  let second_avg := exact_average (skipn half values) in
  ((second_avg - first_avg) / first_avg * 100)%Q.

(** A tick that sleeps the interval less its own processing time, floored
    at zero. *)
Definition sleeps_rest_of_interval (interval : Z) (t : tick_record) : Prop :=
  (slept_for (slept t) == Qmax 0 (inject_Z interval - took t))%Q.

(** A world in which every tick finds nothing and takes three seconds. *)
Definition idle_tick : tick_env :=
  {| fetch := fun _ => FetchNothing; work := 3%Q |}.

Definition no_thresholds : threshold_set :=
  {| th_memory_mb := None; th_latency_p99_ms := None; th_throughput_min := None |}.

(** The sample has an error-free entry for the name. *)
Definition sampled_in (n : string) (s : sample) : Prop :=
  exists p, In (Sampled p) (processors s) /\ name p = n.

(** Statistics on which no rule fires. *)
Definition healthy_stats : stats_view :=
  {| v_memory_mb := Some {| s_min := 300; s_max := 320; s_avg := 310;
                            s_trend := stable |};
     v_latency_p99_ms := Some {| s_min := 10; s_max := 20; s_avg := 15;
                                 s_trend := stable |};
     v_throughput_per_sec := Some {| s_min := 50; s_max := 60; s_avg := 55;
                                     s_trend := stable |} |}.

(** A run in which the processor [late] is not found in the first tick
    and answers in every later one, while [steady] always answers. *)
Definition reply (input : num) : stats_reply :=
  {| memoryUsageBytes := 209715200; inputMessageCount := input;
     outputMessageCount := input; dlqMessageCount := 0;
     latency_p50 := 1500; latency_p99 := 9000;
     stateSize := 0; scaleFactor := 1 |}.

Definition first_tick_env : tick_env :=
  {| fetch := fun n => if String.eqb n "late" then FetchNothing
                       else Fetched (reply 100);
     work := 1 |}.

Definition later_tick_env (input : num) : tick_env :=
  {| fetch := fun _ => Fetched (reply input); work := 1 |}.

Definition late_run : list tick_env :=
  [first_tick_env; later_tick_env 200; later_tick_env 300].


(** ** Further statements about the profiler *)

(** The entry of the sample for the name, if any, records an error. *)
Definition failed_in (n : string) (s : sample) : Prop :=
  exists m e, find_named n (processors s) = Some (Failed m e).

(** The samples a loop added to the ones it started with. *)
Definition added (before : list sample) (after : list sample) : list sample :=
  skipn (List.length before) after.

(** A world in which the first fetch for [steady] raises and every later
    one answers. *)
Definition failing_tick_env : tick_env :=
  {| fetch := fun _ => FetchRaises OSError; work := 1 |}.

Definition broken_run : list tick_env :=
  [failing_tick_env; later_tick_env 200; later_tick_env 300].

(** A floor of ten messages per second, nothing else. *)
Definition throughput_floor : threshold_set :=
  {| th_memory_mb := None; th_latency_p99_ms := None; th_throughput_min := Some 10%Q |}.


(** The reported extremes bound the values they summarise, and are
    values of the series. *)
Definition summarises (m : metric_stats) (values : list num) : Prop :=
  (forall v, In v values -> (s_min m <= v)%Q /\ (v <= s_max m)%Q) /\
  (values <> [] ->
   (exists v, In v values /\ (v == s_min m)%Q) /\
   (exists v, In v values /\ (v == s_max m)%Q)).

(** Three samples of a processor for which the API reports no memory
    figure. *)
Definition unmetered (input : num) : proc_sample :=
  {| name := "steady"; memory_mb := 0; input_count := input; output_count := input;
     latency_p50_us := 1500; latency_p99_us := 9000;
     throughput_per_sec := 10; extras := None |}.

End Profiler.

(* ===================================================================== *)
(** * Starting a processor on a tier
      ([AtlasStreamProcessingAPI.start_processor]) *)
(* ===================================================================== *)

Module Starter.
Import Py TierError.

(** What [requests.post] gives back: a response, or a
    [requests.RequestException] raised before there is one. *)
Record response : Type := { status_code : Z; text : string }.

Inductive reply : Type :=
| NoResponse (message : string)
| Replies (r : response).

(** The two endpoints the function posts to: [:startWith] with a tier in
    the body, and [:start]. *)
Inductive request : Type :=
| StartWith (tier : string)
| Start.

(** The [requests.RequestException] the [except] clause catches: one
    raised by [requests.post], or the [HTTPError] of
    [response.raise_for_status()], which carries the response. *)
Inductive failure : Type :=
| Transport (message : string)
| HTTPError (r : response).

(** [getattr(e.response, 'status_code', None)]. *)
Definition http_code (e : failure) : option Z :=
  match e with
  | Transport _ => None
  | HTTPError r => Some (status_code r)
  end.

(** The dictionary returned: ["status": "started"] with its message and
    tier, or ["status": "failed"] with the exception ([str(e)], extended by
    the response text, is the message, [http_code e] the code). *)
Inductive start_result : Type :=
| Started (name message tier : string)
| StartFailed (name : string) (e : failure).

(** [response.raise_for_status()] raises for the 4xx and 5xx codes. *)
Definition is_error (r : response) : bool :=
  (400 <=? status_code r) && (status_code r <? 600).

(** The regular start: the [:start] endpoint, which starts the processor
    on its current tier. *)
Definition regular_start (world : request -> reply) (processor_name : string)
    (tier_given : bool) : start_result :=
  match world Start with
  | NoResponse m => StartFailed processor_name (Transport m)
  | Replies r =>
      if is_error r then StartFailed processor_name (HTTPError r)
      else
        Started processor_name
          (if tier_given
           then "Started successfully (using default tier - tier specification failed)"
           else "Started successfully")
          "current"
  end.

(** [if suggested_tier and suggested_tier != tier]. *)
Definition worth_a_retry (suggested_tier : option string) (tier : string)
    : option string :=
  match suggested_tier with
  | Some s =>
      if negb (String.eqb s EmptyString) && negb (String.eqb s tier)
      then Some s else None
  | None => None
  end.

(** [start_processor]: [base_url] is what [__init__] derived from the
    configuration, [world] answers the requests.  The progress lines it
    prints are not modelled. *)
Definition start_processor (base_url : option string) (world : request -> reply)
    (processor_name : string) (tier : option string) : result start_result :=
  match base_url with
  | None | Some EmptyString => Raise ValueError   (* [_check_workspace_required] *)
  | Some _ =>
      match tier with
      | None | Some EmptyString => Ok (regular_start world processor_name false)
      | Some tier =>
          match world (StartWith tier) with
          | NoResponse m => Ok (StartFailed processor_name (Transport m))
          | Replies response =>
              if status_code response =? 200 then
                Ok (Started processor_name
                      ("Started successfully on tier " ++ tier) tier)
              else if status_code response =? 400 then
                suggested_tier <- _parse_tier_validation_error (text response) ;;
                match worth_a_retry suggested_tier tier with
                | Some suggested_tier =>
                    match world (StartWith suggested_tier) with
                    | NoResponse m => Ok (StartFailed processor_name (Transport m))
                    | Replies retry_response =>
                        if status_code retry_response =? 200 then
                          Ok (Started processor_name
                                ("Started successfully on tier " ++ suggested_tier
                                 ++ " (upgraded from " ++ tier ++ ")")
                                suggested_tier)
                        else Ok (regular_start world processor_name true)
                    end
                | None => Ok (regular_start world processor_name true)
                end
              else if is_error response then
                Ok (StartFailed processor_name (HTTPError response))
              else Ok (regular_start world processor_name true)
          end
      end
  end.

(** ** Statements about starting *)

(** The API accepted the request. *)
Definition accepted (world : request -> reply) (q : request) : Prop :=
  exists r, world q = Replies r /\ is_error r = false.

(** The API answered the request with 200. *)
Definition answered_200 (world : request -> reply) (q : request) : Prop :=
  exists r, world q = Replies r /\ status_code r = 200.

(** A control plane that rejects SP10 for a workload needing SP30 and
    accepts SP30. *)
Definition upgrading_world (q : request) : reply :=
  match q with
  | StartWith tier =>
      if String.eqb tier "SP30" then Replies {| status_code := 200; text := "{}" |}
      else Replies {| status_code := 400;
                      text := "Error 400: " ++ sp30_phrase |}
  | Start => Replies {| status_code := 200; text := "{}" |}
  end.


(** [base_url] is set: a workspace is configured. *)
Definition configured (base_url : option string) : Prop :=
  exists a u, base_url = Some (String a u).

(** [tier] is given: a non-empty text. *)
Definition given (tier : option string) (t : string) : Prop :=
  tier = Some t /\ t <> EmptyString.

End Starter.

(* ===================================================================== *)
(** * Placeholders ([AtlasStreamProcessingAPI._substitute_variables]) *)
(* ===================================================================== *)

Module Placeholders.
Import Py.

(** [self.config]: names and values, in insertion order. *)
Definition config : Type := list (string * string).

Fixpoint config_get (c : config) (k : string) : option string :=
  match c with
  | [] => None
  | (k', v) :: c' => if String.eqb k' k then Some v else config_get c' k
  end.

Definition dollar : ascii := "$"%char.
Definition open_brace : ascii := "{"%char.
Definition close_brace : ascii := "}"%char.

(** The text up to the first closing brace, and the text after it. *)
Fixpoint until_brace (s : string) : option (string * string) :=
  match s with
  | EmptyString => None
  | String c t =>
      if Ascii.eqb c close_brace then Some (EmptyString, t)
      else match until_brace t with
           | Some (n, rest) => Some (String c n, rest)
           | None => None
           end
  end.

(** The pattern [\$\{([^}]+)\}] tried at the start of [s]: the group.
    The greedy class stops at the first closing brace. *)
Definition placeholder (s : string) : option string :=
  match s with
  | String c1 (String c2 t) =>
      if Ascii.eqb c1 dollar && Ascii.eqb c2 open_brace then
        match until_brace t with
        | Some (String a n, _) => Some (String a n)
        | _ => None
        end
      else None
  | _ => None
  end.

(** [match.group(0)]. *)
Definition whole (var_name : string) : string :=
  String dollar (String open_brace (var_name ++ String close_brace EmptyString)).

(** [replace_var]. *)
Definition replace_var (c : config) (var_name : string) : string :=
  match config_get c var_name with
  | Some v => v
  | None => whole var_name
  end.

(** [re.sub] with that pattern: the matches are taken left to right and
    do not overlap; [skip] counts the characters of the last match that
    are still to be passed over. *)
Fixpoint substitute_from (c : config) (s : string) (skip : nat) : string :=
  match s with
  | EmptyString => EmptyString
  | String a t =>
      match skip with
      | S k => substitute_from c t k
      | O =>
          match placeholder s with
          | Some var_name =>
              replace_var c var_name
              ++ substitute_from c t (String.length var_name + 2)
          | None => String a (substitute_from c t 0)
          end
      end
  end.

Definition _substitute_variables (c : config) (text : string) : string :=
  substitute_from c text 0.

(** ** Statements about placeholders *)

(** [s] without its first [n] characters. *)
Fixpoint drop (n : nat) (s : string) : string :=
  match n, s with
  | S k, String _ t => drop k t
  | _, _ => s
  end.

End Placeholders.

(* ===================================================================== *)
(** * The runner: every processor file, and the exit code

    [tests/test_runner.py], [validate_all_processors] and [main].  The
    directory listing, the files' contents and the connection names are
    inputs; what is printed is returned with the status passed to
    [sys.exit]. *)
(* ===================================================================== *)

Module Runner.
Import Py Validator.

(** A file of the [processors] directory as [validate_processor_file]
    meets it: [connections] is what [load_valid_connections()] returns
    while this file is validated. *)
Record processor_file : Type := {
  path : string;
  stem : string;
  content : result value;
  connections : list string
}.


(** The dictionary [results]. *)
Record results : Type := {
  total : Z;
  n_valid : Z;
  n_invalid : Z;
  files : list outcome
}.


(** The command line: [-p name], with the file when it exists, or no
    option, with the files of the directory. *)
Inductive invocation : Type :=
| OneProcessor (name : string) (found : option processor_file)
| AllProcessors (processor_files : list processor_file).

(** What [main] prints: the error result for a missing file, or the
    report. *)
Record report : Type := {
  success : bool;
  summary : results;
  processor : option string
}.




(** ** Statements about the runner *)

(** The files a run validates. *)
Definition checked (inv : invocation) : list processor_file :=
  match inv with
  | OneProcessor _ None => []
  | OneProcessor _ (Some f) => [f]
  | AllProcessors processor_files => processor_files
  end.



End Runner.

(* ===================================================================== *)
(** * The test suite's connection checks

    [tests/test_processors.py], [ProcessorValidationTests]:
    [test_source_connections_exist], [test_merge_connections_exist],
    [test_dlq_connections_exist] and the connection check of
    [test_emit_stage_structure].  Each test visits every processor file in
    a sub-test of its own; the definitions are the body of one sub-test,
    on the file's name and content and the names
    [_load_connections()] returned. *)
(* ===================================================================== *)

Module Suite.
Import Py Validator.

(** How a sub-test ends: it passes, an assert method fails it with a
    message, or another exception is raised in it. *)
Inductive run (A : Type) : Type :=
| Done (a : A)
| Failed (message : string)
| Raised (e : exn).

Arguments Done {A} a.
Arguments Failed {A} message.
Arguments Raised {A} e.

Definition tbind {A B : Type} (c : run A) (k : A -> run B) : run B :=
  match c with
  | Done a => k a
  | Failed message => Failed message
  | Raised e => Raised e
  end.

Declare Scope suite_scope.
Notation "x <- c ;; k" := (tbind c (fun x => k))
  (at level 61, c at next level, right associativity) : suite_scope.
Local Open Scope suite_scope.

Definition py {A : Type} (r : result A) : run A :=
  match r with
  | Ok a => Done a
  | Raise e => Raised e
  end.

Definition when (b : bool) (c : run unit) : run unit :=
  if b then c else Done tt.

(** [str(self.valid_connections)]. *)
Definition listed (valid_connections : list string) : string :=
  repr (VList (map VStr valid_connections)).

(** [self.assertIn(member, self.valid_connections, msg)].  The failure
    carries unittest's own text, then [msg]. *)
Definition assertIn (member : value) (valid_connections : list string)
    (msg : string) : run unit :=
  if known valid_connections member then Done tt
  else Failed (repr member ++ " not found in " ++ listed valid_connections
               ++ " : " ++ msg).

(** [f"{proc_file.name}: Unknown connection '{conn_name}'<place>"]. *)
Definition unknown_connection (file_name : string) (conn_name : value)
    (place : string) : string :=
  file_name ++ ": Unknown connection '" ++ str conn_name ++ "'" ++ place.

Definition and_valid (valid_connections : list string) : string :=
  ". Valid connections: " ++ listed valid_connections.

(** The loop body of [test_source_connections_exist]. *)
Definition source_stage (file_name : string) (valid_connections : list string)
    (stage : value) : run unit :=
  has_source <- py (py_in "$source" stage) ;;
  when has_source
    (source <- py (getitem stage "$source") ;;
     has_name <- py (py_in "connectionName" source) ;;
     when has_name
       (conn_name <- py (getitem source "connectionName") ;;
        assertIn conn_name valid_connections
          (unknown_connection file_name conn_name
             (and_valid valid_connections)))).

(** The loop body of [test_merge_connections_exist]. *)
Definition merge_stage (file_name : string) (valid_connections : list string)
    (stage : value) : run unit :=
  has_merge <- py (py_in "$merge" stage) ;;
  when has_merge
    (merge <- py (getitem stage "$merge") ;;
     has_into <- py (py_in "into" merge) ;;
     when has_into
       (into <- py (getitem merge "into") ;;
        has_name <- py (py_in "connectionName" into) ;;
        when has_name
          (conn_name <- py (getitem into "connectionName") ;;
           assertIn conn_name valid_connections
             (unknown_connection file_name conn_name
                (" in $merge stage" ++ and_valid valid_connections))))).

(** The connection check in the loop body of
    [test_emit_stage_structure], [i] being the stage's position. *)
Definition emit_stage (file_name : string) (valid_connections : list string)
    (i : Z) (stage : value) : run unit :=
  has_emit <- py (py_in "$emit" stage) ;;
  when has_emit
    (emit <- py (getitem stage "$emit") ;;
     when (is_dict emit)
       (has_name <- py (py_in "connectionName" emit) ;;
        when has_name
          (conn_name <- py (getitem emit "connectionName") ;;
           assertIn conn_name valid_connections
             (unknown_connection file_name conn_name
                (" in $emit stage at position " ++ str_of_Z i))))).

(** [for i, stage in enumerate(pipeline): body], from position [i]. *)
Fixpoint each (body : Z -> value -> run unit) (i : Z) (stages : list value)
    : run unit :=
  match stages with
  | [] => Done tt
  | stage :: rest => _ <- body i stage ;; each body (i + 1) rest
  end.

(** [processor = json.load(f); pipeline = processor.get("pipeline", [])],
    then the loop. *)
Definition over_pipeline (body : Z -> value -> run unit)
    (content : result value) : run unit :=
  processor <- py content ;;
  pipeline <- py (get processor "pipeline" (VList [])) ;;
  stages <- py (iterate pipeline) ;;
  each body 0 stages.

Definition test_source_connections_exist (file_name : string)
    (content : result value) (valid_connections : list string) : run unit :=
  over_pipeline (fun _ => source_stage file_name valid_connections) content.

Definition test_merge_connections_exist (file_name : string)
    (content : result value) (valid_connections : list string) : run unit :=
  over_pipeline (fun _ => merge_stage file_name valid_connections) content.

Definition test_emit_stage_structure (file_name : string)
    (content : result value) (valid_connections : list string) : run unit :=
  over_pipeline (emit_stage file_name valid_connections) content.

Definition test_dlq_connections_exist (file_name : string)
    (content : result value) (valid_connections : list string) : run unit :=
  processor <- py content ;;
  options <- py (get processor "options" (VDict [])) ;;
  has_dlq <- py (py_in "dlq" options) ;;
  when has_dlq
    (dlq <- py (getitem options "dlq") ;;
     has_name <- py (py_in "connectionName" dlq) ;;
     when has_name
       (conn_name <- py (getitem dlq "connectionName") ;;
        assertIn conn_name valid_connections
          (unknown_connection file_name conn_name
             (" in DLQ options" ++ and_valid valid_connections)))).

(** ** Statements about the suite *)

(** The connection the stage's [$source] names, if it is a mapping that
    names one. *)
Definition source_connection (stage : value) : option value :=
  match stage with
  | VDict d =>
      match dict_get d "$source" with
      | Some (VDict cfg) => dict_get cfg "connectionName"
      | _ => None
      end
  | _ => None
  end.

(** The connection the [into] mapping of the stage's [$merge] names. *)
Definition merge_connection (stage : value) : option value :=
  match stage with
  | VDict d =>
      match dict_get d "$merge" with
      | Some (VDict cfg) =>
          match dict_get cfg "into" with
          | Some (VDict into) => dict_get into "connectionName"
          | _ => None
          end
      | _ => None
      end
  | _ => None
  end.

(** The connection the stage's [$emit] names, if it is a mapping that
    names one. *)
Definition emit_connection (stage : value) : option value :=
  match stage with
  | VDict d =>
      match dict_get d "$emit" with
      | Some (VDict cfg) => dict_get cfg "connectionName"
      | _ => None
      end
  | _ => None
  end.

(** The connection the dead-letter queue of the processor's [options]
    names. *)
Definition dlq_connection (processor : dict) : option value :=
  match dict_get processor "options" with
  | Some (VDict options) =>
      match dict_get options "dlq" with
      | Some (VDict dlq) => dict_get dlq "connectionName"
      | _ => None
      end
  | _ => None
  end.

(** A stage the loops can read: a mapping in which a [$source] and a
    [$merge], where present, are configured by mappings, and so is the
    [into] of the [$merge]. *)
Definition readable (stage : value) : bool :=
  stage_ok stage &&
  match stage with
  | VDict d =>
      match dict_get d "$merge" with
      | Some (VDict cfg) => mapping_if_any (dict_get cfg "into")
      | _ => true
      end
  | _ => false
  end.

(** The text of the failure for a connection that is not known. *)
Definition failure (file_name : string) (conn_name : value) (place : string)
    (valid_connections : list string) : string :=
  repr conn_name ++ " not found in " ++ listed valid_connections ++ " : "
  ++ unknown_connection file_name conn_name place.

(** What the check of a connection name comes to, [named] being the name
    a stage or the options hold, if any. *)
Definition checked (file_name : string) (valid_connections : list string)
    (named : option value) (place : string) : run unit :=
  match named with
  | None => Done tt
  | Some conn_name =>
      if known valid_connections conn_name then Done tt
      else Failed (failure file_name conn_name place valid_connections)
  end.

(** [unknown_source_processor] with a dead-letter queue on the unknown
    connection and a merge into it. *)
Definition unknown_everywhere : dict :=
  [("name", VStr "solar");
   ("pipeline",
    VList [VDict [("$source", VDict [("connectionName", VStr "X")])];
           VDict [("$merge",
                   VDict [("into", VDict [("connectionName", VStr "X");
                                          ("db", VStr "solar");
                                          ("coll", VStr "totals")])])]]);
   ("options", VDict [("dlq", VDict [("connectionName", VStr "X");
                                     ("db", VStr "solar");
                                     ("coll", VStr "dlq")])])].

End Suite.

(* ===================================================================== *)
(** * Properties of the scorer *)
(* ===================================================================== *)

Section ScorerFacts.
Import Py Scorer.

Lemma sound_acc0 : sound acc0.
Proof. unfold sound, acc0; simpl; lia. Qed.

Lemma sound_add_factor (w : Z) (text : string) (a : acc) :
  0 <= w -> sound a -> sound (add_factor w text a).
Proof. unfold sound, add_factor; simpl; lia. Qed.

Lemma sound_add_connection (a : acc) : sound a -> sound (add_connection a).
Proof. unfold sound, add_connection; simpl; lia. Qed.

Lemma sound_check_operations (stage_name text : string) (ops : list (string * Z * string)) :
  Forall (fun op => 0 <= snd (fst op)) ops ->
  forall a, sound a -> sound (fold_left (check_operation stage_name text) ops a).
Proof.
  induction 1 as [| [[token w] label] ops Hw _ IH]; intros a Ha; simpl.
  - exact Ha.
  - apply IH. destruct (contains token text).
    + apply sound_add_factor; [exact Hw | exact Ha].
    + exact Ha.
Qed.

Lemma complex_operations_weights :
  Forall (fun op => 0 <= snd (fst op)) complex_operations.
Proof. unfold complex_operations; repeat constructor; simpl; lia. Qed.

Lemma sound_count_parallelism (stage_name place : string) (v : value) (a a' : acc) :
  sound a -> count_parallelism stage_name place v a = Ok a' -> sound a'.
Proof.
  unfold count_parallelism, bind. intros Ha.
  destruct (to_int v) as [p |]; [| discriminate].
  destruct (Z.gtb_spec p 1) as [Hp | Hp]; intros [= <-].
  - unfold sound in *; simpl; lia.
  - exact Ha.
Qed.

Lemma sound_parallelism_in (stage_name place : string) (cfg : dict) (a a' : acc) :
  sound a -> parallelism_in stage_name place cfg a = Ok a' -> sound a'.
Proof.
  unfold parallelism_in. intros Ha.
  destruct (dict_get cfg "parallelism") as [v |].
  - destruct (is_number v).
    + now apply sound_count_parallelism.
    + now intros [= <-].
  - now intros [= <-].
Qed.

Lemma sound_scan_item (stage_name fk : string) (item : string * value) (a a' : acc) :
  sound a -> scan_item stage_name fk a item = Ok a' -> sound a'.
Proof.
  destruct item as [key v]. unfold scan_item. intros Ha.
  destruct (String.eqb key "parallelism" && is_number v).
  - now apply sound_count_parallelism.
  - destruct v as [| | | | | | cfg]; try (now intros [= <-]).
    unfold bind.
    destruct (parallelism_in stage_name key cfg a) as [a1 |] eqn:E1; [| discriminate].
    pose proof (sound_parallelism_in _ _ _ _ _ Ha E1) as Ha1.
    destruct (dict_get cfg "into") as [[| | | | | | into_config] |];
      try (now intros [= <-]).
    now apply sound_parallelism_in.
Qed.

Lemma sound_scan_items (stage_name fk : string) (items : dict) :
  forall a a', sound a -> scan_items stage_name fk items a = Ok a' -> sound a'.
Proof.
  induction items as [| item rest IH]; intros a a' Ha; simpl.
  - now intros [= <-].
  - unfold bind.
    destruct (scan_item stage_name fk a item) as [a1 |] eqn:E; [| discriminate].
    apply IH. now apply (sound_scan_item _ _ _ _ _ Ha E).
Qed.

Lemma sound_score_stage (i : nat) (stage : value) (a a' : acc) :
  sound a -> score_stage i stage a = Ok a' -> sound a'.
Proof.
  unfold score_stage, bind. intros Ha.
  set (stage_name := "Stage " ++ str_of_Z (Z.of_nat i + 1)).
  pose proof (sound_check_operations stage_name (str stage) _
                complex_operations_weights a Ha) as H1.
  set (a1 := fold_left _ _ a) in *.
  destruct (py_in "$source" stage) as [hs |]; [| discriminate].
  assert (H2 : sound (if hs then add_connection a1 else a1))
    by (destruct hs; [now apply sound_add_connection | exact H1]).
  set (a2 := if hs then _ else _) in *.
  destruct (py_in "$merge" stage) as [hm |]; [| discriminate].
  assert (H3 : sound (if hm then add_connection a2 else a2))
    by (destruct hm; [now apply sound_add_connection | exact H2]).
  set (a3 := if hm then _ else _) in *.
  destruct (match stage with VDict d => _ | _ => Ok a3 end) as [a4 |] eqn:E4;
    [| discriminate].
  assert (H4 : sound a4).
  { destruct stage; try (injection E4 as <-; exact H3).
    now apply (sound_scan_items _ _ _ _ _ H3 E4). }
  intros [= <-].
  destruct (contains "kafka" (lower (str stage))).
  - apply sound_add_factor; [lia | exact H4].
  - exact H4.
Qed.

Lemma sound_score_stages (stages : list value) :
  forall i a a', sound a -> score_stages i stages a = Ok a' -> sound a'.
Proof.
  induction stages as [| stage rest IH]; intros i a a' Ha; simpl.
  - now intros [= <-].
  - unfold bind.
    destruct (score_stage i stage a) as [a1 |] eqn:E; [| discriminate].
    apply IH. now apply (sound_score_stage _ _ _ _ Ha E).
Qed.

Lemma sound_length_factor (n : Z) (a : acc) : sound a -> sound (length_factor n a).
Proof.
  intros Ha. unfold length_factor.
  destruct (n >? 8); [apply sound_add_factor; [lia | exact Ha] |].
  destruct (n >? 5); [apply sound_add_factor; [lia | exact Ha] |].
  destruct (n >? 3); [apply sound_add_factor; [lia | exact Ha] | exact Ha].
Qed.

Lemma sound_connection_factor (a : acc) : sound a -> sound (connection_factor a).
Proof.
  intros Ha. unfold connection_factor.
  destruct (connections_count a >? 4); [apply sound_add_factor; [lia | exact Ha] |].
  destruct (connections_count a >? 2); [apply sound_add_factor; [lia | exact Ha] | exact Ha].
Qed.

(** A full report comes from [build_report] on a sound walk. *)
Lemma analysed_report (file : local_file) (api : api_reply) (r : report) (d : details) :
  analyze_processor_complexity_detailed file api = Ok r ->
  analysis r = Analysis d ->
  exists n walked, sound walked /\ r = build_report n walked.
Proof.
  unfold analyze_processor_complexity_detailed.
  destruct (analyze_body file api) as [r0 |] eqn:E.
  2:{ intros [= <-]; discriminate. }
  intros [= <-] Hd. revert E. unfold analyze_body, bind.
  destruct (load_processor_data file api) as [[data |] |]; try discriminate.
  2:{ intros [= <-]; discriminate. }
  destruct (negb (truthy data)).
  { intros [= <-]; discriminate. }
  destruct (get data "pipeline" (VList [])) as [pipeline |]; [| discriminate].
  unfold score_pipeline, bind.
  destruct (iterate pipeline) as [stages |]; [| discriminate].
  destruct (score_stages 0 stages acc0) as [walked |] eqn:W; [| discriminate].
  destruct (len pipeline) as [n |]; [| discriminate].
  intros [= <-]. exists n, walked. split; [| reflexivity].
  exact (sound_score_stages _ _ _ _ sound_acc0 W).
Qed.

End ScorerFacts.

Section ScorerTheorems.
Import Py Scorer.

(** The fields of a report built from a walk. *)
Lemma build_report_fields (n : Z) (walked : acc) :
  let a := connection_factor (length_factor n walked) in
  build_report n walked =
  {| recommended_tier :=
       final_tier (fst (complexity_tier (complexity_score a)))
                  (min_tier_from_parallelism (total_parallelism a));
     analysis := analysis (build_report n walked);
     reasoning := reasoning (build_report n walked) |} /\
  analysis (build_report n walked) =
  Analysis
    {| d_total_parallelism := total_parallelism a;
       d_complexity_score := complexity_score a;
       d_pipeline_stages := n;
       d_connections_count := connections_count a;
       d_complexity_tier := fst (complexity_tier (complexity_score a));
       d_parallelism_tier := min_tier_from_parallelism (total_parallelism a);
       d_parallelism_details := parallelism_details a;
       d_complexity_factors := complexity_factors a |}.
Proof.
  intros a. unfold build_report. fold a.
  destruct (complexity_tier (complexity_score a)) as [t reason]; simpl.
  destruct (decisive t _); split; reflexivity.
Qed.

(** C1 (as stated, refuted): on the scenario pipeline the scorer reports
    75 points, not 70, and the complexity tier SP30 is not the parallelism
    tier SP10. *)
Lemma C1_scenario_expectation_fails :
  exists r d,
    analyze_processor_complexity_detailed
      (FileHolds scenario_processor) RequestFails = Ok r /\
    analysis r = Analysis d /\
    d_complexity_score d = 75 /\
    d_complexity_tier d = SP30 /\
    d_parallelism_tier d = SP10 /\
    ~ scenario_expectation r.
Proof.
  eexists. eexists. split; [vm_compute; reflexivity |].
  split; [reflexivity |]. split; [reflexivity |].
  split; [reflexivity |]. split; [reflexivity |].
  intros (d & Hd & Hscore & _). simpl in Hd.
  injection Hd as <-. simpl in Hscore. discriminate.
Qed.

(** The operator checks of a stage whose text holds none of the tokens,
    only [$group], or only [$sort]. *)
Lemma checks_of_text (present : list string) (stage : value) (stage_name : string)
    (a : acc) :
  text_holds present stage ->
  fold_left (check_operation stage_name (str stage)) complex_operations a =
  fold_left (fun a op =>
               if existsb (String.eqb (fst (fst op))) present
               then add_factor (snd (fst op))
                      (factor_text stage_name (snd op) (snd (fst op))) a
               else a) complex_operations a.
Proof.
  intros [H _]. unfold complex_operations, fold_left, check_operation.
  rewrite !H by (unfold tokens, complex_operations; simpl; tauto).
  reflexivity.
Qed.

(** One stage of the walk: its operator checks by [checks_of_text], its
    kafka check, and the lookups on its single operator key. *)
Ltac score_one H :=
  unfold score_stage at 1;
  rewrite (checks_of_text _ _ _ _ H);
  let K := fresh "K" in
  destruct H as [_ K]; rewrite K; clear K;
  cbn [py_in dict_has dict_get String.eqb Ascii.eqb Bool.eqb bind first_key
       scan_items scan_item andb is_number].

(** C1 (amended): a pipeline of a source stage, a grouping stage, a sort
    stage and a merge stage with [parallelism: 9] inside its [into]
    mapping, whose stage texts hold no other operator token and no
    mention of kafka and whose configurations set no other parallelism,
    scores 15 + 10 + 45 + 5 = 75, the 5 being the length factor of a
    four-stage pipeline (the connection count, 2, adds nothing); total
    parallelism is 8; the complexity tier is SP30, the parallelism tier
    SP10, the recommended tier SP30, and the reasoning is complexity-driven
    because the complexity index 3 is at least the parallelism index 2. *)
Theorem C1_scenario_report
    (processor src grp srt mrg into : dict) (api : api_reply) :
  dict_get processor "pipeline" = Some (four_stages src grp srt mrg) ->
  text_holds [] (VDict [("$source", VDict src)]) ->
  text_holds ["$group"] (VDict [("$group", VDict grp)]) ->
  text_holds ["$sort"] (VDict [("$sort", VDict srt)]) ->
  text_holds [] (VDict [("$merge", VDict mrg)]) ->
  no_parallelism src -> no_parallelism grp -> no_parallelism srt ->
  dict_get mrg "parallelism" = None ->
  dict_get mrg "into" = Some (VDict into) ->
  dict_get into "parallelism" = Some (VInt 9) ->
  analyze_processor_complexity_detailed (FileHolds (VDict processor)) api
    = Ok scenario_report /\
  index tier_hierarchy SP30 = 3%nat /\
  index tier_hierarchy SP10 = 2%nat /\
  decisive SP30 SP10 = ComplexityDriven.
Proof.
  intros Hp H1 H2 H3 H4 [Ps Is] [Pg Ig] [Pt It] Pm Im Pi.
  split; [| repeat split].
  unfold analyze_processor_complexity_detailed, analyze_body.
  cbn [load_processor_data bind].
  assert (Ht : truthy (VDict processor) = true)
    by (destruct processor; [discriminate | reflexivity]).
  rewrite Ht. cbn [negb]. unfold get. rewrite Hp.
  unfold score_pipeline, four_stages. cbn [iterate bind len List.length].
  cbn [score_stages].
  score_one H1. unfold parallelism_in at 1. rewrite Ps, Is. cbn [bind].
  score_one H2. unfold parallelism_in at 1. rewrite Pg, Ig. cbn [bind].
  score_one H3. unfold parallelism_in at 1. rewrite Pt, It. cbn [bind].
  score_one H4. unfold parallelism_in. rewrite Pm, Im, Pi.
  vm_compute. reflexivity.
Qed.

(** The scenario pipeline itself. *)
Lemma C1_witness :
  analyze_processor_complexity_detailed (FileHolds scenario_processor) RequestFails
    = Ok scenario_report /\
  index tier_hierarchy SP30 = 3%nat /\
  index tier_hierarchy SP10 = 2%nat /\
  decisive SP30 SP10 = ComplexityDriven.
Proof.
  refine (C1_scenario_report scenario_document
            [("connectionName", VStr "sample_stream_solar")]
            [("_id", VStr "$device_id"); ("total", VDict [("$sum", VInt 1)])]
            [("total", VInt (-1))]
            [("into", VDict [("connectionName", VStr "Cluster01");
                             ("db", VStr "solar"); ("coll", VStr "totals");
                             ("parallelism", VInt 9)])]
            [("connectionName", VStr "Cluster01");
             ("db", VStr "solar"); ("coll", VStr "totals");
             ("parallelism", VInt 9)]
            RequestFails _ _ _ _ _ _ _ _ _ _ _);
    try reflexivity;
    try (split; reflexivity);
    (split; [intros tok Htok; unfold tokens in Htok; simpl in Htok;
             repeat (destruct Htok as [<- | Htok]; [vm_compute; reflexivity |]);
             contradiction
            | vm_compute; reflexivity]).
Defined.

(** C5: a pipeline scored below 10 with total parallelism at most 1 is
    given the lowest tier, SP2.  (Each counted parallelism setting adds at
    least 10 points, so below 10 points the total parallelism is 0.) *)
Theorem C5_simple_pipeline_gets_SP2
    (file : local_file) (api : api_reply) (r : report) (d : details) :
  analyze_processor_complexity_detailed file api = Ok r ->
  analysis r = Analysis d ->
  d_complexity_score d < 10 ->
  d_total_parallelism d <= 1 ->
  recommended_tier r = SP2 /\ index tier_hierarchy SP2 = 0%nat.
Proof.
  intros Hr Hd Hscore Hpar. split; [| reflexivity].
  destruct (analysed_report _ _ _ _ Hr Hd) as (n & walked & Hsound & ->).
  pose proof (sound_connection_factor _ (sound_length_factor n _ Hsound)) as Ha.
  destruct (build_report_fields n walked) as [Hrep Han].
  set (a := connection_factor (length_factor n walked)) in *.
  rewrite Han in Hd. injection Hd as <-. simpl in Hscore, Hpar.
  rewrite Hrep. simpl.
  destruct Ha as (H0 & Hp0 & Hp1).
  assert (Hzero : total_parallelism a = 0) by lia.
  rewrite Hzero.
  unfold complexity_tier.
  replace (complexity_score a >=? 80) with false by lia.
  replace (complexity_score a >=? 50) with false by lia.
  replace (complexity_score a >=? 25) with false by lia.
  replace (complexity_score a >=? 10) with false by lia.
  reflexivity.
Qed.

(** [bare_processor] scores 0. *)
Lemma C5_witness :
  exists r d,
    analyze_processor_complexity_detailed (FileHolds bare_processor) RequestFails
      = Ok r /\
    analysis r = Analysis d /\
    d_complexity_score d < 10 /\ d_total_parallelism d <= 1 /\
    recommended_tier r = SP2 /\ index tier_hierarchy SP2 = 0%nat.
Proof.
  eexists. eexists.
  split; [vm_compute; reflexivity |]. split; [reflexivity |].
  split; [simpl; lia |]. split; [simpl; lia |].
  eapply (C5_simple_pipeline_gets_SP2 (FileHolds bare_processor) RequestFails).
  - vm_compute; reflexivity.
  - reflexivity.
  - simpl; lia.
  - simpl; lia.
Defined.

(** The scorer returns a report whatever it is given. *)
Lemma analyze_never_raises (file : local_file) (api : api_reply) :
  exists r, analyze_processor_complexity_detailed file api = Ok r.
Proof.
  unfold analyze_processor_complexity_detailed.
  destruct (analyze_body file api); eexists; reflexivity.
Qed.

(** Whatever goes wrong, the answer is a full analysis or SP10 with a
    note. *)
Lemma analysis_or_default (file : local_file) (api : api_reply) (r : report) :
  analyze_processor_complexity_detailed file api = Ok r ->
  (exists d, analysis r = Analysis d) \/
  (recommended_tier r = SP10 /\ exists note, analysis r = AnalysisError note).
Proof.
  unfold analyze_processor_complexity_detailed.
  destruct (analyze_body file api) as [r0 |] eqn:E.
  2:{ intros [= <-]. right. split; [reflexivity | eexists; reflexivity]. }
  intros [= <-]. revert E. unfold analyze_body, bind.
  destruct (load_processor_data file api) as [[data |] |]; try discriminate.
  2:{ intros [= <-]. right. split; [reflexivity | eexists; reflexivity]. }
  destruct (negb (truthy data)).
  { intros [= <-]. right. split; [reflexivity | eexists; reflexivity]. }
  destruct (get data "pipeline" (VList [])) as [pipeline |]; [| discriminate].
  unfold score_pipeline, bind.
  destruct (iterate pipeline) as [stages |]; [| discriminate].
  destruct (score_stages 0 stages acc0) as [walked |]; [| discriminate].
  destruct (len pipeline) as [n |]; [| discriminate].
  intros [= <-]. left. eexists. apply build_report_fields.
Qed.



(** C9: operator classes are found by substring search in [str(stage)]:
    in [field_path_pipeline] no stage has the operator [$group], the text
    [$group] only starts a field path inside the [$project] configuration,
    and the score still includes the 15 points of a grouping operation;
    with another field path in that place the same pipeline scores 0. *)
Theorem C9_token_inside_a_value_is_scored :
  exists stages r d r' d',
    field_path_pipeline = VList stages /\
    forallb (fun stage => negb (uses_operator "$group" stage)) stages = true /\
    analyze_processor_complexity_detailed
      (FileHolds (VDict [("pipeline", field_path_pipeline)])) RequestFails = Ok r /\
    analysis r = Analysis d /\
    d_complexity_factors d = ["Stage 2: Grouping operation (+15 complexity)"] /\
    d_complexity_score d = 15 /\
    analyze_processor_complexity_detailed
      (FileHolds (VDict [("pipeline", renamed_path_pipeline)])) RequestFails = Ok r' /\
    analysis r' = Analysis d' /\
    d_complexity_score d' = 0.
Proof.
  do 5 eexists.
  split; [reflexivity |]. split; [reflexivity |].
  split; [vm_compute; reflexivity |]. split; [reflexivity |].
  split; [reflexivity |]. split; [reflexivity |].
  split; [vm_compute; reflexivity |]. split; reflexivity.
Qed.

End ScorerTheorems.

(* ===================================================================== *)
(** * Properties of the tier-violation error parser *)
(* ===================================================================== *)

Section TierErrorFacts.
Import Py TierError.

Lemma strip_spec (lit s rest : string) :
  strip lit s = Some rest <-> s = lit ++ rest.
Proof.
  revert s. induction lit as [| a lit IH]; intros s; simpl.
  - split; [now intros [= ->] | now intros ->].
  - destruct s as [| b s].
    + split; discriminate.
    + destruct (Ascii.eqb_spec a b) as [-> | Hab].
      * rewrite IH. split; [now intros -> | now intros [= ->]].
      * split; [discriminate | intros [= ? _]; congruence].
Qed.

Lemma digits_of_empty (s : string) :
  digits_of s = EmptyString <->
  (s = EmptyString \/ exists c t, s = String c t /\ is_digit c = false).
Proof.
  destruct s as [| c t]; simpl.
  - split; [now left | reflexivity].
  - destruct (is_digit c) eqn:E.
    + split; [discriminate | intros [H | (c' & t' & [= <- _] & H)]; congruence].
    + split; [intros _; right; now exists c, t | reflexivity].
Qed.

Lemma match_here_some (lit s ds : string) :
  match_here lit s = Some ds ->
  exists d rest, s = lit ++ String d rest /\ is_digit d = true.
Proof.
  unfold match_here.
  destruct (strip lit s) as [rest |] eqn:E; [| discriminate].
  apply strip_spec in E. subst s.
  destruct rest as [| d rest]; simpl; [discriminate |].
  destruct (is_digit d) eqn:Hd; [| discriminate].
  intros _. now exists d, rest.
Qed.

Lemma match_here_none (lit s : string) :
  match_here lit s = None ->
  forall d rest, s = lit ++ String d rest -> is_digit d = false.
Proof.
  unfold match_here. intros H d rest ->.
  assert (E : strip lit (lit ++ String d rest) = Some (String d rest))
    by now apply strip_spec.
  rewrite E in H. simpl in H.
  destruct (is_digit d); [discriminate | reflexivity].
Qed.

Lemma matches_tail (lit s : string) (c : ascii) :
  matches lit s -> matches lit (String c s).
Proof.
  intros (pre & d & rest & -> & Hd).
  exists (String c pre), d, rest. split; [reflexivity | exact Hd].
Qed.

(** [re_search] finds nothing exactly when the pattern matches nowhere. *)
Lemma re_search_none (lit s : string) :
  re_search lit s = None <-> ~ matches lit s.
Proof.
  induction s as [| c s IH]; simpl.
  - destruct (match_here lit EmptyString) as [ds |] eqn:E.
    + split; [discriminate |]. intros H. exfalso. apply H.
      destruct (match_here_some _ _ _ E) as (d & rest & Hs & Hd).
      now exists EmptyString, d, rest.
    + split; [| reflexivity]. intros _ (pre & d & rest & Hs & Hd).
      destruct pre; simpl in Hs; [| discriminate].
      pose proof (match_here_none _ _ E d rest Hs). congruence.
  - destruct (match_here lit (String c s)) as [ds |] eqn:E.
    + split; [discriminate |]. intros H. exfalso. apply H.
      destruct (match_here_some _ _ _ E) as (d & rest & Hs & Hd).
      now exists EmptyString, d, rest.
    + rewrite IH. split.
      * intros Hs (pre & d & rest & Heq & Hd).
        destruct pre as [| c' pre]; simpl in Heq.
        -- pose proof (match_here_none _ _ E d rest Heq). congruence.
        -- injection Heq as _ Heq. apply Hs. now exists pre, d, rest.
      * intros H Hs. apply H. now apply matches_tail.
Qed.

(** Reading [lit] across the end of [p] into [follow]: either [lit] lies
    within [p], or [p] ends inside [lit] and the rest of [lit] starts
    [follow]. *)
Lemma strip_app (lit p follow rest : string) :
  strip lit (p ++ follow) = Some rest ->
  (exists r, strip lit p = Some r /\ rest = r ++ follow) \/
  (exists l2, lit = p ++ l2 /\ l2 <> EmptyString /\ strip l2 follow = Some rest).
Proof.
  revert p. induction lit as [| a lit IH]; intros p; simpl.
  - intros [= <-]. left. now exists p.
  - destruct p as [| b p]; simpl.
    + intros H. right. exists (String a lit). repeat split; [discriminate | exact H].
    + destruct (Ascii.eqb_spec a b) as [-> | Hab]; [| discriminate].
      intros H. destruct (IH _ H) as [(r & Hr & ->) | (l2 & -> & Hl2 & Hs)].
      * left. now exists r.
      * right. now exists l2.
Qed.

Lemma has_char_app (c : ascii) (p t : string) :
  has_char c (p ++ String c t) = true.
Proof.
  induction p as [| b p IH]; simpl.
  - now rewrite Ascii.eqb_refl.
  - rewrite IH. apply orb_true_r.
Qed.

(** The minimum-tier pattern cannot start inside the text before the
    phrase and run into it: its first letter occurs nowhere else in it. *)
Lemma no_straddle (c : ascii) (p follow rest : string) :
  let lit := minimum_tier_prefix ++ "SP" in
  strip lit (String c p ++ lit ++ follow) = Some rest ->
  exists r, strip lit (String c p) = Some r /\ rest = r ++ lit ++ follow.
Proof.
  intros lit H.
  destruct (strip_app _ _ _ _ H) as [Hin | (l2 & Hlit & Hl2 & Hs)]; [exact Hin |].
  exfalso.
  destruct l2 as [| m l2]; [contradiction |].
  assert (Hm : m = "M"%char).
  { unfold lit in Hs. simpl in Hs.
    destruct (Ascii.eqb_spec m "M"); [assumption | discriminate]. }
  subst m.
  assert (Hc : c = "M"%char) by (unfold lit in Hlit; simpl in Hlit; congruence).
  subst c.
  assert (Htail : has_char "M" (p ++ String "M" l2) = true) by apply has_char_app.
  unfold lit in Hlit. simpl in Hlit. injection Hlit as Hlit.
  rewrite <- Hlit in Htail. discriminate.
Qed.

Lemma search_finds_phrase (pre post : string) :
  ~ matches (minimum_tier_prefix ++ "SP") pre ->
  re_search (minimum_tier_prefix ++ "SP") (pre ++ sp30_phrase ++ post) = Some "30".
Proof.
  induction pre as [| c pre IH]; intros Hpre.
  - reflexivity.
  - change (String c pre ++ sp30_phrase ++ post)
      with (String c (pre ++ sp30_phrase ++ post)).
    cbn [re_search].
    destruct (match_here _ (String c (pre ++ sp30_phrase ++ post))) as [ds |] eqn:E.
    + exfalso. unfold match_here in E.
      destruct (strip _ _) as [rest |] eqn:Es; [| discriminate].
      change (String c (pre ++ sp30_phrase ++ post))
        with (String c pre ++ (minimum_tier_prefix ++ "SP") ++ ("30 or larger" ++ post)) in Es.
      apply no_straddle in Es. destruct Es as (r & Hr & ->).
      apply strip_spec in Hr.
      destruct r as [| d r].
      * simpl in E. discriminate.
      * change ((String d r ++ (minimum_tier_prefix ++ "SP") ++ "30 or larger" ++ post))
          with (String d (r ++ (minimum_tier_prefix ++ "SP") ++ "30 or larger" ++ post)) in E.
        cbn [digits_of] in E. destruct (is_digit d) eqn:Hd.
        -- apply Hpre. exists EmptyString, d, r. split; [exact Hr | exact Hd].
        -- discriminate.
    + apply IH. intros H. apply Hpre. now apply matches_tail.
Qed.

Lemma parse_never_raises (error_text : string) :
  exists r, _parse_tier_validation_error error_text = Ok r.
Proof.
  unfold _parse_tier_validation_error.
  destruct (parse_body error_text); eexists; reflexivity.
Qed.

End TierErrorFacts.

Section TierErrorTheorems.
Import Py TierError.

(** C7 (as stated, refuted): a text can contain the SP30 phrase and still
    yield another tier, because the leftmost match of the minimum-tier
    pattern wins. *)
Lemma C7_phrase_present_but_SP10 :
  exists text,
    contains sp30_phrase text = true /\
    _parse_tier_validation_error text = Ok (Some "SP10") /\
    _parse_tier_validation_error text <> Ok (Some "SP30").
Proof.
  exists two_phrases. split; [reflexivity |]. split; [reflexivity | discriminate].
Qed.

(** C7 (amended): the parser never raises; a text in which the phrase
    "Minimum tier for this workload: SP30 or larger" is preceded by no
    match of the minimum-tier pattern yields exactly SP30; a text in which
    neither the minimum-tier pattern nor the requested-parallelism pattern
    matches yields no suggestion. *)
Theorem C7_tier_error_parser (text pre post : string) :
  (exists r, _parse_tier_validation_error text = Ok r) /\
  (~ matches (minimum_tier_prefix ++ "SP") pre ->
   _parse_tier_validation_error (pre ++ sp30_phrase ++ post) = Ok (Some "SP30")) /\
  (~ matches (minimum_tier_prefix ++ "SP") text ->
   ~ matches requested_prefix text ->
   _parse_tier_validation_error text = Ok None).
Proof.
  split; [apply parse_never_raises |]. split.
  - intros Hpre. unfold _parse_tier_validation_error, parse_body.
    now rewrite (search_finds_phrase pre post Hpre).
  - intros H1 H2. unfold _parse_tier_validation_error, parse_body.
    apply re_search_none in H1. apply re_search_none in H2.
    now rewrite H1, H2.
Qed.

(** A rejection that quotes the SP30 phrase once, after other text, and a
    text in which neither pattern occurs. *)
Lemma C7_witness :
  (exists r, _parse_tier_validation_error "quota exceeded" = Ok r) /\
  _parse_tier_validation_error
    ("Error 400: " ++ sp30_phrase ++ " (Requested: 12)") = Ok (Some "SP30") /\
  _parse_tier_validation_error "quota exceeded" = Ok None.
Proof.
  pose proof (C7_tier_error_parser "quota exceeded" "Error 400: " " (Requested: 12)")
    as (H1 & H2 & H3).
  split; [exact H1 |]. split.
  - apply H2. apply re_search_none. reflexivity.
  - apply H3; apply re_search_none; reflexivity.
Defined.

End TierErrorTheorems.

(* ===================================================================== *)
(** * Properties of the quick validator *)
(* ===================================================================== *)

Section ValidatorFacts.
Import Py Validator.

Lemma same_verdict_refl (o : outcome) : same_verdict o o.
Proof. repeat split. Qed.

Lemma agree_ret {A : Type} (a : A) : agree (ret a) (ret a).
Proof. intros o o' H. split; [exact H | reflexivity]. Qed.

Lemma agree_lift {A : Type} (r : result A) : agree (lift r) (lift r).
Proof. intros o o' H. split; [exact H | reflexivity]. Qed.

Lemma agree_bind {A B : Type} (m m' : M A) (k k' : A -> M B) :
  agree m m' -> (forall a, agree (k a) (k' a)) -> agree (vbind m k) (vbind m' k').
Proof.
  intros Hm Hk o o' H. unfold vbind.
  destruct (Hm o o' H) as [Hv Hr].
  destruct (m o) as [o1 [a |]], (m' o') as [o1' [a' |]]; simpl in *;
    try discriminate.
  - injection Hr as ->. now apply Hk.
  - split; [exact Hv | congruence].
Qed.

Lemma agree_add_error (msg : string) : agree (add_error msg) (add_error msg).
Proof.
  intros o o' (Hf & Hv & He). unfold add_error; simpl.
  repeat split; simpl; congruence.
Qed.

Lemma agree_when (b : bool) (m m' : M unit) :
  agree m m' -> agree (when b m) (when b m').
Proof. intros H. destruct b; simpl; [exact H | apply agree_ret]. Qed.

(** Whether a warning is written, and which, does not touch the verdict. *)
Lemma agree_warning (b b' : bool) (w w' : string) :
  agree (when b (add_warning w)) (when b' (add_warning w')).
Proof.
  intros o o' H. destruct b, b'; simpl; (split; [exact H | reflexivity]).
Qed.

Lemma agree_check_connection (c c' : list string) (kind : string) (cfg : value) :
  agree (check_connection c kind cfg) (check_connection c' kind cfg).
Proof.
  unfold check_connection.
  apply agree_bind; [apply agree_lift | intros has_name].
  apply agree_when.
  apply agree_bind; [apply agree_lift | intros conn].
  apply agree_warning.
Qed.

Lemma agree_check_stage (c c' : list string) (stage : value) :
  agree (check_stage c stage) (check_stage c' stage).
Proof.
  unfold check_stage.
  repeat first
    [ apply agree_check_connection
    | apply agree_lift
    | apply agree_when
    | apply agree_bind; [| intros ?] ].
Qed.

Lemma agree_check_stages (c c' : list string) (stages : list value) :
  agree (check_stages c stages) (check_stages c' stages).
Proof.
  induction stages as [| stage rest IH]; simpl.
  - apply agree_ret.
  - apply agree_bind; [apply agree_check_stage | intros _; exact IH].
Qed.

Lemma agree_validate_body (stem : string) (c c' : list string) (processor : value) :
  agree (validate_body stem c processor) (validate_body stem c' processor).
Proof.
  unfold validate_body.
  repeat first
    [ apply agree_check_stages
    | apply agree_lift
    | apply agree_add_error
    | apply agree_warning
    | apply agree_when
    | apply agree_bind; [| intros ?] ].
Qed.

(** The verdict (validity and errors) of [validate_processor_file] does
    not depend on the known connection names. *)
Lemma verdict_ignores_connections (path stem : string) (content : result value)
    (c c' : list string) :
  same_verdict (validate_processor_file path stem content c)
               (validate_processor_file path stem content c').
Proof.
  unfold validate_processor_file.
  set (start := {| file := path; valid := true; errors := []; warnings := [] |}).
  assert (H : agree (vbind (lift content) (fun p => validate_body stem c p))
                    (vbind (lift content) (fun p => validate_body stem c' p))).
  { apply agree_bind; [apply agree_lift | intros p; apply agree_validate_body]. }
  destruct (H start start (same_verdict_refl start)) as [Hv Hr].
  destruct (vbind (lift content) _ start) as [o r],
           (vbind (lift content) _ start) as [o' r']; simpl in *.
  subst r'. destruct r as [[] | e]; [exact Hv |].
  destruct e; apply agree_add_error; exact Hv.
Qed.

End ValidatorFacts.

Section ValidatorWarnings.
Import Py Validator.

Lemma keeps_ret {A : Type} (a : A) : keeps (ret a).
Proof. intros o w H. exact H. Qed.

Lemma keeps_lift {A : Type} (r : result A) : keeps (lift r).
Proof. intros o w H. exact H. Qed.

Lemma keeps_bind {A B : Type} (m : M A) (k : A -> M B) :
  keeps m -> (forall a, keeps (k a)) -> keeps (vbind m k).
Proof.
  intros Hm Hk o w H. unfold vbind.
  specialize (Hm o w H).
  destruct (m o) as [o1 [a |]]; simpl in *; [now apply Hk | exact Hm].
Qed.

Lemma keeps_add_error (msg : string) : keeps (add_error msg).
Proof. intros o w H. exact H. Qed.

Lemma keeps_add_warning (msg : string) : keeps (add_warning msg).
Proof. intros o w H. simpl. apply in_or_app. now left. Qed.

Lemma keeps_when (b : bool) (m : M unit) : keeps m -> keeps (when b m).
Proof. intros H. destruct b; simpl; [exact H | apply keeps_ret]. Qed.

Ltac keeps_steps :=
  repeat first
    [ apply keeps_ret | apply keeps_lift | apply keeps_add_error
    | apply keeps_add_warning | apply keeps_when
    | apply keeps_bind; [| intros ?] ].

Lemma keeps_check_stage (c : list string) (stage : value) :
  keeps (check_stage c stage).
Proof.
  unfold check_stage, check_source, check_merge, check_emit, check_connection.
  keeps_steps.
Qed.

Lemma keeps_check_stages (c : list string) (stages : list value) :
  keeps (check_stages c stages).
Proof.
  induction stages as [| stage rest IH]; simpl.
  - apply keeps_ret.
  - apply keeps_bind; [apply keeps_check_stage | intros _; exact IH].
Qed.

Lemma keeps_check_name (stem : string) (processor : value) :
  keeps (check_name stem processor).
Proof. unfold check_name. keeps_steps. Qed.

Lemma seq_fine (m k : M unit) : fine m -> fine k -> fine (vbind m (fun _ => k)).
Proof.
  intros Hm Hk o. unfold vbind. specialize (Hm o).
  destruct (m o) as [o1 r]; simpl in *. subst r. apply Hk.
Qed.

Lemma seq_writes_first (w : string) (m k : M unit) :
  writes w m -> keeps k -> writes w (vbind m (fun _ => k)).
Proof.
  intros Hm Hk o. unfold vbind. specialize (Hm o).
  destruct (m o) as [o1 [[] |]]; simpl in *; [now apply Hk | exact Hm].
Qed.

Lemma seq_writes_second (w : string) (m k : M unit) :
  fine m -> writes w k -> writes w (vbind m (fun _ => k)).
Proof.
  intros Hm Hk o. unfold vbind. specialize (Hm o).
  destruct (m o) as [o1 r]; simpl in *. subst r. apply Hk.
Qed.

Lemma not_known (c : list string) (x : string) :
  ~ In x c -> known c (VStr x) = false.
Proof.
  intros H. simpl. apply not_true_is_false. intros E.
  apply existsb_exists in E. destruct E as (y & Hy & Exy).
  apply String.eqb_eq in Exy. now subst y.
Qed.

Lemma check_connection_fine (c : list string) (kind : string) (cfg : dict) :
  fine (check_connection c kind (VDict cfg)).
Proof.
  intros o. unfold check_connection, vbind, lift, when, getitem, py_in, dict_has.
  destruct (dict_get cfg "connectionName") as [conn |]; simpl; [| reflexivity].
  destruct (known c conn); reflexivity.
Qed.

Lemma check_connection_writes (c : list string) (kind x : string) (cfg : dict) :
  dict_get cfg "connectionName" = Some (VStr x) -> ~ In x c ->
  writes (unknown_warning kind x) (check_connection c kind (VDict cfg)).
Proof.
  intros Hget Hx o.
  unfold check_connection, vbind, lift, when, getitem, py_in, dict_has.
  rewrite Hget. cbn [negb fst snd]. rewrite (not_known c x Hx). simpl.
  apply in_or_app. right. now left.
Qed.

Lemma check_source_fine (c : list string) (d : dict) :
  mapping_if_any (dict_get d "$source") = true -> fine (check_source c (VDict d)).
Proof.
  intros Hd o. unfold check_source, vbind, lift, when, getitem, py_in, dict_has.
  destruct (dict_get d "$source") as [v |]; simpl; [| reflexivity].
  destruct v; try discriminate.
  apply check_connection_fine.
Qed.

Lemma check_merge_fine (c : list string) (d : dict) :
  mapping_if_any (dict_get d "$merge") = true -> fine (check_merge c (VDict d)).
Proof.
  intros Hd o. unfold check_merge, vbind, lift, when, getitem, py_in, dict_has.
  destruct (dict_get d "$merge") as [v |]; simpl; [| reflexivity].
  destruct v as [| | | | | | cfg]; try discriminate.
  destruct (dict_get cfg "into") as [into |]; simpl; [| reflexivity].
  destruct into; simpl; try reflexivity.
  apply check_connection_fine.
Qed.

Lemma check_emit_fine (c : list string) (d : dict) :
  fine (check_emit c (VDict d)).
Proof.
  intros o. unfold check_emit, vbind, lift, when, getitem, py_in, dict_has.
  destruct (dict_get d "$emit") as [v |]; simpl; [| reflexivity].
  destruct v; simpl; try reflexivity.
  apply check_connection_fine.
Qed.

Lemma check_stage_fine (c : list string) (stage : value) :
  stage_ok stage = true -> fine (check_stage c stage).
Proof.
  intros H. destruct stage as [| | | | | | d]; try discriminate.
  simpl in H. apply andb_true_iff in H. destruct H as [Hs Hm].
  unfold check_stage.
  apply seq_fine; [now apply check_source_fine |].
  apply seq_fine; [now apply check_merge_fine | apply check_emit_fine].
Qed.

Lemma check_stages_fine (c : list string) (stages : list value) :
  forallb stage_ok stages = true -> fine (check_stages c stages).
Proof.
  induction stages as [| stage rest IH]; simpl; intros H.
  - intros o. reflexivity.
  - apply andb_true_iff in H. destruct H as [Hs Hr].
    apply seq_fine; [now apply check_stage_fine | now apply IH].
Qed.

(** A stage that refers to an unknown connection gets its warning. *)
Lemma check_stage_writes (c : list string) (x : string) (stage : value) :
  stage_ok stage = true -> refers_to x stage -> ~ In x c ->
  exists kind, In kind ["source"; "merge"; "emit"] /\
               writes (unknown_warning kind x) (check_stage c stage).
Proof.
  intros Hok (d & -> & Href) Hx.
  simpl in Hok. apply andb_true_iff in Hok. destruct Hok as [Hsrc Hmrg].
  destruct Href as [(cfg & Hs & Hn) | [(cfg & into & Hm & Hi & Hn) | (cfg & He & Hn)]].
  - exists "source". split; [simpl; auto |].
    unfold check_stage. apply seq_writes_first.
    + intros o. unfold check_source, vbind, lift, when, getitem, py_in, dict_has.
      rewrite Hs. simpl. now apply check_connection_writes.
    + unfold check_merge, check_emit, check_connection. keeps_steps.
  - exists "merge". split; [simpl; auto |].
    unfold check_stage. apply seq_writes_second; [now apply check_source_fine |].
    apply seq_writes_first.
    + intros o. unfold check_merge, vbind, lift, when, getitem, py_in, dict_has.
      rewrite Hm. simpl. rewrite Hi. simpl. now apply check_connection_writes.
    + unfold check_emit, check_connection. keeps_steps.
  - exists "emit". split; [simpl; auto |].
    unfold check_stage. apply seq_writes_second; [now apply check_source_fine |].
    apply seq_writes_second; [now apply check_merge_fine |].
    intros o. unfold check_emit, vbind, lift, when, getitem, py_in, dict_has.
    rewrite He. simpl. now apply check_connection_writes.
Qed.

Lemma check_stages_writes (c : list string) (x : string) (stages : list value) :
  forallb stage_ok stages = true ->
  (exists stage, In stage stages /\ refers_to x stage) -> ~ In x c ->
  exists kind, In kind ["source"; "merge"; "emit"] /\
               writes (unknown_warning kind x) (check_stages c stages).
Proof.
  induction stages as [| stage rest IH]; simpl; intros Hok (s & Hin & Href) Hx.
  - contradiction.
  - apply andb_true_iff in Hok. destruct Hok as [Hs Hr].
    destruct Hin as [-> | Hin].
    + destruct (check_stage_writes c x s Hs Href Hx) as (kind & Hk & Hw).
      exists kind. split; [exact Hk |].
      apply seq_writes_first; [exact Hw | apply keeps_check_stages].
    + destruct (IH Hr (ex_intro _ s (conj Hin Href)) Hx) as (kind & Hk & Hw).
      exists kind. split; [exact Hk |].
      apply seq_writes_second; [now apply check_stage_fine | exact Hw].
Qed.

Lemma has_output_returns (stages : list value) :
  forallb stage_ok stages = true -> exists b, has_output stages = Ok b.
Proof.
  induction stages as [| stage rest IH]; simpl; intros H.
  - now exists false.
  - apply andb_true_iff in H. destruct H as [Hs Hr].
    destruct stage as [| | | | | | d]; try discriminate. simpl.
    destruct (dict_has d "$merge"); [now exists true |].
    destruct (dict_has d "$emit"); [now exists true | now apply IH].
Qed.

Lemma returns_ret {A : Type} (a : A) : returns (ret a) a.
Proof. intros o. reflexivity. Qed.

Lemma returns_lift {A : Type} (a : A) : returns (lift (Ok a)) a.
Proof. intros o. reflexivity. Qed.

Lemma returns_bind {A B : Type} (m : M A) (k : A -> M B) (a : A) (b : B) :
  returns m a -> returns (k a) b -> returns (vbind m k) b.
Proof.
  intros Hm Hk o. unfold vbind. specialize (Hm o).
  destruct (m o) as [o1 r]; simpl in *. subst r. apply Hk.
Qed.

Lemma returns_add_error (msg : string) : returns (add_error msg) tt.
Proof. intros o. reflexivity. Qed.

Lemma returns_add_warning (msg : string) : returns (add_warning msg) tt.
Proof. intros o. reflexivity. Qed.

Lemma returns_when (b : bool) (m : M unit) :
  returns m tt -> returns (when b m) tt.
Proof. intros H. destruct b; simpl; [exact H | apply returns_ret]. Qed.

(** Tests 2 to 4 on a well-formed processor return its stages. *)
Lemma check_pipeline_returns (processor : dict) (stages : list value) :
  dict_get processor "pipeline" = Some (VList stages) ->
  forallb stage_ok stages = true ->
  returns (check_pipeline (VDict processor)) stages.
Proof.
  intros Hp Hok. unfold check_pipeline.
  eapply returns_bind; [apply returns_lift |].
  eapply returns_bind; [apply returns_when, returns_add_error |].
  eapply returns_bind; [unfold get; rewrite Hp; apply returns_lift |].
  eapply returns_bind; [apply returns_when, returns_add_error |].
  eapply returns_bind; [apply returns_lift |].
  eapply returns_bind; [apply returns_when, returns_add_error |].
  destruct (has_output_returns _ Hok) as (b & Hb).
  eapply returns_bind.
  { destruct stages as [| first rest]; [apply returns_ret |].
    apply returns_when.
    eapply returns_bind; [apply returns_lift |].
    simpl in Hok. apply andb_true_iff in Hok. destruct Hok as [Hf _].
    destruct first as [| | | | | | d]; try discriminate.
    eapply returns_bind; [apply returns_lift |].
    apply returns_when, returns_add_error. }
  eapply returns_bind; [apply returns_lift |].
  eapply returns_bind; [rewrite Hb; apply returns_lift |].
  eapply returns_bind; [apply returns_when, returns_add_warning |].
  apply returns_ret.
Qed.

End ValidatorWarnings.

Section ValidatorTheorems.
Import Py Validator.

Lemma validate_body_writes (stem : string) (c : list string) (x : string)
    (processor : dict) (stages : list value) :
  dict_get processor "pipeline" = Some (VList stages) ->
  forallb stage_ok stages = true ->
  (exists stage, In stage stages /\ refers_to x stage) ->
  ~ In x c ->
  exists kind, In kind ["source"; "merge"; "emit"] /\
               writes (unknown_warning kind x) (validate_body stem c (VDict processor)).
Proof.
  intros Hp Hok Href Hx.
  destruct (check_stages_writes c x stages Hok Href Hx) as (kind & Hk & Hw).
  exists kind. split; [exact Hk |]. intros o.
  unfold validate_body. unfold vbind at 1.
  pose proof (check_pipeline_returns processor stages Hp Hok o) as Hr.
  destruct (check_pipeline (VDict processor) o) as [o1 r]; simpl in Hr. subst r.
  apply seq_writes_first; [exact Hw | apply keeps_check_name].
Qed.

(** C2 (the failing input): a pipeline whose source names the unknown
    connection X.  [validate_processor_file] reports the file valid, with
    no error, and mentions X in a warning only; the suite's
    [test_source_connections_exist] fails the same file with a message
    that names X. *)
Theorem C2_unknown_source_passes_the_runner :
  (exists stage, In stage unknown_source_stages /\ refers_to "X" stage) /\
  ~ In "X" ["Y"] /\
  validate_processor_file "processors/solar.json" "solar"
    (Ok (VDict unknown_source_processor)) ["Y"] =
  {| file := "processors/solar.json";
     valid := true;
     errors := [];
     warnings := ["Unknown source connection: X"] |} /\
  Suite.test_source_connections_exist "solar.json"
    (Ok (VDict unknown_source_processor)) ["Y"] =
  Suite.Failed
    "'X' not found in ['Y'] : solar.json: Unknown connection 'X'. Valid connections: ['Y']".
Proof.
  split; [| split; [| split]].
  - eexists. split; [left; reflexivity |].
    eexists. split; [reflexivity |]. left.
    eexists. split; reflexivity.
  - intros [H | []]. discriminate.
  - vm_compute. reflexivity.
  - vm_compute. reflexivity.
Qed.

(** The processor's [options], where the dead-letter queue is configured,
    are not read. *)
Lemma options_are_not_read (path stem : string) (options options' : value)
    (rest : dict) (connections : list string) :
  validate_processor_file path stem
    (Ok (VDict (("options", options) :: rest))) connections =
  validate_processor_file path stem
    (Ok (VDict (("options", options') :: rest))) connections.
Proof. reflexivity. Qed.

(** X26: [validate_processor_file] never fails a file for
    an unknown connection.  For a processor whose stages are mappings
    (with a [$source] or [$merge], where present, configured by a
    mapping), a reference to a connection name that is not among the
    known ones, from a source stage, from the [into] mapping of a merge
    stage, or from an emit stage, is written as a warning naming it.  The
    validity flag and the error list are the same whatever the set of
    known names, and a dead-letter-queue configuration, which lives in
    the processor's [options], is not examined. *)
Theorem unknown_connection_is_only_warned
    (path stem : string) (processor : dict) (stages : list value)
    (connections others : list string) (x : string) (dlq dlq' : value) :
  dict_get processor "pipeline" = Some (VList stages) ->
  forallb stage_ok stages = true ->
  (exists stage, In stage stages /\ refers_to x stage) ->
  ~ In x connections ->
  (exists kind, In kind ["source"; "merge"; "emit"] /\
     In (unknown_warning kind x)
        (warnings (validate_processor_file path stem
                     (Ok (VDict processor)) connections))) /\
  same_verdict
    (validate_processor_file path stem (Ok (VDict processor)) connections)
    (validate_processor_file path stem (Ok (VDict processor)) others) /\
  validate_processor_file path stem
    (Ok (VDict (("options", VDict [("dlq", dlq)]) :: processor))) connections =
  validate_processor_file path stem
    (Ok (VDict (("options", VDict [("dlq", dlq')]) :: processor))) connections.
Proof.
  intros Hp Hok Href Hx.
  split; [| split; [apply verdict_ignores_connections | apply options_are_not_read]].
  destruct (validate_body_writes stem connections x processor stages Hp Hok Href Hx)
    as (kind & Hk & Hw).
  exists kind. split; [exact Hk |].
  unfold validate_processor_file.
  set (start := {| file := path; valid := true; errors := []; warnings := [] |}).
  unfold vbind at 1. unfold lift at 1.
  specialize (Hw start).
  destruct (validate_body stem connections (VDict processor) start) as [o [[] | e]];
    simpl in Hw; [exact Hw |].
  destruct e; exact Hw.
Qed.

(** [unknown_source_processor] against the known name Y, then against X
    and Y, and with a dead-letter queue on X or on Y. *)
Lemma unknown_connection_is_only_warned_witness :
  (exists kind, In kind ["source"; "merge"; "emit"] /\
     In (unknown_warning kind "X")
        (warnings (validate_processor_file "processors/solar.json" "solar"
                     (Ok (VDict unknown_source_processor)) ["Y"]))) /\
  same_verdict
    (validate_processor_file "processors/solar.json" "solar"
       (Ok (VDict unknown_source_processor)) ["Y"])
    (validate_processor_file "processors/solar.json" "solar"
       (Ok (VDict unknown_source_processor)) ["X"; "Y"]) /\
  validate_processor_file "processors/solar.json" "solar"
    (Ok (VDict (("options", VDict [("dlq", VDict [("connectionName", VStr "X")])])
                :: unknown_source_processor))) ["Y"] =
  validate_processor_file "processors/solar.json" "solar"
    (Ok (VDict (("options", VDict [("dlq", VDict [("connectionName", VStr "Y")])])
                :: unknown_source_processor))) ["Y"].
Proof.
  apply (unknown_connection_is_only_warned "processors/solar.json" "solar"
           unknown_source_processor unknown_source_stages ["Y"] ["X"; "Y"] "X").
  - reflexivity.
  - reflexivity.
  - eexists. split; [left; reflexivity |].
    eexists. split; [reflexivity |]. left.
    eexists. split; reflexivity.
  - intros [H | []]. discriminate.
Defined.

End ValidatorTheorems.
(* ===================================================================== *)
(** * Properties of the suite's connection checks *)
(* ===================================================================== *)

Section SuiteFacts.
Import Py Validator Suite.

Variable file_name : string.
Variable valid_connections : list string.

(** What [readable] says of a stage. *)
Lemma readable_stage (stage : value) :
  readable stage = true ->
  exists d, stage = VDict d /\
    mapping_if_any (dict_get d "$source") = true /\
    mapping_if_any (dict_get d "$merge") = true /\
    (forall cfg, dict_get d "$merge" = Some (VDict cfg) ->
       mapping_if_any (dict_get cfg "into") = true).
Proof.
  unfold readable, stage_ok. destruct stage as [| | | | | | d]; try discriminate.
  intros H. apply andb_true_iff in H. destruct H as [H1 H2].
  apply andb_true_iff in H1. destruct H1 as [Hs Hm].
  exists d. repeat split; try assumption.
  intros cfg E. now rewrite E in H2.
Qed.

(** The check of one configuration that may name a connection. *)
Lemma named_connection (cfg : dict) (place : string) :
  tbind (py (py_in "connectionName" (VDict cfg)))
    (fun has_name =>
       when has_name
         (tbind (py (getitem (VDict cfg) "connectionName"))
            (fun conn_name =>
               assertIn conn_name valid_connections
                 (unknown_connection file_name conn_name place))))
  = checked file_name valid_connections (dict_get cfg "connectionName") place.
Proof.
  cbn [py_in py tbind getitem]. unfold dict_has, checked.
  destruct (dict_get cfg "connectionName") as [c |]; cbn [when py tbind];
    reflexivity.
Qed.

Lemma source_stage_on (stage : value) :
  readable stage = true ->
  source_stage file_name valid_connections stage
  = checked file_name valid_connections (source_connection stage)
      (and_valid valid_connections).
Proof.
  intros H. destruct (readable_stage stage H) as (d & -> & Hs & _).
  unfold source_stage, source_connection.
  cbn [py_in py tbind getitem]. unfold dict_has.
  destruct (dict_get d "$source") as [[| | | | | | cfg] |]; try discriminate;
    cbn [when py tbind]; [| reflexivity].
  apply named_connection.
Qed.

Lemma merge_stage_on (stage : value) :
  readable stage = true ->
  merge_stage file_name valid_connections stage
  = checked file_name valid_connections (merge_connection stage)
      (" in $merge stage" ++ and_valid valid_connections).
Proof.
  intros H. destruct (readable_stage stage H) as (d & -> & _ & Hm & Hinto).
  unfold merge_stage, merge_connection.
  cbn [py_in py tbind getitem]. unfold dict_has.
  destruct (dict_get d "$merge") as [[| | | | | | cfg] |]; try discriminate;
    cbn [when py tbind]; [| reflexivity].
  specialize (Hinto cfg eq_refl).
  cbn [py_in py tbind getitem]. unfold dict_has.
  destruct (dict_get cfg "into") as [[| | | | | | into] |]; try discriminate;
    cbn [when py tbind]; [| reflexivity].
  apply named_connection.
Qed.

Lemma emit_stage_on (i : Z) (stage : value) :
  readable stage = true ->
  emit_stage file_name valid_connections i stage
  = checked file_name valid_connections (emit_connection stage)
      (" in $emit stage at position " ++ str_of_Z i).
Proof.
  intros H. destruct (readable_stage stage H) as (d & -> & _).
  unfold emit_stage, emit_connection.
  cbn [py_in py tbind getitem]. unfold dict_has.
  destruct (dict_get d "$emit") as [emit |]; cbn [when py tbind]; [| reflexivity].
  destruct emit as [| | | | | | cfg]; cbn [is_dict when]; try reflexivity.
  apply named_connection.
Qed.

(** A loop over readable stages fails the first connection that a stage
    names and that is not known. *)
Lemma each_fails (body : Z -> value -> run unit) (named : value -> option value)
    (place : Z -> string) :
  (forall i stage, readable stage = true ->
     body i stage = checked file_name valid_connections (named stage) (place i)) ->
  forall stages i,
    forallb readable stages = true ->
    (exists stage x, In stage stages /\ named stage = Some x /\
                     known valid_connections x = false) ->
    exists stage conn_name position,
      In stage stages /\ named stage = Some conn_name /\
      known valid_connections conn_name = false /\
      each body i stages
      = Failed (failure file_name conn_name (place position) valid_connections).
Proof.
  intros Hbody. induction stages as [| stage rest IH]; intros i Hok Hex.
  - destruct Hex as (s & x & [] & _).
  - cbn [forallb] in Hok. apply andb_true_iff in Hok. destruct Hok as [Hs Hrest].
    cbn [each]. rewrite (Hbody i stage Hs). unfold checked.
    destruct (named stage) as [c |] eqn:En.
    + destruct (known valid_connections c) eqn:Ek.
      * cbn [tbind].
        destruct (IH (i + 1)%Z Hrest) as (s & c' & pos & Hin & Hn & Hk & Hr).
        { destruct Hex as (s & x & [<- | Hin] & Hn & Hk); [congruence |].
          now exists s, x. }
        exists s, c', pos. repeat split; try assumption. now right.
      * cbn [tbind]. exists stage, c, i. repeat split; try assumption. now left.
    + cbn [tbind].
      destruct (IH (i + 1)%Z Hrest) as (s & c' & pos & Hin & Hn & Hk & Hr).
      { destruct Hex as (s & x & [<- | Hin] & Hn & Hk); [congruence |].
        now exists s, x. }
      exists s, c', pos. repeat split; try assumption. now right.
Qed.

(** A test that loops over the pipeline of a processor. *)
Lemma over_pipeline_on (body : Z -> value -> run unit) (processor : dict)
    (stages : list value) :
  dict_get processor "pipeline" = Some (VList stages) ->
  over_pipeline body (Ok (VDict processor)) = each body 0 stages.
Proof.
  intros Hp. unfold over_pipeline. cbn [py tbind get]. rewrite Hp. reflexivity.
Qed.

End SuiteFacts.

Section SuiteTheorems.
Import Py Validator Suite.

(** X25: the suite fails every unknown connection.  On a
    processor whose pipeline is a list of readable stages, a source
    stage, the [into] mapping of a merge stage or an emit stage that
    names a connection outside the valid ones makes the matching test
    fail, with a failure that names such a connection (the first one the
    loop meets); a dead-letter queue that names one makes
    [test_dlq_connections_exist] fail, naming it. *)
Theorem suite_fails_unknown_connection
    (file_name : string) (processor : dict) (stages : list value)
    (valid_connections : list string) :
  dict_get processor "pipeline" = Some (VList stages) ->
  forallb readable stages = true ->
  ((exists stage x, In stage stages /\ source_connection stage = Some x /\
                    known valid_connections x = false) ->
   exists stage conn_name,
     In stage stages /\ source_connection stage = Some conn_name /\
     known valid_connections conn_name = false /\
     test_source_connections_exist file_name (Ok (VDict processor)) valid_connections
     = Failed (failure file_name conn_name (and_valid valid_connections)
                 valid_connections)) /\
  ((exists stage x, In stage stages /\ merge_connection stage = Some x /\
                    known valid_connections x = false) ->
   exists stage conn_name,
     In stage stages /\ merge_connection stage = Some conn_name /\
     known valid_connections conn_name = false /\
     test_merge_connections_exist file_name (Ok (VDict processor)) valid_connections
     = Failed (failure file_name conn_name
                 (" in $merge stage" ++ and_valid valid_connections)
                 valid_connections)) /\
  ((exists stage x, In stage stages /\ emit_connection stage = Some x /\
                    known valid_connections x = false) ->
   exists stage conn_name position,
     In stage stages /\ emit_connection stage = Some conn_name /\
     known valid_connections conn_name = false /\
     test_emit_stage_structure file_name (Ok (VDict processor)) valid_connections
     = Failed (failure file_name conn_name
                 (" in $emit stage at position " ++ str_of_Z position)
                 valid_connections)) /\
  (forall x, dlq_connection processor = Some x ->
     known valid_connections x = false ->
     test_dlq_connections_exist file_name (Ok (VDict processor)) valid_connections
     = Failed (failure file_name x
                 (" in DLQ options" ++ and_valid valid_connections)
                 valid_connections)).
Proof.
  intros Hp Hok. split; [| split; [| split]].
  - intros Hex. unfold test_source_connections_exist.
    rewrite (over_pipeline_on _ processor stages Hp).
    destruct (each_fails file_name valid_connections
                (fun _ => source_stage file_name valid_connections)
                source_connection (fun _ => and_valid valid_connections)
                (fun _ stage H => source_stage_on file_name valid_connections stage H)
                stages 0%Z Hok Hex) as (s & c & _ & H).
    now exists s, c.
  - intros Hex. unfold test_merge_connections_exist.
    rewrite (over_pipeline_on _ processor stages Hp).
    destruct (each_fails file_name valid_connections
                (fun _ => merge_stage file_name valid_connections)
                merge_connection
                (fun _ => " in $merge stage" ++ and_valid valid_connections)
                (fun _ stage H => merge_stage_on file_name valid_connections stage H)
                stages 0%Z Hok Hex) as (s & c & _ & H).
    now exists s, c.
  - intros Hex. unfold test_emit_stage_structure.
    rewrite (over_pipeline_on _ processor stages Hp).
    apply (each_fails file_name valid_connections
             (emit_stage file_name valid_connections) emit_connection
             (fun i => " in $emit stage at position " ++ str_of_Z i)
             (emit_stage_on file_name valid_connections) stages 0%Z Hok Hex).
  - intros x Hx Hk. unfold test_dlq_connections_exist, dlq_connection in *.
    cbn [py tbind get].
    destruct (dict_get processor "options") as [[| | | | | | options] |];
      try discriminate.
    cbn [py_in py tbind getitem]. unfold dict_has.
    destruct (dict_get options "dlq") as [[| | | | | | dlq] |]; try discriminate.
    cbn [when py tbind].
    rewrite (named_connection file_name valid_connections dlq).
    unfold checked. now rewrite Hx, Hk.
Qed.

(** [unknown_everywhere] against the valid name Y: the source, merge and
    dead-letter-queue tests each fail naming X. *)
Lemma suite_fails_unknown_connection_witness :
  test_source_connections_exist "solar.json" (Ok (VDict unknown_everywhere)) ["Y"]
  = Failed "'X' not found in ['Y'] : solar.json: Unknown connection 'X'. Valid connections: ['Y']" /\
  test_merge_connections_exist "solar.json" (Ok (VDict unknown_everywhere)) ["Y"]
  = Failed "'X' not found in ['Y'] : solar.json: Unknown connection 'X' in $merge stage. Valid connections: ['Y']" /\
  test_dlq_connections_exist "solar.json" (Ok (VDict unknown_everywhere)) ["Y"]
  = Failed "'X' not found in ['Y'] : solar.json: Unknown connection 'X' in DLQ options. Valid connections: ['Y']".
Proof.
  destruct (suite_fails_unknown_connection "solar.json" unknown_everywhere
              (match dict_get unknown_everywhere "pipeline" with
               | Some (VList stages) => stages
               | _ => []
               end) ["Y"] eq_refl eq_refl) as (Hs & Hm & _ & Hd).
  split; [| split].
  - destruct Hs as (s & c & Hin & Hn & Hk & H).
    { eexists. exists (VStr "X"). split; [left; reflexivity |]. split; reflexivity. }
    rewrite H. destruct Hin as [<- | [<- | []]]; [| discriminate].
    injection Hn as <-. vm_compute. reflexivity.
  - destruct Hm as (s & c & Hin & Hn & Hk & H).
    { eexists. exists (VStr "X"). split; [right; left; reflexivity |].
      split; reflexivity. }
    rewrite H. destruct Hin as [<- | [<- | []]]; [discriminate |].
    injection Hn as <-. vm_compute. reflexivity.
  - rewrite (Hd (VStr "X") eq_refl eq_refl). vm_compute. reflexivity.
Defined.

End SuiteTheorems.

(* ===================================================================== *)
(** * Properties of the profiler *)
(* ===================================================================== *)

Section ProfilerTiming.
Import Py Profiler.
Local Open Scope Q_scope.

Lemma Qltb_lt (a b : Q) : Qltb a b = true <-> a < b.
Proof.
  unfold Qltb. rewrite negb_true_iff. split.
  - intros H. apply Qnot_le_lt. intros Hle.
    apply Qle_bool_iff in Hle. congruence.
  - intros H. apply not_true_is_false. intros Hle.
    apply Qle_bool_iff in Hle. now apply (Qlt_not_le a b).
Qed.

Lemma Qltb_ge (a b : Q) : Qltb a b = false <-> b <= a.
Proof.
  unfold Qltb. rewrite negb_false_iff. apply Qle_bool_iff.
Qed.

(** The nap of the fixed-duration loop: the interval, capped by the time
    the run has left, floored at zero. *)
Lemma sleep_fixed_spec (start_time duration : num) (interval : Z) (now : num) :
  (0 <= interval)%Z ->
  let remaining := duration - (now - start_time) in
  slept_for (sleep_fixed start_time duration interval now)
    == Qmax 0 (Qmin (inject_Z interval) remaining) /\
  (sleep_fixed start_time duration interval now = None <-> remaining <= 0).
Proof.
  intros Hi remaining. unfold sleep_fixed. fold remaining.
  assert (Hi' : 0 <= inject_Z interval)
    by (change 0 with (inject_Z 0); now rewrite <- Zle_Qle).
  destruct (Qltb (inject_Z interval) remaining) eqn:E1.
  - apply Qltb_lt in E1. simpl. split.
    + rewrite Q.min_l by now apply Qlt_le_weak.
      now rewrite Q.max_r.
    + split; [discriminate |]. intros H. exfalso.
      apply (Qlt_irrefl 0). eapply Qle_lt_trans; [exact Hi' |].
      eapply Qlt_le_trans; [exact E1 | exact H].
  - apply Qltb_ge in E1. destruct (Qltb 0 remaining) eqn:E2.
    + apply Qltb_lt in E2. simpl. split.
      * rewrite Q.min_r by exact E1.
        rewrite Q.max_r by now apply Qlt_le_weak. reflexivity.
      * split; [discriminate |]. intros H. exfalso.
        now apply (Qlt_not_le 0 remaining).
    + apply Qltb_ge in E2. simpl. split.
      * rewrite Q.min_r by exact E1. now rewrite Q.max_l.
      * split; [intros _; exact E2 | reflexivity].
Qed.

(** A sleep of a length that is not negative returns. *)
Lemma sleep_fixed_taken (start_time duration : num) (interval : Z) (now : num) :
  (0 <= interval)%Z ->
  nap_taken (sleep_fixed start_time duration interval now) = Ok tt.
Proof.
  intros Hi. unfold sleep_fixed.
  assert (Hi' : 0 <= inject_Z interval)
    by (change 0 with (inject_Z 0); now rewrite <- Zle_Qle).
  destruct (Qltb (inject_Z interval) _) eqn:E1; cbn [nap_taken]; unfold time_sleep.
  - apply Qltb_ge in Hi'. now rewrite Hi'.
  - destruct (Qltb 0 _) eqn:E2; cbn [nap_taken]; [| reflexivity].
    unfold time_sleep. apply Qltb_lt, Qlt_le_weak, Qltb_ge in E2. now rewrite E2.
Qed.

Lemma sleep_continuous_taken (interval : Z) :
  (0 <= interval)%Z -> nap_taken (sleep_continuous interval) = Ok tt.
Proof.
  intros Hi. unfold sleep_continuous, nap_taken, time_sleep.
  assert (Hi' : 0 <= inject_Z interval)
    by (change 0 with (inject_Z 0); now rewrite <- Zle_Qle).
  apply Qltb_ge in Hi'. now rewrite Hi'.
Qed.

(** A sleep of negative length raises. *)
Lemma negative_sleep_raises (interval : Z) :
  (interval < 0)%Z -> time_sleep (inject_Z interval) = Raise ValueError.
Proof.
  intros Hi. unfold time_sleep.
  assert (Hi' : inject_Z interval < 0)
    by (change 0 with (inject_Z 0); now rewrite <- Zlt_Qlt).
  apply Qltb_lt in Hi'. now rewrite Hi'.
Qed.

(** A loop all of whose sleeps returned ended normally. *)
Lemma ended_ok (trace : list tick_record) :
  (forall t, In t trace -> nap_taken (slept t) = Ok tt) -> ended trace = Ok tt.
Proof.
  intros H. unfold ended. destruct (rev trace) as [| t l] eqn:E; [reflexivity |].
  apply H. apply in_rev. rewrite E. now left.
Qed.

Lemma continuous_loop_trace (envs : list tick_env) (names : list string)
    (interval : Z) (th : threshold_set) :
  forall now samples t,
    In t (snd (continuous_loop envs names interval th now samples)) ->
    slept t = Some (inject_Z interval).
Proof.
  induction envs as [| env rest IH]; intros now samples t; cbn [continuous_loop].
  - intros [].
  - cbv zeta. destruct (nap_taken (sleep_continuous interval)) as [[] | e].
    + destruct (continuous_loop rest names interval th _ _) as [all trace] eqn:E.
      cbn [snd]. intros [<- | H]; [reflexivity |].
      eapply IH. rewrite E. exact H.
    + cbn [snd]. intros [<- | []]. reflexivity.
Qed.

Lemma fixed_loop_trace (envs : list tick_env) (names : list string)
    (start duration : num) (interval : Z) (th : threshold_set) :
  forall now samples t,
    In t (snd (fixed_loop envs names start duration interval th now samples)) ->
    slept t = sleep_fixed start duration interval (began t + took t).
Proof.
  induction envs as [| env rest IH]; intros now samples t; cbn [fixed_loop].
  - intros [].
  - destruct (Qltb (now - start) duration); [| intros []].
    cbv zeta.
    destruct (nap_taken (sleep_fixed start duration interval (now + work env)))
      as [[] | e].
    + destruct (fixed_loop rest names start duration interval th _ _)
        as [all trace] eqn:E.
      cbn [snd]. intros [<- | H]; [reflexivity |].
      eapply IH. rewrite E. exact H.
    + cbn [snd]. intros [<- | []]. reflexivity.
Qed.

(** With an interval that is not negative both loops end normally. *)
Lemma fixed_loop_ended (envs : list tick_env) (names : list string)
    (start duration : num) (interval : Z) (th : threshold_set)
    (now : num) (samples : list sample) :
  (0 <= interval)%Z ->
  ended (snd (fixed_loop envs names start duration interval th now samples)) = Ok tt.
Proof.
  intros Hi. apply ended_ok. intros t Ht.
  rewrite (fixed_loop_trace _ _ _ _ _ _ _ _ _ Ht). now apply sleep_fixed_taken.
Qed.

Lemma continuous_loop_ended (envs : list tick_env) (names : list string)
    (interval : Z) (th : threshold_set) (now : num) (samples : list sample) :
  (0 <= interval)%Z ->
  ended (snd (continuous_loop envs names interval th now samples)) = Ok tt.
Proof.
  intros Hi. apply ended_ok. intros t Ht.
  rewrite (continuous_loop_trace _ _ _ _ _ _ _ Ht). now apply sleep_continuous_taken.
Qed.

End ProfilerTiming.

Section ProfilerTimingTheorems.
Import Py Profiler.
Local Open Scope Q_scope.

(** C6 (as stated, refuted): with an interval of 10 s and ticks whose
    processing takes 3 s, both loops sleep 10 s after the first tick, not
    the 7 s that are left of the interval. *)
Lemma C6_sleep_ignores_processing_time :
  (exists t,
     In t (snd (continuous_loop [idle_tick] [] 10 no_thresholds 0 [])) /\
     took t == 3 /\ slept_for (slept t) == 10 /\
     ~ sleeps_rest_of_interval 10 t) /\
  (exists t,
     In t (snd (fixed_loop [idle_tick] [] 0 60 10 no_thresholds 0 [])) /\
     took t == 3 /\ slept_for (slept t) == 10 /\
     ~ sleeps_rest_of_interval 10 t).
Proof.
  split; eexists; (split; [left; reflexivity |]);
    (split; [reflexivity |]); (split; [reflexivity |]);
    unfold sleeps_rest_of_interval; simpl; intros H;
    vm_compute in H; discriminate.
Qed.

(** C6 (amended): neither loop deducts the tick's processing time.  Every
    tick of the continuous loop is followed by a sleep of the full
    interval.  Every tick of the fixed-duration loop is followed by a
    sleep of the interval capped by the time the run has left (duration
    minus the time elapsed since the start, read after the tick's
    processing), floored at zero; no sleep is made when nothing is
    left. *)
Theorem C6_sleep_between_ticks
    (envs : list tick_env) (names : list string) (start duration : num)
    (interval : Z) (th : threshold_set) (now : num) (samples : list sample)
    (t : tick_record) :
  (0 <= interval)%Z ->
  (In t (snd (continuous_loop envs names interval th now samples)) ->
   slept t = Some (inject_Z interval)) /\
  (In t (snd (fixed_loop envs names start duration interval th now samples)) ->
   let remaining := duration - (began t + took t - start) in
   slept_for (slept t) == Qmax 0 (Qmin (inject_Z interval) remaining) /\
   (slept t = None <-> remaining <= 0)).
Proof.
  intros Hi. split.
  - apply continuous_loop_trace.
  - intros H. rewrite (fixed_loop_trace _ _ _ _ _ _ _ _ _ H).
    now apply sleep_fixed_spec.
Qed.

(** A run of 25 s sampled every 10 s, each tick taking 3 s: the first
    tick of either loop is followed by a sleep of 10 s, the second tick of
    the fixed-duration loop, which ends at 16 s, by one of 9 s. *)
Lemma C6_witness :
  (In {| began := 0; took := 3; slept := Some 10 |}
      (snd (continuous_loop [idle_tick; idle_tick] [] 10 no_thresholds 0 [])) /\
   slept {| began := 0; took := 3; slept := Some 10 |} = Some (inject_Z 10)) /\
  (In {| began := 13; took := 3; slept := Some 9 |}
      (snd (fixed_loop [idle_tick; idle_tick; idle_tick] [] 0 25 10
              no_thresholds 0 [])) /\
   slept_for (slept {| began := 13; took := 3; slept := Some 9 |})
     == Qmax 0 (Qmin (inject_Z 10) (25 - (13 + 3 - 0))) /\
   (slept {| began := 13; took := 3; slept := Some 9 |} = None <->
    25 - (13 + 3 - 0) <= 0)).
Proof.
  assert (H1 : In {| began := 0; took := 3; slept := Some 10 |}
                 (snd (continuous_loop [idle_tick; idle_tick] [] 10
                         no_thresholds 0 [])))
    by (left; reflexivity).
  assert (H2 : In {| began := 13; took := 3; slept := Some 9 |}
                 (snd (fixed_loop [idle_tick; idle_tick; idle_tick] [] 0 25 10
                         no_thresholds 0 [])))
    by (right; left; reflexivity).
  split; (split; [assumption |]).
  - apply (C6_sleep_between_ticks [idle_tick; idle_tick] [] 0 25 10 no_thresholds 0 []
             {| began := 0; took := 3; slept := Some 10 |}); [lia | exact H1].
  - apply (C6_sleep_between_ticks [idle_tick; idle_tick; idle_tick] [] 0 25 10
             no_thresholds 0 [] {| began := 13; took := 3; slept := Some 9 |});
      [lia | exact H2].
Defined.

End ProfilerTimingTheorems.

Section ProfilerTrend.
Import Py Profiler.
Local Open Scope Q_scope.

Lemma halves_nonempty (values : list num) :
  (2 <= List.length values)%nat ->
  firstn (List.length values / 2) values <> [] /\
  skipn (List.length values / 2) values <> [].
Proof.
  intros Hlen.
  assert (H1 : (1 <= List.length values / 2)%nat)
    by (apply (Nat.div_le_lower_bound _ 2 1); lia).
  assert (H2 : (List.length values / 2 < List.length values)%nat)
    by (apply Nat.div_lt; lia).
  split; intros E; apply (f_equal (@List.length num)) in E;
    change (List.length (@nil num)) with 0%nat in E.
  - rewrite length_firstn in E. lia.
  - rewrite length_skipn in E. lia.
Qed.

(** The double of a rational that is zero. *)
Lemma b64_zero (v : num) : v == 0 -> b64 v = S754_zero false.
Proof.
  destruct v as [n d]. unfold Qeq, b64. cbn [Qnum Qden].
  intros H. replace n with 0%Z by lia. reflexivity.
Qed.

(** Zeros add up to zero. *)
Lemma sum_zeros (values : list num) :
  (forall v, In v values -> v == 0) -> sum values = S754_zero false.
Proof.
  unfold sum. induction values as [| v values IH]; intros H; [reflexivity |].
  cbn [fold_left]. rewrite (b64_zero v) by (apply H; now left).
  apply IH. intros w Hw. apply H. now right.
Qed.

(** Their average does not compare as positive: it is a zero, or no
    number at all when there is nothing to average. *)
Lemma average_zeros (values : list num) :
  (forall v, In v values -> v == 0) ->
  SFltb (double 0) (average values) = false.
Proof.
  intros H. unfold average. rewrite (sum_zeros values H).
  destruct (double (Z.of_nat (List.length values))) as [s | s | | s m e];
    reflexivity.
Qed.

(** A series is classified by the sign guard on its first-half average
    alone when that average is not positive. *)
Lemma trend_without_baseline (values : list num) :
  (2 <= List.length values)%nat ->
  SFltb (double 0) (average (firstn (List.length values / 2) values)) = false ->
  _calculate_trend values = stable.
Proof.
  intros Hlen Hz. destruct (halves_nonempty values Hlen) as [Hf Hs].
  unfold _calculate_trend.
  replace (List.length values <? 2)%nat with false
    by (symmetry; apply Nat.ltb_ge; exact Hlen).
  cbv zeta.
  destruct (firstn (List.length values / 2) values) as [| v1 first_half];
    [contradiction |].
  destruct (skipn (List.length values / 2) values) as [| v2 second_half];
    [contradiction |].
  rewrite Hz. reflexivity.
Qed.

Lemma trend_of_few (values : list num) :
  (List.length values < 2)%nat -> _calculate_trend values = insufficient_data.
Proof.
  intros H. unfold _calculate_trend.
  now replace (List.length values <? 2)%nat with true
    by (symmetry; apply Nat.ltb_lt; exact H).
Qed.

End ProfilerTrend.

Section ProfilerAnalysis.
Import Py Profiler.

Lemma keys_assign (table : stats_table) (k k' : string) (v : processor_stats) :
  In k (keys (assign table k' v)) <-> k = k' \/ In k (keys table).
Proof.
  induction table as [| [k0 v0] table IH]; simpl.
  - split; [intros [<- | []]; now left | intros [-> | []]; now left].
  - destruct (String.eqb_spec k0 k') as [-> | Hne]; simpl.
    + intuition congruence.
    + rewrite IH. intuition congruence.
Qed.

Lemma find_sampled_some (n : string) (l : list entry) :
  (exists p, find_sampled n l = Some p) <->
  (exists p, In (Sampled p) l /\ name p = n).
Proof.
  unfold find_sampled. split.
  - intros (p & H).
    destruct (find _ l) as [[q | ? ?] |] eqn:E; try discriminate.
    injection H as ->. apply find_some in E. destruct E as [Hin Hq].
    apply andb_true_iff in Hq. destruct Hq as [Hn _].
    apply String.eqb_eq in Hn. now exists p.
  - intros (p & Hin & Hn).
    destruct (find _ l) as [[q | m e] |] eqn:E.
    + now exists q.
    + apply find_some in E. destruct E as [_ Hq].
      apply andb_true_iff in Hq. destruct Hq as [_ Hq]. discriminate.
    + exfalso. apply (find_none _ _ E) in Hin. simpl in Hin.
      rewrite Hn, String.eqb_refl in Hin. discriminate.
Qed.

Lemma proc_data_of_first (n : string) (first : sample) (rest : list sample) :
  (exists p, find_sampled n (processors first) = Some p) ->
  proc_data_of n (first :: rest) <> [].
Proof. intros (p & H). simpl. rewrite H. discriminate. Qed.

Lemma per_processor_keys (samples : list sample) (names : list string) :
  forall table n,
    In n (keys (per_processor names samples table)) <->
    In n (keys table) \/ (In n names /\ proc_data_of n samples <> []).
Proof.
  induction names as [| m names IH]; intros table n; simpl.
  - tauto.
  - rewrite IH. destruct (proc_data_of m samples) as [| p ps] eqn:E.
    + split.
      * intros [H | [H1 H2]]; [now left | right; tauto].
      * intros [H | [[-> | H1] H2]]; [now left | congruence | right; tauto].
    + rewrite keys_assign. split.
      * intros [[-> | H] | [H1 H2]]; [| now left | right; tauto].
        right. split; [now left | rewrite E; discriminate].
      * intros [H | [[-> | H1] H2]]; [left; now right | left; now left | right; tauto].
Qed.

Lemma first_names (n : string) (first : sample) :
  In n (map entry_name (filter error_free (processors first))) <->
  sampled_in n first.
Proof.
  unfold sampled_in. rewrite in_map_iff. split.
  - intros (e & Hn & He). apply filter_In in He. destruct He as [Hin Hfree].
    destruct e as [p | ? ?]; [| discriminate]. now exists p.
  - intros (p & Hin & Hn). exists (Sampled p). split; [exact Hn |].
    apply filter_In. now split.
Qed.

(** The keys of the per-processor table are the names with an error-free
    entry in the first sample. *)
Lemma analysed_names (samples : list sample) (duration : num) (interval : Z)
    (n : string) :
  In n (analysed (_analyze_profile_data samples duration interval)) <->
  exists first rest, samples = first :: rest /\ sampled_in n first.
Proof.
  destruct samples as [| first rest]; simpl.
  - split; [contradiction | intros (f & r & H & _); discriminate].
  - rewrite per_processor_keys, first_names. simpl. split.
    + intros [[] | [H _]]. now exists first, rest.
    + intros (f & r & [= <- <-] & H). right. split; [exact H |].
      apply proc_data_of_first. apply find_sampled_some. exact H.
Qed.

(** A tick records an error-free entry only for a name whose fetch
    returned statistics. *)
Lemma sample_one_name (full : bool) (interval : Z) (previous : option sample)
    (n : string) (f : fetched) (p : proc_sample) :
  sample_one full interval previous n f = Ok (Some p) ->
  name p = n /\ exists s, f = Fetched s.
Proof.
  unfold sample_one, bind. destruct f as [e | | s]; try discriminate.
  destruct (throughput interval previous n (inputMessageCount s));
    [| discriminate].
  intros [= <-]. split; [reflexivity | now exists s].
Qed.

Lemma collect_sampled (full : bool) (interval : Z) (th : threshold_set)
    (previous : option sample) (fetch : string -> fetched) (names : list string) :
  forall s p,
    In (Sampled p) (processors (collect full interval th previous fetch names s)) ->
    In (Sampled p) (processors s) \/ exists r, fetch (name p) = Fetched r.
Proof.
  induction names as [| n names IH]; intros s p; simpl.
  - now left.
  - intros H. apply IH in H. destruct H as [H | H]; [| now right].
    destruct (sample_one full interval previous n (fetch n)) as [[q |] | e] eqn:E;
      simpl in H.
    + apply in_app_or in H. destruct H as [H | [[= <-] | []]]; [now left |].
      right. destruct (sample_one_name _ _ _ _ _ _ E) as [-> Hf]. exact Hf.
    + now left.
    + apply in_app_or in H. destruct H as [H | [H | []]]; [now left | discriminate].
Qed.

Lemma fixed_loop_samples (envs : list tick_env) (names : list string)
    (start duration : num) (interval : Z) (th : threshold_set) :
  forall now samples,
    exists more,
      fst (fixed_loop envs names start duration interval th now samples)
      = (samples ++ more)%list.
Proof.
  induction envs as [| env rest IH]; intros now samples; cbn [fixed_loop].
  - exists []. now rewrite app_nil_r.
  - destruct (Qltb (now - start) duration).
    + cbv zeta. destruct (nap_taken _) as [[] | e].
      * match goal with
        | |- context [fixed_loop rest names start duration interval th ?t ?s] =>
            destruct (IH t s) as (more & Hm);
            destruct (fixed_loop rest names start duration interval th t s)
              as [all trace]
        end.
        cbn [fst] in *. subst all. rewrite <- app_assoc. eexists. reflexivity.
      * cbn [fst]. eexists. reflexivity.
    + exists []. now rewrite app_nil_r.
Qed.

Lemma continuous_loop_samples (envs : list tick_env) (names : list string)
    (interval : Z) (th : threshold_set) :
  forall now samples,
    exists more,
      fst (continuous_loop envs names interval th now samples)
      = (samples ++ more)%list.
Proof.
  induction envs as [| env rest IH]; intros now samples; cbn [continuous_loop].
  - exists []. now rewrite app_nil_r.
  - cbv zeta. destruct (nap_taken _) as [[] | e].
    + match goal with
      | |- context [continuous_loop rest names interval th ?t ?s] =>
          destruct (IH t s) as (more & Hm);
          destruct (continuous_loop rest names interval th t s) as [all trace]
      end.
      cbn [fst] in *. subst all. rewrite <- app_assoc. eexists. reflexivity.
    + cbn [fst]. eexists. reflexivity.
Qed.

(** The samples of a loop that starts without any begin with its first
    tick's. *)
Lemma fixed_loop_first (env : tick_env) (envs : list tick_env)
    (names : list string) (duration : num) (interval : Z) (th : threshold_set)
    (clock : num) (first : sample) (rest : list sample) :
  fst (fixed_loop (env :: envs) names clock duration interval th clock [])
    = first :: rest ->
  first = tick true interval th [] (fetch env) names clock.
Proof.
  cbn [fixed_loop]. destruct (Qltb (clock - clock) duration); [| discriminate].
  cbv zeta. destruct (nap_taken _) as [[] | e].
  - match goal with
    | |- context [fixed_loop envs names clock duration interval th ?t ?s] =>
        destruct (fixed_loop_samples envs names clock duration interval th t s)
          as (more & Hm);
        destruct (fixed_loop envs names clock duration interval th t s)
          as [all trace]
    end.
    cbn [fst] in *. subst all. cbn [app]. congruence.
  - cbn [fst app]. congruence.
Qed.

Lemma continuous_loop_first (env : tick_env) (envs : list tick_env)
    (names : list string) (interval : Z) (th : threshold_set)
    (clock : num) (first : sample) (rest : list sample) :
  fst (continuous_loop (env :: envs) names interval th clock []) = first :: rest ->
  first = tick false interval th [] (fetch env) names clock.
Proof.
  cbn [continuous_loop]. cbv zeta. destruct (nap_taken _) as [[] | e].
  - match goal with
    | |- context [continuous_loop envs names interval th ?t ?s] =>
        destruct (continuous_loop_samples envs names interval th t s)
          as (more & Hm);
        destruct (continuous_loop envs names interval th t s) as [all trace]
    end.
    cbn [fst] in *. subst all. cbn [app]. congruence.
  - cbn [fst app]. congruence.
Qed.

(** What a run returns is the analysis of the samples of its loop. *)
Lemma fixed_run_returns (envs : list tick_env) (names : list string)
    (duration interval : Z) (th : threshold_set) (clock : num) (a : analysis) :
  profile_processors envs names duration interval th clock = Ok a ->
  a = _analyze_profile_data
        (fst (fixed_loop envs names clock (inject_Z duration) interval th clock []))
        (inject_Z duration) interval.
Proof.
  unfold profile_processors.
  destruct (fixed_loop _ _ _ _ _ _ _ _) as [samples trace].
  destruct (ended trace); cbn [bind fst]; congruence.
Qed.

Lemma continuous_run_returns (envs : list tick_env) (names : list string)
    (interval : Z) (th : threshold_set) (clock stopped : num) (a : analysis) :
  profile_processors_continuous envs names interval th clock stopped = Ok a ->
  a = _analyze_profile_data
        (fst (continuous_loop envs names interval th clock []))
        (stopped - clock)%Q interval.
Proof.
  unfold profile_processors_continuous.
  destruct (continuous_loop _ _ _ _ _ _) as [samples trace].
  destruct (ended trace); cbn [bind fst]; congruence.
Qed.

(** With an interval that is not negative a run returns its analysis. *)
Lemma fixed_run_total (envs : list tick_env) (names : list string)
    (duration interval : Z) (th : threshold_set) (clock : num) :
  (0 <= interval)%Z ->
  profile_processors envs names duration interval th clock
  = Ok (_analyze_profile_data
          (fst (fixed_loop envs names clock (inject_Z duration) interval th clock []))
          (inject_Z duration) interval).
Proof.
  intros Hi. unfold profile_processors.
  pose proof (fixed_loop_ended envs names clock (inject_Z duration) interval th
                clock [] Hi) as He.
  destruct (fixed_loop _ _ _ _ _ _ _ _) as [samples trace].
  cbn [snd fst] in *. now rewrite He.
Qed.

Lemma continuous_run_total (envs : list tick_env) (names : list string)
    (interval : Z) (th : threshold_set) (clock stopped : num) :
  (0 <= interval)%Z ->
  profile_processors_continuous envs names interval th clock stopped
  = Ok (_analyze_profile_data
          (fst (continuous_loop envs names interval th clock []))
          (stopped - clock)%Q interval).
Proof.
  intros Hi. unfold profile_processors_continuous.
  pose proof (continuous_loop_ended envs names interval th clock [] Hi) as He.
  destruct (continuous_loop _ _ _ _ _ _) as [samples trace].
  cbn [snd fst] in *. now rewrite He.
Qed.

(** The first sample of a run, if there is one, is the first tick's. *)
Lemma first_sample_of_run (full : bool) (interval : Z) (th : threshold_set)
    (env : tick_env) (names : list string) (clock : num) (n : string) :
  (forall r, fetch env n <> Fetched r) ->
  ~ sampled_in n (tick full interval th [] (fetch env) names clock).
Proof.
  intros Hn (p & Hin & Hp). unfold tick in Hin. simpl in Hin.
  apply collect_sampled in Hin. destruct Hin as [[] | (r & Hr)].
  rewrite Hp in Hr. exact (Hn r Hr).
Qed.

End ProfilerAnalysis.

Section ProfilerAnalysisTheorems.
Import Py Profiler.

(** C10: the end-of-run analysis has a per-processor entry exactly for
    the names with an error-free entry in the first sample of the run.
    Hence, in both loops, a processor whose fetch did not return
    statistics in the first tick (it raised, or nothing was found) is
    absent from the analysis the run returns, whatever the later ticks
    return.  A run returns an analysis whenever its interval is not
    negative. *)
Theorem C10_entries_come_from_first_sample
    (samples : list sample) (duration : num) (interval : Z) (n : string)
    (env : tick_env) (envs : list tick_env) (names : list string)
    (th : threshold_set) (seconds : Z) (clock stopped : num) :
  (In n (analysed (_analyze_profile_data samples duration interval)) <->
   exists first rest, samples = first :: rest /\ sampled_in n first) /\
  ((forall r, fetch env n <> Fetched r) ->
   (forall a,
      profile_processors (env :: envs) names seconds interval th clock = Ok a ->
      ~ In n (analysed a)) /\
   (forall a,
      profile_processors_continuous (env :: envs) names interval th clock stopped
        = Ok a ->
      ~ In n (analysed a))) /\
  ((0 <= interval)%Z ->
   (exists a,
      profile_processors (env :: envs) names seconds interval th clock = Ok a) /\
   (exists a,
      profile_processors_continuous (env :: envs) names interval th clock stopped
        = Ok a)).
Proof.
  split; [apply analysed_names |]. split.
  - intros Hn. split; intros a Ha.
    + apply fixed_run_returns in Ha. subst a.
      rewrite analysed_names. intros (first & rest & E & Hs).
      apply fixed_loop_first in E. subst first.
      exact (first_sample_of_run _ _ _ _ _ _ _ Hn Hs).
    + apply continuous_run_returns in Ha. subst a.
      rewrite analysed_names. intros (first & rest & E & Hs).
      apply continuous_loop_first in E. subst first.
      exact (first_sample_of_run _ _ _ _ _ _ _ Hn Hs).
  - intros Hi. split; eexists.
    + now apply fixed_run_total.
    + now apply continuous_run_total.
Qed.

(** In [late_run] the processor [late] answers in the second and third
    tick, and only [steady] is analysed. *)
Lemma C10_witness :
  (exists p, find_sampled "late"
               (processors (nth 1 (fst (continuous_loop late_run ["steady"; "late"]
                                          10 no_thresholds 0 []))
                                  {| timestamp := 0; processors := []; alerts := [] |}))
             = Some p) /\
  exists fixed continuous,
    profile_processors late_run ["steady"; "late"] 30 10 no_thresholds 0
      = Ok fixed /\
    profile_processors_continuous late_run ["steady"; "late"] 10 no_thresholds 0 33
      = Ok continuous /\
    analysed continuous = ["steady"] /\
    ~ In "late" (analysed fixed) /\
    ~ In "late" (analysed continuous).
Proof.
  split; [eexists; vm_compute; reflexivity |].
  destruct (C10_entries_come_from_first_sample [] 0 10 "late" first_tick_env
              [later_tick_env 200; later_tick_env 300] ["steady"; "late"]
              no_thresholds 30 0 33) as (_ & Habsent & Hret).
  destruct (Hret ltac:(lia)) as [[fixed Hf] [continuous Hc]].
  destruct (Habsent ltac:(intros r; simpl; discriminate)) as [H1 H2].
  exists fixed, continuous.
  split; [exact Hf |]. split; [exact Hc |].
  split; [| split; [exact (H1 fixed Hf) | exact (H2 continuous Hc)]].
  change late_run with (first_tick_env :: [later_tick_env 200; later_tick_env 300])
    in Hc.
  apply continuous_run_returns in Hc. subst continuous.
  vm_compute. reflexivity.
Defined.

End ProfilerAnalysisTheorems.

Section ProfilerAdviceTheorems.
Import Py Profiler.

(** C3 (as stated, refuted): with a growing memory trend and a maximum
    above the ceiling, independent rules would return both memory
    advisories; the generator returns the leak-monitoring one only. *)
Lemma C3_memory_rules_exclude_each_other :
  trend_is (v_memory_mb leaking_stats) increasing = true /\
  Qltb 1000 (max_of (v_memory_mb leaking_stats)) = true /\
  independent_rules leaking_stats = [leak_advice; upsize_advice] /\
  _generate_recommendations leaking_stats = [leak_advice].
Proof. repeat split. Qed.

(** C3 (amended): the rules form three groups, memory (leak monitoring,
    upsizing, right-sizing), latency (degradation, high p99) and
    throughput (bottleneck, low throughput).  Within a group only the
    first rule whose condition holds contributes its advisory; the groups
    are evaluated independently and their advisories are returned in the
    listed order.  In particular, a growing memory trend yields the
    leak-monitoring advisory and never the upsizing one.  The result is
    the single healthy advisory exactly when no rule's condition holds. *)
Theorem C3_recommendations_by_group (stats : stats_view) :
  _generate_recommendations stats = grouped_rules stats /\
  (trend_is (v_memory_mb stats) increasing = true ->
   In leak_advice (_generate_recommendations stats) /\
   ~ In upsize_advice (_generate_recommendations stats)) /\
  (_generate_recommendations stats = [healthy_advice] <->
   forall r, In r rules -> holds r stats = false).
Proof.
  assert (E : _generate_recommendations stats = grouped_rules stats).
  { unfold _generate_recommendations, grouped_rules, rules, first_per_metric.
    cbn [about holds advice existsb metric_eqb negb andb orb].
    destruct (trend_is (v_memory_mb stats) increasing),
             (Qltb 1000 (max_of (v_memory_mb stats))),
             (Qltb (avg_of (v_memory_mb stats)) 100),
             (trend_is (v_latency_p99_ms stats) increasing),
             (Qltb 50 (avg_of (v_latency_p99_ms stats))),
             (trend_is (v_throughput_per_sec stats) decreasing),
             (Qltb (avg_of (v_throughput_per_sec stats)) 1); reflexivity. }
  split; [exact E |]. split.
  - intros Hleak. unfold _generate_recommendations. rewrite Hleak.
    destruct (trend_is (v_latency_p99_ms stats) increasing),
             (Qltb 50 (avg_of (v_latency_p99_ms stats))),
             (trend_is (v_throughput_per_sec stats) decreasing),
             (Qltb (avg_of (v_throughput_per_sec stats)) 1);
      (split; [now left | simpl; intros H;
               repeat (destruct H as [H | H]; [discriminate |]); exact H]).
  - split.
    + intros Hgen r Hin. unfold _generate_recommendations in Hgen.
      unfold rules in Hin. simpl in Hin.
      destruct (trend_is (v_memory_mb stats) increasing) eqn:E1,
               (Qltb 1000 (max_of (v_memory_mb stats))) eqn:E2,
               (Qltb (avg_of (v_memory_mb stats)) 100) eqn:E3,
               (trend_is (v_latency_p99_ms stats) increasing) eqn:E4,
               (Qltb 50 (avg_of (v_latency_p99_ms stats))) eqn:E5,
               (trend_is (v_throughput_per_sec stats) decreasing) eqn:E6,
               (Qltb (avg_of (v_throughput_per_sec stats)) 1) eqn:E7;
        try discriminate Hgen.
      repeat (destruct Hin as [<- | Hin]; [simpl; assumption |]).
      contradiction.
    + intros Hnone.
      assert (F : Forall (fun r => holds r stats = false) rules)
        by (apply Forall_forall; exact Hnone).
      unfold rules in F.
      repeat match goal with
             | H : Forall _ (_ :: _) |- _ => inversion H; subst; clear H
             end.
      cbn [holds] in *. unfold _generate_recommendations.
      repeat match goal with
             | H : _ = false |- _ => rewrite H; clear H
             end.
      reflexivity.
Qed.

(** On [leaking_stats] and on [healthy_stats]. *)
Lemma C3_witness :
  _generate_recommendations leaking_stats = grouped_rules leaking_stats /\
  (In leak_advice (_generate_recommendations leaking_stats) /\
   ~ In upsize_advice (_generate_recommendations leaking_stats)) /\
  (_generate_recommendations healthy_stats = [healthy_advice] <->
   forall r, In r rules -> holds r healthy_stats = false).
Proof.
  destruct (C3_recommendations_by_group leaking_stats) as (H1 & H2 & _).
  destruct (C3_recommendations_by_group healthy_stats) as (_ & _ & H3).
  split; [exact H1 |]. split; [apply H2; reflexivity | exact H3].
Defined.

(** C4 (the failing input): a series whose second half averages exactly
    5% more than its first half is classified "decreasing".  The change is
    5 in exact arithmetic and in double precision alike; it is neither
    below 5 in magnitude nor above 5, and falls through to the last
    branch. *)
Theorem C4_plus_five_percent_is_decreasing :
  (relative_change [100; 105] == 5)%Q /\
  _calculate_trend [100; 105]%Q = decreasing /\
  SFeqb (change_pct_double (double 100) (double 105)) (double 5) = true /\
  SFltb (SFabs (change_pct_double (double 100) (double 105))) (double 5) = false /\
  SFltb (double 5) (change_pct_double (double 100) (double 105)) = false.
Proof.
  split; [reflexivity |]. split; [reflexivity |].
  split; [vm_compute; reflexivity |]. split; vm_compute; reflexivity.
Qed.

End ProfilerAdviceTheorems.

(* ===================================================================== *)
(** * Further properties of the scorer *)
(* ===================================================================== *)

Section ScorerWalk.
Import Py Scorer.

(** A property of the accumulator that each kind of step preserves is
    preserved by the whole walk over the stages and by the two factors
    added after it. *)
Variable P : acc -> Prop.

Hypothesis P_factor :
  forall (w : Z) (text : string) (a : acc), 0 <= w -> P a -> P (add_factor w text a).
Hypothesis P_connection : forall a : acc, P a -> P (add_connection a).
Hypothesis P_count :
  forall (p : Z) (detail : string) (a : acc), 1 < p -> P a ->
    P {| complexity_score := complexity_score a + p * 5;
         connections_count := connections_count a;
         total_parallelism := total_parallelism a + (p - 1);
         complexity_factors := complexity_factors a;
         parallelism_details := (parallelism_details a ++ [detail])%list |}.

Lemma walk_check_operations (stage_name text : string)
    (ops : list (string * Z * string)) :
  Forall (fun op => 0 <= snd (fst op)) ops ->
  forall a, P a -> P (fold_left (check_operation stage_name text) ops a).
Proof.
  induction 1 as [| [[token w] label] ops Hw _ IH]; intros a Ha; simpl.
  - exact Ha.
  - apply IH. destruct (contains token text).
    + apply P_factor; [exact Hw | exact Ha].
    + exact Ha.
Qed.

Lemma walk_count_parallelism (stage_name place : string) (v : value) (a a' : acc) :
  P a -> count_parallelism stage_name place v a = Ok a' -> P a'.
Proof.
  unfold count_parallelism, bind. intros Ha.
  destruct (to_int v) as [p |]; [| discriminate].
  destruct (Z.gtb_spec p 1) as [Hp | Hp]; intros [= <-].
  - apply P_count; [lia | exact Ha].
  - exact Ha.
Qed.

Lemma walk_parallelism_in (stage_name place : string) (cfg : dict) (a a' : acc) :
  P a -> parallelism_in stage_name place cfg a = Ok a' -> P a'.
Proof.
  unfold parallelism_in. intros Ha.
  destruct (dict_get cfg "parallelism") as [v |].
  - destruct (is_number v).
    + now apply walk_count_parallelism.
    + now intros [= <-].
  - now intros [= <-].
Qed.

Lemma walk_scan_item (stage_name fk : string) (item : string * value) (a a' : acc) :
  P a -> scan_item stage_name fk a item = Ok a' -> P a'.
Proof.
  destruct item as [key v]. unfold scan_item. intros Ha.
  destruct (String.eqb key "parallelism" && is_number v).
  - now apply walk_count_parallelism.
  - destruct v as [| | | | | | cfg]; try (now intros [= <-]).
    unfold bind.
    destruct (parallelism_in stage_name key cfg a) as [a1 |] eqn:E1; [| discriminate].
    pose proof (walk_parallelism_in _ _ _ _ _ Ha E1) as Ha1.
    destruct (dict_get cfg "into") as [[| | | | | | into_config] |];
      try (now intros [= <-]).
    now apply walk_parallelism_in.
Qed.

Lemma walk_scan_items (stage_name fk : string) (items : dict) :
  forall a a', P a -> scan_items stage_name fk items a = Ok a' -> P a'.
Proof.
  induction items as [| item rest IH]; intros a a' Ha; simpl.
  - now intros [= <-].
  - unfold bind.
    destruct (scan_item stage_name fk a item) as [a1 |] eqn:E; [| discriminate].
    apply IH. now apply (walk_scan_item _ _ _ _ _ Ha E).
Qed.

(** A stage, from the accumulator its operator checks leave. *)
Lemma walk_stage_after_checks (i : nat) (stage : value) (a a' : acc) :
  P (fold_left (check_operation ("Stage " ++ str_of_Z (Z.of_nat i + 1)) (str stage))
               complex_operations a) ->
  score_stage i stage a = Ok a' -> P a'.
Proof.
  unfold score_stage, bind.
  set (stage_name := "Stage " ++ str_of_Z (Z.of_nat i + 1)).
  set (a1 := fold_left _ _ a). intros H1.
  destruct (py_in "$source" stage) as [hs |]; [| discriminate].
  assert (H2 : P (if hs then add_connection a1 else a1))
    by (destruct hs; [now apply P_connection | exact H1]).
  set (a2 := if hs then _ else _) in *.
  destruct (py_in "$merge" stage) as [hm |]; [| discriminate].
  assert (H3 : P (if hm then add_connection a2 else a2))
    by (destruct hm; [now apply P_connection | exact H2]).
  set (a3 := if hm then _ else _) in *.
  destruct (match stage with VDict d => _ | _ => Ok a3 end) as [a4 |] eqn:E4;
    [| discriminate].
  assert (H4 : P a4).
  { destruct stage; try (injection E4 as <-; exact H3).
    now apply (walk_scan_items _ _ _ _ _ H3 E4). }
  intros [= <-].
  destruct (contains "kafka" (lower (str stage))).
  - apply P_factor; [lia | exact H4].
  - exact H4.
Qed.

Lemma walk_stage (i : nat) (stage : value) (a a' : acc) :
  P a -> score_stage i stage a = Ok a' -> P a'.
Proof.
  intros Ha. apply walk_stage_after_checks.
  apply walk_check_operations; [apply complex_operations_weights | exact Ha].
Qed.

Lemma walk_stages (stages : list value) :
  forall i a a', P a -> score_stages i stages a = Ok a' -> P a'.
Proof.
  induction stages as [| stage rest IH]; intros i a a' Ha; simpl.
  - now intros [= <-].
  - unfold bind.
    destruct (score_stage i stage a) as [a1 |] eqn:E; [| discriminate].
    apply IH. now apply (walk_stage _ _ _ _ Ha E).
Qed.

Lemma walk_factors (n : Z) (a : acc) :
  P a -> P (connection_factor (length_factor n a)).
Proof.
  intros Ha.
  assert (Hl : P (length_factor n a)).
  { unfold length_factor.
    destruct (n >? 8); [apply P_factor; [lia | exact Ha] |].
    destruct (n >? 5); [apply P_factor; [lia | exact Ha] |].
    destruct (n >? 3); [apply P_factor; [lia | exact Ha] | exact Ha]. }
  unfold connection_factor.
  destruct (connections_count _ >? 4); [apply P_factor; [lia | exact Hl] |].
  destruct (connections_count _ >? 2); [apply P_factor; [lia | exact Hl] | exact Hl].
Qed.

End ScorerWalk.

Section ScorerShape.
Import Py Scorer.

(** A full analysis is the report built from the walk over the stages of
    the document's pipeline. *)
Lemma analysed_walk (file : local_file) (api : api_reply) (r : report) (d : details) :
  analyze_processor_complexity_detailed file api = Ok r ->
  analysis r = Analysis d ->
  exists data pipeline stages n walked,
    load_processor_data file api = Ok (Some data) /\
    get data "pipeline" (VList []) = Ok pipeline /\
    iterate pipeline = Ok stages /\
    score_stages 0 stages acc0 = Ok walked /\
    len pipeline = Ok n /\
    r = build_report n walked.
Proof.
  unfold analyze_processor_complexity_detailed.
  destruct (analyze_body file api) as [r0 |] eqn:E.
  2:{ intros [= <-]; discriminate. }
  intros [= <-] Hd. revert E. unfold analyze_body, bind.
  destruct (load_processor_data file api) as [[data |] |] eqn:L; try discriminate.
  2:{ intros [= <-]; discriminate. }
  destruct (negb (truthy data)).
  { intros [= <-]; discriminate. }
  destruct (get data "pipeline" (VList [])) as [pipeline |] eqn:G; [| discriminate].
  unfold score_pipeline, bind.
  destruct (iterate pipeline) as [stages |] eqn:I; [| discriminate].
  destruct (score_stages 0 stages acc0) as [walked |] eqn:W; [| discriminate].
  destruct (len pipeline) as [n |] eqn:N; [| discriminate].
  intros [= <-]. exists data, pipeline, stages, n, walked. repeat split; assumption || reflexivity.
Qed.

(** The details of a report, read off the final accumulator. *)
Lemma details_of_report (n : Z) (walked : acc) (d : details) :
  analysis (build_report n walked) = Analysis d ->
  let a := connection_factor (length_factor n walked) in
  d_complexity_score d = complexity_score a /\
  d_total_parallelism d = total_parallelism a /\
  d_complexity_factors d = complexity_factors a /\
  d_complexity_tier d = fst (complexity_tier (complexity_score a)) /\
  d_parallelism_tier d = min_tier_from_parallelism (total_parallelism a) /\
  recommended_tier (build_report n walked) =
    final_tier (d_complexity_tier d) (d_parallelism_tier d).
Proof.
  intros Hd a. destruct (build_report_fields n walked) as [Hrep Han].
  fold a in Hrep, Han. rewrite Han in Hd. injection Hd as <-.
  rewrite Hrep. simpl. repeat split; reflexivity.
Qed.



End ScorerShape.

Section ScorerText.
Import Py Scorer.

Lemma append_assoc (a b c : string) : (a ++ b) ++ c = a ++ b ++ c.
Proof. induction a as [| x a IH]; simpl; [reflexivity | now rewrite IH]. Qed.

Lemma prefix_app (n t : string) : prefix n (n ++ t) = true.
Proof.
  induction n as [| c n IH]; simpl.
  - now destruct t.
  - destruct (ascii_dec c c) as [_ | H]; [exact IH | contradiction].
Qed.

Lemma contains_unfold (n hay : string) :
  contains n hay =
  prefix n hay || match hay with
                  | EmptyString => false
                  | String _ t => contains n t
                  end.
Proof. destruct hay; reflexivity. Qed.

(** A text that holds [n] somewhere contains it. *)
Lemma contains_app (n pre post : string) : contains n (pre ++ n ++ post) = true.
Proof.
  induction pre as [| c pre IH].
  - rewrite contains_unfold. cbn [append]. now rewrite prefix_app.
  - cbn [append]. rewrite contains_unfold, IH. apply orb_true_r.
Qed.

Lemma concat_holds (sep x : string) (l : list string) :
  In x l -> exists pre post, String.concat sep l = pre ++ x ++ post.
Proof.
  induction l as [| y l IH]; [contradiction |].
  intros [-> | H].
  - destruct l as [| z l].
    + exists EmptyString, EmptyString. simpl.
      induction x as [| c x IHx]; simpl; [reflexivity | now rewrite <- IHx].
    + exists EmptyString, (sep ++ String.concat sep (z :: l)). reflexivity.
  - destruct (IH H) as (pre & post & E).
    destruct l as [| z l]; [contradiction |].
    exists (y ++ sep ++ pre), post.
    change (String.concat sep (y :: z :: l))
      with (y ++ sep ++ String.concat sep (z :: l)).
    rewrite E. now rewrite !append_assoc.
Qed.

Lemma dict_get_in (d : dict) (k : string) (v : value) :
  dict_get d k = Some v -> In (k, v) d.
Proof.
  induction d as [| [k' v'] d IH]; simpl; [discriminate |].
  destruct (String.eqb_spec k' k) as [-> | Hk].
  - intros [= ->]. now left.
  - intros H. right. now apply IH.
Qed.

(** The text of a mapping holds the [repr] of each of its keys. *)
Lemma key_in_text (d : dict) (k : string) :
  dict_has d k = true ->
  exists pre post, str (VDict d) = pre ++ repr_str k ++ post.
Proof.
  unfold dict_has. destruct (dict_get d k) as [v |] eqn:E; [| discriminate].
  intros _. apply dict_get_in in E.
  set (item := fun kv : string * value =>
                 match kv with (k0, x) => repr_str k0 ++ ": " ++ repr x end).
  assert (Hin : In (item (k, v)) (map item d)) by now apply in_map.
  destruct (concat_holds ", " _ _ Hin) as (pre & post & Hc).
  exists ("{" ++ pre), (": " ++ repr v ++ post ++ "}").
  cbn [str repr]. fold item. rewrite Hc. unfold item.
  now rewrite !append_assoc.
Qed.

(** A stage with one of the six operator tokens among its keys has the
    token in its text. *)
Lemma operator_key_in_text (stage : dict) (token label : string) (w : Z) :
  In (token, w, label) complex_operations ->
  dict_has stage token = true ->
  contains token (str (VDict stage)) = true.
Proof.
  intros Hop Hk. destruct (key_in_text stage token Hk) as (pre & post & ->).
  assert (Hr : repr_str token = String squote (token ++ String squote EmptyString)).
  { unfold complex_operations in Hop. simpl in Hop.
    repeat (destruct Hop as [[= <- _ _] | Hop]; [reflexivity |]).
    contradiction. }
  rewrite Hr.
  change (pre ++ String squote (token ++ String squote EmptyString) ++ post)
    with (pre ++ (String squote EmptyString ++ (token ++ String squote EmptyString)) ++ post).
  rewrite !append_assoc. rewrite <- (append_assoc pre).
  apply contains_app.
Qed.

Lemma charged_after_checks (stage_name text token label : string) (w : Z)
    (ops : list (string * Z * string)) :
  Forall (fun op => 0 <= snd (fst op)) ops ->
  In (token, w, label) ops ->
  contains token text = true ->
  forall a, 0 <= complexity_score a ->
    charged (factor_text stage_name label w) w
            (fold_left (check_operation stage_name text) ops a).
Proof.
  intros Hw. induction Hw as [| [[token' w'] label'] ops Hw' Hws IH];
    intros Hin Hc a Ha; [contradiction |].
  assert (Hkeep : forall b, charged (factor_text stage_name label w) w b ->
            charged (factor_text stage_name label w) w
              (fold_left (check_operation stage_name text) ops b)).
  { intros b Hb. apply walk_check_operations; [| exact Hws | exact Hb].
    unfold charged, add_factor; simpl. intros w0 t0 a0 Hw0 [H1 H2].
    split; [apply in_or_app; now left | lia]. }
  assert (Hpos : forall b, 0 <= complexity_score b ->
            0 <= complexity_score (check_operation stage_name text b (token', w', label'))).
  { intros b Hb. simpl. simpl in Hw'.
    destruct (contains token' text); simpl; lia. }
  simpl fold_left. destruct Hin as [[= -> -> ->] | Hin].
  - apply Hkeep. unfold check_operation. rewrite Hc.
    unfold charged, add_factor; simpl. split; [apply in_or_app; right; now left | lia].
  - apply IH; [exact Hin | exact Hc |]. now apply Hpos.
Qed.

(** The operator checks of stage [k] of the part of the walk that starts
    at index [j] leave their mark on the whole walk. *)
Lemma charged_walk (token label : string) (w : Z) (stage : value) :
  In (token, w, label) complex_operations ->
  contains token (str stage) = true ->
  forall stages k j a walked,
    nth_error stages k = Some stage ->
    0 <= complexity_score a ->
    score_stages j stages a = Ok walked ->
    charged (factor_text ("Stage " ++ str_of_Z (Z.of_nat (j + k) + 1)) label w) w walked.
Proof.
  intros Hop Hc.
  assert (Hw : 0 <= w).
  { pose proof complex_operations_weights as H.
    rewrite Forall_forall in H. exact (H _ Hop). }
  induction stages as [| s rest IH]; intros k j a walked Hn Ha; [now destruct k |].
  simpl. unfold bind.
  destruct (score_stage j s a) as [a1 |] eqn:E; [| discriminate].
  destruct k as [| k]; simpl in Hn.
  - injection Hn as ->. rewrite Nat.add_0_r. intros W.
    set (text := factor_text _ label w).
    assert (Hf : forall w0 t0 a0, 0 <= w0 -> charged text w a0 ->
                   charged text w (add_factor w0 t0 a0)).
    { unfold charged, add_factor; simpl. intros w0 t0 a0 Hw0 [H1 H2].
      split; [apply in_or_app; now left | lia]. }
    assert (Hcn : forall a0, charged text w a0 -> charged text w (add_connection a0))
      by (unfold charged, add_connection; simpl; tauto).
    assert (Hp : forall p detail a0, 1 < p -> charged text w a0 ->
              charged text w
                {| complexity_score := complexity_score a0 + p * 5;
                   connections_count := connections_count a0;
                   total_parallelism := total_parallelism a0 + (p - 1);
                   complexity_factors := complexity_factors a0;
                   parallelism_details := (parallelism_details a0 ++ [detail])%list |})
      by (unfold charged; simpl; intros p detail a0 Hp [H1 H2]; split; [exact H1 | lia]).
    apply (walk_stages (charged text w) Hf Hcn Hp rest (S j) a1 walked); [| exact W].
    apply (walk_stage_after_checks (charged text w) Hf Hcn Hp j stage a); [| exact E].
    unfold text.
    apply (charged_after_checks _ (str stage) token label w complex_operations);
      [apply complex_operations_weights | exact Hop | exact Hc | exact Ha].
  - intros W. replace (j + S k)%nat with (S j + k)%nat by lia.
    apply (IH k (S j) a1 walked Hn); [| exact W].
    refine (walk_stage (fun b => 0 <= complexity_score b) _ _ _ j s a a1 Ha E).
    + unfold add_factor; simpl; intros; lia.
    + unfold add_connection; simpl; intros; lia.
    + simpl; intros; lia.
Qed.

End ScorerText.

Section ScorerMore.
Import Py Scorer.



(** X3: a stage that has one of the six scored operators among
    its keys is always charged for it.  When stage number [i + 1] of the
    pipeline in the local file is a mapping with the key [token] and the
    analysis completes, the complexity factors list that stage with the
    operator's label and weight, and the score is at least the weight. *)
Theorem operator_stage_is_charged
    (processor stage : dict) (stages : list value) (api : api_reply) (i : nat)
    (token label : string) (w : Z) (r : report) (d : details) :
  In (token, w, label) complex_operations ->
  dict_get processor "pipeline" = Some (VList stages) ->
  nth_error stages i = Some (VDict stage) ->
  dict_has stage token = true ->
  analyze_processor_complexity_detailed (FileHolds (VDict processor)) api = Ok r ->
  analysis r = Analysis d ->
  In (factor_text ("Stage " ++ str_of_Z (Z.of_nat i + 1)) label w)
     (d_complexity_factors d) /\
  w <= d_complexity_score d.
Proof.
  intros Hop Hp Hn Hk Hr Hd.
  destruct (analysed_walk _ _ _ _ Hr Hd)
    as (data & pipeline & stages' & n & walked & Hl & Hg & Hi & W & _ & ->).
  simpl in Hl. injection Hl as <-.
  unfold get in Hg. rewrite Hp in Hg. injection Hg as <-.
  simpl in Hi. injection Hi as <-.
  destruct (details_of_report n walked d Hd) as (-> & _ & -> & _).
  set (text := factor_text _ label w).
  assert (Hc : charged text w walked).
  { apply (charged_walk token label w (VDict stage) Hop
             (operator_key_in_text stage token label w Hop Hk)
             stages i 0%nat acc0 walked Hn); [simpl; lia | exact W]. }
  assert (Hf : charged text w (connection_factor (length_factor n walked))).
  { apply walk_factors; [| exact Hc].
    unfold charged, add_factor; simpl. intros w0 t0 a0 Hw0 [H1 H2].
    split; [apply in_or_app; now left | lia]. }
  exact Hf.
Qed.

(** A lookup as the second of three stages. *)
Lemma operator_stage_is_charged_witness :
  exists r d,
    analyze_processor_complexity_detailed (FileHolds (VDict lookup_processor))
      RequestFails = Ok r /\
    analysis r = Analysis d /\
    In (factor_text ("Stage " ++ str_of_Z (Z.of_nat 1 + 1)) "Lookup/join operation" 20)
       (d_complexity_factors d) /\
    20 <= d_complexity_score d.
Proof.
  eexists. eexists.
  split; [vm_compute; reflexivity |]. split; [reflexivity |].
  eapply (operator_stage_is_charged lookup_processor lookup_stage _ RequestFails 1
            "$lookup" "Lookup/join operation" 20).
  - unfold complex_operations. simpl. tauto.
  - reflexivity.
  - reflexivity.
  - reflexivity.
  - vm_compute; reflexivity.
  - reflexivity.
Defined.

(** X4: a document that has no ["pipeline"] key is not an
    error.  A non-empty document without the key is scored as an empty
    pipeline: no stages, no factors, 0 points, tier SP2.  Only the empty
    document counts as "not found" and gets the default SP10. *)
Theorem missing_pipeline_scores_SP2 (processor : dict) (api : api_reply) :
  processor <> [] ->
  dict_get processor "pipeline" = None ->
  (exists r d,
     analyze_processor_complexity_detailed (FileHolds (VDict processor)) api = Ok r /\
     analysis r = Analysis d /\
     recommended_tier r = SP2 /\
     d_complexity_score d = 0 /\
     d_pipeline_stages d = 0 /\
     d_complexity_factors d = []) /\
  analyze_processor_complexity_detailed (FileHolds (VDict [])) api = Ok missing_report.
Proof.
  intros Hne Hp. split; [| reflexivity].
  unfold analyze_processor_complexity_detailed, analyze_body.
  cbn [load_processor_data bind].
  assert (Ht : truthy (VDict processor) = true)
    by (destruct processor; [contradiction | reflexivity]).
  rewrite Ht. cbn [negb]. unfold get. rewrite Hp.
  eexists. eexists. split; [vm_compute; reflexivity |].
  repeat split; reflexivity.
Qed.

(** A document that only names the processor. *)
Lemma missing_pipeline_scores_SP2_witness :
  (exists r d,
     analyze_processor_complexity_detailed
       (FileHolds (VDict [("name", VStr "solar")])) RequestFails = Ok r /\
     analysis r = Analysis d /\
     recommended_tier r = SP2 /\
     d_complexity_score d = 0 /\
     d_pipeline_stages d = 0 /\
     d_complexity_factors d = []) /\
  analyze_processor_complexity_detailed (FileHolds (VDict [])) RequestFails
    = Ok missing_report.
Proof.
  apply (missing_pipeline_scores_SP2 [("name", VStr "solar")] RequestFails).
  - discriminate.
  - reflexivity.
Defined.

End ScorerMore.

Section ScorerWindows.
Import Py Scorer.

Lemma clash_prefix (s n x : string) :
  clash s n = true -> prefix n (s ++ x) = false.
Proof.
  revert n. induction s as [| c s IH]; intros n; simpl; [discriminate |].
  destruct n as [| a n]; [discriminate |]. simpl.
  destruct (Ascii.eqb_spec c a) as [-> | Hca]; simpl.
  - intros H. destruct (ascii_dec a a) as [_ | Hn]; [now apply IH | contradiction].
  - intros _. destruct (ascii_dec a c) as [-> | _]; [contradiction | reflexivity].
Qed.

Lemma apart_contains (n p x : string) :
  apart n p = true -> contains n (p ++ x) = contains n x.
Proof.
  induction p as [| c p IH]; [reflexivity |].
  cbn [apart]. intros H. apply andb_true_iff in H. destruct H as [Hc Hp].
  change (String c p ++ x) with (String c (p ++ x)).
  rewrite contains_unfold.
  change (String c (p ++ x)) with (String c p ++ x) at 1.
  rewrite (clash_prefix _ _ x Hc). now apply IH.
Qed.

Lemma prefix_snoc (c : ascii) (n x : string) :
  has_char c n = false ->
  prefix n (x ++ String c EmptyString) = prefix n x.
Proof.
  revert x. induction n as [| a n IH]; intros x H.
  - now destruct x.
  - simpl in H. apply orb_false_iff in H. destruct H as [Hac Hn].
    destruct x as [| b x]; simpl.
    + destruct (ascii_dec a c) as [-> | _]; [| reflexivity].
      rewrite Ascii.eqb_refl in Hac. discriminate.
    + destruct (ascii_dec a b); [now apply IH | reflexivity].
Qed.

(** A character that [n] does not have can be dropped from the end. *)
Lemma contains_snoc (c : ascii) (n x : string) :
  has_char c n = false -> n <> EmptyString ->
  contains n (x ++ String c EmptyString) = contains n x.
Proof.
  intros H Hn. induction x as [| b x IH].
  - destruct n as [| a n]; [contradiction |].
    simpl in H. apply orb_false_iff in H. destruct H as [Hac _].
    simpl. destruct (ascii_dec a c) as [-> | _]; [| reflexivity].
    rewrite Ascii.eqb_refl in Hac. discriminate.
  - change (String b x ++ String c EmptyString)
      with (String b (x ++ String c EmptyString)).
    rewrite (contains_unfold n (String b x)), contains_unfold, IH.
    change (String b (x ++ String c EmptyString))
      with (String b x ++ String c EmptyString).
    now rewrite prefix_snoc.
Qed.

Lemma lower_app (a b : string) : lower (a ++ b) = lower a ++ lower b.
Proof. induction a as [| c a IH]; simpl; [reflexivity | now rewrite IH]. Qed.

(** The text of a stage with a single operator. *)
Lemma singleton_text (k : string) (v : value) :
  str (VDict [(k, v)]) = ("{" ++ repr_str k ++ ": ") ++ repr v ++ "}".
Proof.
  cbn [str repr map String.concat]. now rewrite !append_assoc.
Qed.

(** A window operator brings none of the scored texts into its stage. *)
Lemma window_text_holds (op : string) (win : dict) :
  In op window_operators ->
  text_holds [] (VDict win) ->
  text_holds [] (VDict [(op, VDict win)]).
Proof.
  intros Hop [Htok Hkafka]. cbn [str] in Htok, Hkafka.
  unfold text_holds.
  rewrite singleton_text.
  set (R := repr (VDict win)) in *. clearbody R.
  split.
  - intros tok Hin. specialize (Htok tok Hin). cbn [existsb] in *.
    unfold window_operators in Hop. unfold tokens, complex_operations in Hin.
    simpl in Hop, Hin.
    assert (Hb : has_char "}" tok = false /\ tok <> EmptyString /\
                 apart tok ("{" ++ repr_str op ++ ": ") = true).
    { repeat (destruct Hop as [<- | Hop]; [
        repeat (destruct Hin as [<- | Hin];
                [repeat split; (reflexivity || discriminate) |]);
        contradiction |]).
      contradiction. }
    destruct Hb as (H1 & H2 & H3).
    rewrite (apart_contains _ _ _ H3), (contains_snoc _ _ _ H1 H2). exact Htok.
  - rewrite (lower_app ("{" ++ repr_str op ++ ": ") (R ++ "}")), (lower_app R "}").
    assert (Hb : apart "kafka" (lower ("{" ++ repr_str op ++ ": ")) = true).
    { unfold window_operators in Hop. simpl in Hop.
      repeat (destruct Hop as [<- | Hop]; [reflexivity |]). contradiction. }
    rewrite (apart_contains _ _ _ Hb).
    change (lower "}") with "}".
    rewrite contains_snoc; [exact Hkafka | reflexivity | discriminate].
Qed.

End ScorerWindows.

Section ScorerWindowTheorems.
Import Py Scorer.

(** One stage of the walk, its text described by [text_holds]. *)
Ltac walk_one H :=
  unfold score_stage at 1;
  rewrite (checks_of_text _ _ _ _ H);
  let K := fresh "K" in
  destruct H as [_ K]; rewrite K; clear K;
  cbn [py_in dict_has dict_get String.eqb Ascii.eqb Bool.eqb bind first_key
       scan_items scan_item andb is_number].

(** X5: the window operators are not scored as window
    processing.  The 30-point check looks for the text [$window], which
    none of [$tumblingWindow], [$hoppingWindow] and [$sessionWindow]
    contains (their W is a capital).  A pipeline of a source, one such
    window stage and a merge, in which no configuration holds a scored
    text or sets a parallelism, scores 0 points with no factor and is
    given the lowest tier, SP2. *)
Theorem window_stage_scores_nothing
    (processor src win mrg into : dict) (op : string) (api : api_reply) :
  In op window_operators ->
  dict_get processor "pipeline" = Some (windowed op src win mrg) ->
  text_holds [] (VDict [("$source", VDict src)]) ->
  text_holds [] (VDict win) ->
  text_holds [] (VDict [("$merge", VDict mrg)]) ->
  no_parallelism src -> no_parallelism win ->
  dict_get mrg "parallelism" = None ->
  dict_get mrg "into" = Some (VDict into) ->
  dict_get into "parallelism" = None ->
  exists r d,
    analyze_processor_complexity_detailed (FileHolds (VDict processor)) api = Ok r /\
    analysis r = Analysis d /\
    d_complexity_score d = 0 /\
    d_complexity_factors d = [] /\
    d_pipeline_stages d = 3 /\
    recommended_tier r = SP2.
Proof.
  intros Hop Hp H1 Hw H3 [Ps Is] [Pw Iw] Pm Im Pi.
  pose proof (window_text_holds op win Hop Hw) as H2.
  unfold analyze_processor_complexity_detailed, analyze_body.
  cbn [load_processor_data bind].
  assert (Ht : truthy (VDict processor) = true)
    by (destruct processor; [discriminate | reflexivity]).
  rewrite Ht. cbn [negb]. unfold get. rewrite Hp.
  unfold score_pipeline, windowed. cbn [iterate bind len List.length].
  cbn [score_stages].
  walk_one H1. unfold parallelism_in at 1. rewrite Ps, Is. cbn [bind].
  unfold window_operators in Hop. simpl in Hop.
  destruct Hop as [<- | [<- | [<- | []]]];
    (walk_one H2; unfold parallelism_in at 1; rewrite Pw, Iw; cbn [bind];
     walk_one H3; unfold parallelism_in; rewrite Pm, Im, Pi;
     eexists; eexists; split; [vm_compute; reflexivity |];
     repeat split; reflexivity).
Qed.

(** A ten-second tumbling window between a source and a merge. *)
Lemma window_stage_scores_nothing_witness :
  exists r d,
    analyze_processor_complexity_detailed (FileHolds (VDict windowed_processor))
      RequestFails = Ok r /\
    analysis r = Analysis d /\
    d_complexity_score d = 0 /\
    d_complexity_factors d = [] /\
    d_pipeline_stages d = 3 /\
    recommended_tier r = SP2.
Proof.
  eapply (window_stage_scores_nothing windowed_processor
            [("connectionName", VStr "sample_stream_solar")]
            window_configuration
            [("into", VDict [("connectionName", VStr "Cluster01");
                             ("db", VStr "solar");
                             ("coll", VStr "windows")])]
            [("connectionName", VStr "Cluster01");
             ("db", VStr "solar");
             ("coll", VStr "windows")]
            "$tumblingWindow" RequestFails).
  - left; reflexivity.
  - reflexivity.
  - split; [| vm_compute; reflexivity].
    intros tok Hin. unfold tokens, complex_operations in Hin. simpl in Hin.
    repeat (destruct Hin as [<- | Hin]; [vm_compute; reflexivity |]). contradiction.
  - split; [| vm_compute; reflexivity].
    intros tok Hin. unfold tokens, complex_operations in Hin. simpl in Hin.
    repeat (destruct Hin as [<- | Hin]; [vm_compute; reflexivity |]). contradiction.
  - split; [| vm_compute; reflexivity].
    intros tok Hin. unfold tokens, complex_operations in Hin. simpl in Hin.
    repeat (destruct Hin as [<- | Hin]; [vm_compute; reflexivity |]). contradiction.
  - split; reflexivity.
  - split; reflexivity.
  - reflexivity.
  - reflexivity.
  - reflexivity.
Defined.

End ScorerWindowTheorems.

(* ===================================================================== *)
(** * Further properties of the tier-violation error parser *)
(* ===================================================================== *)

Section TierErrorSearch.
Import Py TierError.

Lemma digits_of_all_digits (s : string) : all_digits (digits_of s) = true.
Proof.
  induction s as [| c t IH]; simpl; [reflexivity |].
  destruct (is_digit c) eqn:E; simpl; [now rewrite E | reflexivity].
Qed.

Lemma digits_of_app (ds post : string) :
  all_digits ds = true -> digits_of post = EmptyString ->
  digits_of (ds ++ post) = ds.
Proof.
  intros H Hp. induction ds as [| c t IH]; simpl; [exact Hp |].
  simpl in H. apply andb_true_iff in H. destruct H as [Hc Ht].
  rewrite Hc. now rewrite IH.
Qed.

(** What [re_search] returns is a non-empty run of digits. *)
Lemma re_search_digits (lit s ds : string) :
  re_search lit s = Some ds -> ds <> EmptyString /\ all_digits ds = true.
Proof.
  induction s as [| c s IH]; simpl.
  - unfold match_here. destruct (strip lit EmptyString) as [rest |]; [| discriminate].
    pose proof (digits_of_all_digits rest) as Hd.
    destruct (digits_of rest); [discriminate |].
    intros [= <-]. split; [discriminate | exact Hd].
  - unfold match_here at 1. destruct (strip lit (String c s)) as [rest |]; [| exact IH].
    pose proof (digits_of_all_digits rest) as Hd.
    destruct (digits_of rest); [exact IH |].
    intros [= <-]. split; [discriminate | exact Hd].
Qed.

(** A literal whose first letter occurs nowhere else in it cannot be read
    across the end of the text before one of its occurrences. *)
Lemma no_overlap (m c : ascii) (l p follow rest : string) :
  has_char m l = false ->
  strip (String m l) (String c p ++ String m l ++ follow) = Some rest ->
  exists r, strip (String m l) (String c p) = Some r /\
            rest = r ++ String m l ++ follow.
Proof.
  intros Hm H.
  destruct (strip_app _ _ _ _ H) as [Hin | (l2 & Hlit & Hl2 & Hs)]; [exact Hin |].
  exfalso.
  destruct l2 as [| m' l2]; [contradiction |].
  assert (Hm' : m' = m).
  { cbn [append strip] in Hs.
    destruct (Ascii.eqb_spec m' m); [assumption | discriminate]. }
  subst m'. cbn [append] in Hlit. injection Hlit as _ Hlit.
  rewrite Hlit in Hm. now rewrite has_char_app in Hm.
Qed.

(** The leftmost match: text that matches nowhere, then the literal and
    a run of digits. *)
Lemma search_leftmost (m : ascii) (l pre follow ds : string) :
  has_char m l = false ->
  is_digit m = false ->
  ~ matches (String m l) pre ->
  digits_of follow = ds ->
  ds <> EmptyString ->
  re_search (String m l) (pre ++ String m l ++ follow) = Some ds.
Proof.
  intros Hm Hd Hpre Hds Hne. set (lit := String m l) in *.
  assert (Hhere : match_here lit (lit ++ follow) = Some ds).
  { unfold match_here.
    assert (E : strip lit (lit ++ follow) = Some follow) by now apply strip_spec.
    rewrite E, Hds. destruct ds; [contradiction | reflexivity]. }
  induction pre as [| c pre IH].
  - cbn [append]. unfold lit at 2. cbn [append re_search].
    change (String m (l ++ follow)) with (lit ++ follow). now rewrite Hhere.
  - change (String c pre ++ lit ++ follow) with (String c (pre ++ lit ++ follow)).
    cbn [re_search].
    destruct (match_here lit (String c (pre ++ lit ++ follow))) as [ds' |] eqn:E.
    + exfalso. unfold match_here in E.
      destruct (strip lit (String c (pre ++ lit ++ follow))) as [rest |] eqn:Es;
        [| discriminate].
      change (String c (pre ++ lit ++ follow))
        with (String c pre ++ String m l ++ follow) in Es.
      apply no_overlap in Es; [| exact Hm]. destruct Es as (r & Hr & ->).
      apply strip_spec in Hr.
      destruct r as [| d r].
      * unfold lit in E. cbn [append digits_of] in E. rewrite Hd in E. discriminate.
      * cbn [append digits_of] in E. destruct (is_digit d) eqn:Hdd.
        -- apply Hpre. exists EmptyString, d, r. split; [exact Hr | exact Hdd].
        -- discriminate.
    + apply IH. intros H. apply Hpre. now apply matches_tail.
Qed.

End TierErrorSearch.

Section TierErrorMore.
Import Py TierError.

(** X6: whatever the error text, a suggestion of the parser is
    the letters SP followed by at least one digit: either the tier quoted
    from the text or one of SP5, SP10, SP30, SP50.  It never returns
    other text found in the message. *)
Theorem suggestion_is_tier_shaped (error_text s : string) :
  _parse_tier_validation_error error_text = Ok (Some s) -> tier_shaped s.
Proof.
  unfold _parse_tier_validation_error, parse_body, tier_shaped.
  destruct (re_search (minimum_tier_prefix ++ "SP") error_text) as [ds |] eqn:E1.
  - intros [= <-]. exists ds. split; [reflexivity |]. now apply re_search_digits in E1.
  - destruct (re_search requested_prefix error_text) as [ds |]; [| discriminate].
    unfold bind. destruct (py_int ds) as [n |]; [| discriminate].
    intros [= <-].
    destruct (n >? 8); [exists "50"; repeat split; discriminate |].
    destruct (n >? 4); [exists "30"; repeat split; discriminate |].
    destruct (n >? 2); [exists "10"; repeat split; discriminate |].
    exists "5"; repeat split; discriminate.
Qed.

(** A rejection that quotes a tier. *)
Lemma suggestion_is_tier_shaped_witness :
  tier_shaped "SP30".
Proof.
  apply (suggestion_is_tier_shaped ("Error 400: " ++ sp30_phrase)).
  reflexivity.
Defined.

(** X7: the tier named by the first minimum-tier phrase is
    returned as written, whatever its number (a tier that does not exist
    included) and whatever else the text holds: a "Requested:" figure,
    before or after the phrase, is then not looked at. *)
Theorem first_minimum_tier_is_quoted (pre ds post : string) :
  ~ matches (minimum_tier_prefix ++ "SP") pre ->
  all_digits ds = true ->
  ds <> EmptyString ->
  digits_of post = EmptyString ->
  _parse_tier_validation_error
    (pre ++ (minimum_tier_prefix ++ "SP") ++ ds ++ post) = Ok (Some ("SP" ++ ds)).
Proof.
  intros Hpre Hds Hne Hpost.
  unfold _parse_tier_validation_error, parse_body.
  change (minimum_tier_prefix ++ "SP")
    with (String "M" "inimum tier for this workload: SP").
  rewrite (search_leftmost "M" _ pre (ds ++ post) ds);
    [reflexivity | reflexivity | reflexivity | exact Hpre
    | now apply digits_of_app | exact Hne].
Qed.

(** A rejection that asks for SP7 after reporting the requested
    parallelism. *)
Lemma first_minimum_tier_is_quoted_witness :
  _parse_tier_validation_error
    ("Requested: 12. " ++ (minimum_tier_prefix ++ "SP") ++ "7" ++ " or larger")
    = Ok (Some ("SP" ++ "7")).
Proof.
  apply (first_minimum_tier_is_quoted "Requested: 12. " "7" " or larger").
  - apply re_search_none. reflexivity.
  - reflexivity.
  - discriminate.
  - reflexivity.
Defined.

(** X8: without a minimum-tier phrase, the first "Requested:"
    figure decides: more than 8 gives SP50, 5 to 8 SP30, 3 or 4 SP10, and
    anything up to 2 (0 included) SP5.  The figure is the whole run of
    digits after the first "Requested: ". *)
Theorem requested_parallelism_bands (pre ds post : string) :
  ~ matches (minimum_tier_prefix ++ "SP") (pre ++ requested_prefix ++ ds ++ post) ->
  ~ matches requested_prefix pre ->
  all_digits ds = true ->
  ds <> EmptyString ->
  (String.length ds <= int_max_str_digits)%nat ->
  digits_of post = EmptyString ->
  let n := int_of_digits 0 ds in
  let suggestion :=
    _parse_tier_validation_error (pre ++ requested_prefix ++ ds ++ post) in
  (8 < n -> suggestion = Ok (Some "SP50")) /\
  (4 < n <= 8 -> suggestion = Ok (Some "SP30")) /\
  (2 < n <= 4 -> suggestion = Ok (Some "SP10")) /\
  (n <= 2 -> suggestion = Ok (Some "SP5")).
Proof.
  intros Hmin Hpre Hds Hne Hlen Hpost n suggestion.
  assert (E : suggestion =
              Ok (Some (if n >? 8 then "SP50"
                        else if n >? 4 then "SP30"
                        else if n >? 2 then "SP10" else "SP5"))).
  { unfold suggestion, _parse_tier_validation_error, parse_body.
    apply re_search_none in Hmin. rewrite Hmin.
    change requested_prefix with (String "R" "equested: ").
    rewrite (search_leftmost "R" _ pre (ds ++ post) ds);
      [| reflexivity | reflexivity | exact Hpre | now apply digits_of_app | exact Hne].
    unfold py_int, bind.
    replace (int_max_str_digits <? String.length ds)%nat with false
      by (symmetry; apply Nat.ltb_ge; exact Hlen).
    reflexivity. }
  rewrite E. repeat split; intros H.
  - now replace (n >? 8) with true by lia.
  - replace (n >? 8) with false by lia. now replace (n >? 4) with true by lia.
  - replace (n >? 8) with false by lia. replace (n >? 4) with false by lia.
    now replace (n >? 2) with true by lia.
  - replace (n >? 8) with false by lia. replace (n >? 4) with false by lia.
    now replace (n >? 2) with false by lia.
Qed.

(** A rejection that reports a requested parallelism of 6. *)
Lemma requested_parallelism_bands_witness :
  _parse_tier_validation_error
    ("Parallelism limit exceeded. " ++ requested_prefix ++ "6" ++ ", allowed: 4")
    = Ok (Some "SP30").
Proof.
  apply (requested_parallelism_bands "Parallelism limit exceeded. " "6" ", allowed: 4").
  - apply re_search_none. reflexivity.
  - apply re_search_none. reflexivity.
  - reflexivity.
  - discriminate.
  - unfold int_max_str_digits. simpl. lia.
  - reflexivity.
  - change (int_of_digits 0 "6") with 6. lia.
Defined.

End TierErrorMore.

(* ===================================================================== *)
(** * Properties of starting a processor *)
(* ===================================================================== *)

Section StarterFacts.
Import Py TierError Starter.

(** A suggestion of the parser is never the empty text. *)
Lemma suggestion_nonempty (error_text s : string) :
  _parse_tier_validation_error error_text = Ok (Some s) -> s <> EmptyString.
Proof.
  unfold _parse_tier_validation_error, parse_body.
  destruct (re_search (minimum_tier_prefix ++ "SP") error_text) as [ds |].
  - intros [= <-]. discriminate.
  - destruct (re_search requested_prefix error_text) as [ds |]; [| discriminate].
    unfold bind. destruct (py_int ds) as [n |]; [| discriminate].
    intros [= <-].
    destruct (n >? 8); [discriminate |].
    destruct (n >? 4); [discriminate |].
    destruct (n >? 2); discriminate.
Qed.

Lemma regular_start_accepted (world : request -> reply) (name name' message t : string)
    (tier_given : bool) :
  regular_start world name tier_given = Started name' message t ->
  name' = name /\ t = "current" /\ accepted world Start.
Proof.
  unfold regular_start, accepted.
  destruct (world Start) as [m | r]; [discriminate |].
  destruct (is_error r) eqn:E; [discriminate |].
  intros [= <- _ <-]. repeat split. now exists r.
Qed.

Lemma worth_a_retry_some (suggested : option string) (tier s : string) :
  worth_a_retry suggested tier = Some s ->
  suggested = Some s /\ s <> tier.
Proof.
  unfold worth_a_retry. destruct suggested as [s0 |]; [| discriminate].
  destruct (String.eqb_spec s0 EmptyString); simpl; [discriminate |].
  destruct (String.eqb_spec s0 tier); simpl; [discriminate |].
  intros [= <-]. now split.
Qed.

End StarterFacts.

Section StarterTheorems.
Import Py TierError Starter.

(** X9: with a workspace configured, [start_processor]
    always returns a result (it raises only the configuration error,
    before any request).  A result that reports the processor started
    names a tier the API accepted: either "current", after the regular
    start endpoint answered without an error status, or a tier whose
    [:startWith] request was answered with 200, that tier being the one
    asked for or a well-formed tier name taken from the API's rejection. *)
Theorem started_tier_was_accepted
    (base_url : option string) (world : request -> reply)
    (processor_name : string) (tier : option string) :
  (configured base_url ->
   exists res, start_processor base_url world processor_name tier = Ok res) /\
  (forall name message t,
     start_processor base_url world processor_name tier
       = Ok (Started name message t) ->
     name = processor_name /\
     ((t = "current" /\ accepted world Start) \/
      (answered_200 world (StartWith t) /\
       (tier = Some t \/
        exists rejection s,
          world (StartWith s) = Replies rejection /\
          status_code rejection = 400 /\ tier = Some s /\
          _parse_tier_validation_error (text rejection) = Ok (Some t))))).
Proof.
  split.
  - intros (a & u & ->). unfold start_processor.
    destruct tier as [[| c t] |]; try (eexists; reflexivity).
    destruct (world (StartWith (String c t))) as [m | response];
      [eexists; reflexivity |].
    destruct (status_code response =? 200); [eexists; reflexivity |].
    destruct (status_code response =? 400).
    + destruct (parse_never_raises (text response)) as (suggested & ->).
      cbn [bind]. destruct (worth_a_retry suggested (String c t)) as [s |];
        [| eexists; reflexivity].
      destruct (world (StartWith s)) as [m | retry]; [eexists; reflexivity |].
      destruct (status_code retry =? 200); eexists; reflexivity.
    + destruct (is_error response); eexists; reflexivity.
  - intros name message t. unfold start_processor.
    destruct base_url as [[| a u] |]; try discriminate.
    assert (Hreg : forall b,
              Ok (regular_start world processor_name b) = Ok (Started name message t) ->
              name = processor_name /\
              (t = "current" /\ accepted world Start \/
               answered_200 world (StartWith t) /\
               (tier = Some t \/
                exists rejection s,
                  world (StartWith s) = Replies rejection /\
                  status_code rejection = 400 /\ tier = Some s /\
                  _parse_tier_validation_error (text rejection) = Ok (Some t)))).
    { intros b [= H]. destruct (regular_start_accepted _ _ _ _ _ _ H) as (-> & -> & Ha).
      split; [reflexivity |]. left. now split. }
    destruct tier as [[| c tier] |]; try apply Hreg.
    destruct (world (StartWith (String c tier))) as [m | response] eqn:W;
      [discriminate |].
    destruct (Z.eqb_spec (status_code response) 200) as [H200 | _].
    { intros [= <- _ <-]. split; [reflexivity |]. right.
      split; [now exists response | now left]. }
    destruct (Z.eqb_spec (status_code response) 400) as [H400 | _].
    + destruct (_parse_tier_validation_error (text response))
        as [suggested |] eqn:P; [| discriminate].
      cbn [bind].
      destruct (worth_a_retry suggested (String c tier)) as [s |] eqn:R;
        [| apply Hreg].
      apply worth_a_retry_some in R. destruct R as [-> Hs].
      destruct (world (StartWith s)) as [m | retry] eqn:W2; [discriminate |].
      destruct (Z.eqb_spec (status_code retry) 200) as [Hr | _]; [| apply Hreg].
      intros [= <- _ <-]. split; [reflexivity |]. right.
      split; [now exists retry |]. right.
      exists response, (String c tier). repeat split; assumption.
    + destruct (is_error response); [discriminate | apply Hreg].
Qed.

(** X10: a tier the API rejects with status 400 is upgraded.
    When the rejection yields a suggestion that differs from the tier
    asked for, that suggestion is requested once: answered with 200 it is
    the tier reported, with a message naming both tiers; answered with
    anything else, a server error included, the regular start decides the
    outcome.  When the rejection suggests nothing, or the same tier, no
    retry is made and the regular start decides. *)
Theorem rejected_tier_is_retried
    (base_url : option string) (world : request -> reply)
    (processor_name t : string) (tier : option string) (rejection : response) :
  configured base_url ->
  given tier t ->
  world (StartWith t) = Replies rejection ->
  status_code rejection = 400 ->
  (forall s,
     _parse_tier_validation_error (text rejection) = Ok (Some s) -> s <> t ->
     (answered_200 world (StartWith s) ->
      start_processor base_url world processor_name tier =
      Ok (Started processor_name
            ("Started successfully on tier " ++ s ++ " (upgraded from " ++ t ++ ")")
            s)) /\
     (forall retry,
        world (StartWith s) = Replies retry -> status_code retry <> 200 ->
        start_processor base_url world processor_name tier =
        Ok (regular_start world processor_name true))) /\
  (_parse_tier_validation_error (text rejection) = Ok None \/
   _parse_tier_validation_error (text rejection) = Ok (Some t) ->
   start_processor base_url world processor_name tier =
   Ok (regular_start world processor_name true)).
Proof.
  intros (a & u & ->) [-> Ht] W H400.
  destruct t as [| c t]; [contradiction |].
  unfold start_processor. rewrite W, H400. cbn [Z.eqb Pos.eqb].
  split.
  - intros s P Hs. rewrite P. cbn [bind].
    assert (R : worth_a_retry (Some s) (String c t) = Some s).
    { unfold worth_a_retry.
      destruct (String.eqb_spec s EmptyString) as [-> | _].
      - now apply suggestion_nonempty in P.
      - destruct (String.eqb_spec s (String c t)); [contradiction | reflexivity]. }
    rewrite R. split.
    + intros (retry & -> & ->). reflexivity.
    + intros retry -> Hr.
      now destruct (Z.eqb_spec (status_code retry) 200).
  - intros [-> | ->]; cbn [bind worth_a_retry]; [reflexivity |].
    rewrite String.eqb_refl. now rewrite andb_false_r.
Qed.

(** A request for SP10 rejected in favour of SP30, which is accepted. *)
Lemma rejected_tier_is_retried_witness :
  start_processor (Some "https://cloud.mongodb.com/api/atlas/v2/groups/p/streams/w")
    upgrading_world "solar" (Some "SP10") =
  Ok (Started "solar"
        ("Started successfully on tier " ++ "SP30" ++ " (upgraded from " ++ "SP10" ++ ")")
        "SP30").
Proof.
  refine (proj1 (proj1
    (rejected_tier_is_retried
       (Some "https://cloud.mongodb.com/api/atlas/v2/groups/p/streams/w")
       upgrading_world "solar" "SP10" (Some "SP10")
       {| status_code := 400; text := "Error 400: " ++ sp30_phrase |}
       _ _ _ _) "SP30" _ _) _).
  - eexists. eexists. reflexivity.
  - split; [reflexivity | discriminate].
  - reflexivity.
  - reflexivity.
  - reflexivity.
  - discriminate.
  - eexists. split; reflexivity.
Defined.

End StarterTheorems.

(* ===================================================================== *)
(** * Properties of placeholder substitution *)
(* ===================================================================== *)

Section PlaceholderFacts.
Import Py Placeholders.

Lemma append_nil_r (s : string) : s ++ EmptyString = s.
Proof. induction s as [| c s IH]; simpl; [reflexivity | now rewrite IH]. Qed.

Lemma drop_app (p x : string) : drop (String.length p) (p ++ x) = x.
Proof. induction p as [| c p IH]; simpl; [now destruct x | exact IH]. Qed.

Lemma until_brace_spec (s n rest : string) :
  until_brace s = Some (n, rest) ->
  s = n ++ String close_brace rest /\ has_char close_brace n = false.
Proof.
  revert n. induction s as [| c t IH]; intros n; simpl; [discriminate |].
  destruct (Ascii.eqb_spec c close_brace) as [-> | Hc].
  - intros [= <- <-]. now split.
  - destruct (until_brace t) as [[n' rest'] |]; [| discriminate].
    intros [= <- <-]. destruct (IH n' eq_refl) as [-> Hn]. split; [reflexivity |].
    simpl. rewrite Hn.
    destruct (Ascii.eqb_spec c close_brace); [contradiction | reflexivity].
Qed.

Lemma until_brace_app (n rest : string) :
  has_char close_brace n = false ->
  until_brace (n ++ String close_brace rest) = Some (n, rest).
Proof.
  induction n as [| c n IH]; simpl; intros H; [reflexivity |].
  apply orb_false_iff in H. destruct H as [Hc Hn].
  rewrite Hc, (IH Hn). reflexivity.
Qed.

(** A match of the pattern at the start of [s] is the text [${name}]
    with a non-empty [name] that has no closing brace. *)
Lemma placeholder_spec (s name : string) :
  placeholder s = Some name ->
  exists rest, s = whole name ++ rest /\ name <> EmptyString /\
               has_char close_brace name = false.
Proof.
  unfold placeholder.
  destruct s as [| c1 [| c2 t]]; try discriminate.
  destruct (Ascii.eqb_spec c1 dollar) as [-> |]; [| discriminate].
  destruct (Ascii.eqb_spec c2 open_brace) as [-> |]; [| discriminate].
  cbn [andb].
  destruct (until_brace t) as [[[| a n] rest] |] eqn:E; try discriminate.
  intros [= <-]. apply until_brace_spec in E. destruct E as [-> Hn].
  exists rest. split; [| split; [discriminate | exact Hn]].
  unfold whole. cbn [append]. now rewrite append_assoc.
Qed.

Lemma placeholder_whole (name rest : string) :
  name <> EmptyString -> has_char close_brace name = false ->
  placeholder (whole name ++ rest) = Some name.
Proof.
  intros Hne Hn. unfold whole, placeholder. cbn [append].
  rewrite !Ascii.eqb_refl. cbn [andb].
  rewrite append_assoc. cbn [append].
  rewrite (until_brace_app name rest Hn).
  destruct name; [contradiction | reflexivity].
Qed.

(** The characters of a match are passed over. *)
Lemma skip_over (c : config) (p x : string) :
  substitute_from c (p ++ x) (String.length p) = substitute_from c x 0.
Proof.
  induction p as [| a p IH]; [reflexivity |].
  cbn [append String.length substitute_from]. exact IH.
Qed.

Lemma whole_tail (name rest : string) :
  exists p, whole name ++ rest = String dollar (p ++ rest) /\
            String.length p = (String.length name + 2)%nat.
Proof.
  exists (String open_brace (name ++ String close_brace EmptyString)).
  split.
  - unfold whole. cbn [append]. now rewrite append_assoc.
  - cbn [String.length].
    assert (H : forall a b, String.length (a ++ b)
                            = (String.length a + String.length b)%nat).
    { intros a b. induction a as [| x a IH]; simpl; [reflexivity | now rewrite IH]. }
    rewrite H. simpl. lia.
Qed.

(** Text without a dollar sign is copied. *)
Lemma copy_plain (c : config) (s x : string) :
  has_char dollar s = false ->
  substitute_from c (s ++ x) 0 = s ++ substitute_from c x 0.
Proof.
  induction s as [| a s IH]; intros H; [reflexivity |].
  simpl in H. apply orb_false_iff in H. destruct H as [Ha Hs].
  cbn [append substitute_from].
  assert (Hp : placeholder (String a (s ++ x)) = None).
  { unfold placeholder. destruct (s ++ x); [reflexivity |].
    now rewrite Ha. }
  rewrite Hp. now rewrite IH.
Qed.

End PlaceholderFacts.

Section PlaceholderTheorems.
Import Py Placeholders.

(** X11: a placeholder whose name the configuration does not hold
    is left as it is written.  A text in which no [${name}] names a
    configured value comes back unchanged; so does any text under an
    empty configuration, and any text without a dollar sign. *)
Theorem unknown_placeholders_are_kept (c : config) (text : string) :
  (forall name, contains (whole name) text = true -> config_get c name = None) ->
  _substitute_variables c text = text.
Proof.
  unfold _substitute_variables. intros H.
  change text with (drop 0 text) at 2.
  generalize 0%nat as skip. revert H.
  induction text as [| a t IH]; intros H skip; [now destruct skip |].
  assert (Ht : forall name, contains (whole name) t = true -> config_get c name = None).
  { intros name Hc. apply H. rewrite contains_unfold, Hc. apply orb_true_r. }
  cbn [substitute_from]. destruct skip as [| k]; [| now apply IH].
  destruct (placeholder (String a t)) as [name |] eqn:E.
  - destruct (placeholder_spec _ _ E) as (rest & Hs & _ & _).
    assert (Hn : config_get c name = None).
    { apply H. rewrite Hs, contains_unfold, prefix_app. reflexivity. }
    unfold replace_var. rewrite Hn.
    rewrite (IH Ht). destruct (whole_tail name rest) as (p & Hw & Hl).
    rewrite Hw in Hs. injection Hs as -> ->.
    rewrite <- Hl, drop_app. cbn [drop]. now rewrite <- Hw.
  - rewrite (IH Ht). reflexivity.
Qed.

(** A text with a placeholder, under a configuration that does not hold
    it. *)
Lemma unknown_placeholders_are_kept_witness :
  _substitute_variables [("PROJECT_ID", "p1")]
    "mongodb://${USER}@host/${DB}" = "mongodb://${USER}@host/${DB}".
Proof.
  apply (unknown_placeholders_are_kept [("PROJECT_ID", "p1")]
           "mongodb://${USER}@host/${DB}").
  intros name H. unfold config_get.
  destruct (String.eqb_spec "PROJECT_ID" name) as [<- | _]; [| reflexivity].
  vm_compute in H. discriminate H.
Defined.

(** X12: the first placeholder whose name is configured is
    replaced by the configured value, once.  The text before it (here
    free of dollar signs) is copied, the value is inserted as it is, not
    scanned again for placeholders, and substitution goes on behind the
    closing brace. *)
Theorem placeholder_is_expanded (c : config) (pre name v post : string) :
  has_char dollar pre = false ->
  name <> EmptyString ->
  has_char close_brace name = false ->
  config_get c name = Some v ->
  _substitute_variables c (pre ++ whole name ++ post)
    = pre ++ v ++ _substitute_variables c post.
Proof.
  intros Hpre Hne Hn Hv. unfold _substitute_variables.
  rewrite (copy_plain c pre _ Hpre). f_equal.
  pose proof (placeholder_whole name post Hne Hn) as Hp.
  destruct (whole_tail name post) as (p & Hw & Hl).
  rewrite Hw in *. cbn [substitute_from]. rewrite Hp.
  unfold replace_var. rewrite Hv. f_equal.
  rewrite <- Hl. apply skip_over.
Qed.

(** A value that itself looks like a placeholder is inserted as it is. *)
Lemma placeholder_is_expanded_witness :
  _substitute_variables [("A", "${B}"); ("B", "b")] ("x=" ++ whole "A" ++ ";")
    = "x=" ++ "${B}" ++ _substitute_variables [("A", "${B}"); ("B", "b")] ";".
Proof.
  apply (placeholder_is_expanded [("A", "${B}"); ("B", "b")] "x=" "A" "${B}" ";").
  - reflexivity.
  - discriminate.
  - reflexivity.
  - reflexivity.
Defined.

End PlaceholderTheorems.

(* ===================================================================== *)
(** * Further properties of the quick validator *)
(* ===================================================================== *)

Section ValidatorPreserved.
Import Py Validator.

Lemma preserves_ret (P : outcome -> Prop) {A : Type} (a : A) : preserves P (ret a).
Proof. intros o H. exact H. Qed.

Lemma preserves_lift (P : outcome -> Prop) {A : Type} (r : result A) :
  preserves P (lift r).
Proof. intros o H. exact H. Qed.

Lemma preserves_bind (P : outcome -> Prop) {A B : Type} (m : M A) (k : A -> M B) :
  preserves P m -> (forall a, preserves P (k a)) -> preserves P (vbind m k).
Proof.
  intros Hm Hk o H. unfold vbind. specialize (Hm o H).
  destruct (m o) as [o1 [a |]]; simpl in *; [now apply Hk | exact Hm].
Qed.

Lemma preserves_when (P : outcome -> Prop) (b : bool) (m : M unit) :
  preserves P m -> preserves P (when b m).
Proof. intros H. destruct b; simpl; [exact H | apply preserves_ret]. Qed.

(** The checks after Test 4 only warn: a property that warnings preserve
    is preserved by them. *)
Variable P : outcome -> Prop.
Hypothesis P_warning : forall msg, preserves P (add_warning msg).

Ltac preserves_steps :=
  repeat first
    [ apply preserves_ret | apply preserves_lift | apply P_warning
    | apply preserves_when
    | apply preserves_bind; [| intros ?] ].

Lemma preserves_check_stage (c : list string) (stage : value) :
  preserves P (check_stage c stage).
Proof.
  unfold check_stage, check_source, check_merge, check_emit, check_connection.
  preserves_steps.
Qed.

Lemma preserves_check_stages (c : list string) (stages : list value) :
  preserves P (check_stages c stages).
Proof.
  induction stages as [| stage rest IH]; simpl.
  - apply preserves_ret.
  - apply preserves_bind; [apply preserves_check_stage | intros _; exact IH].
Qed.

Lemma preserves_check_name (stem : string) (processor : value) :
  preserves P (check_name stem processor).
Proof. unfold check_name. preserves_steps. Qed.

(** With the errors preserving it too, the whole validation does. *)
Hypothesis P_error : forall msg, preserves P (add_error msg).

Lemma preserves_check_pipeline (processor : value) :
  preserves P (check_pipeline processor).
Proof.
  unfold check_pipeline.
  repeat first
    [ apply preserves_ret | apply preserves_lift | apply P_warning | apply P_error
    | apply preserves_when
    | apply preserves_bind; [| intros ?] ].
Qed.

Lemma preserves_validate (path stem : string) (content : result value)
    (c : list string) :
  P {| file := path; valid := true; errors := []; warnings := [] |} ->
  P (validate_processor_file path stem content c).
Proof.
  intros H0. unfold validate_processor_file.
  set (start := {| file := path; valid := true; errors := []; warnings := [] |}) in *.
  assert (Hrun : preserves P (vbind (lift content)
                                (fun processor => validate_body stem c processor))).
  { apply preserves_bind; [apply preserves_lift | intros processor].
    unfold validate_body.
    apply preserves_bind; [apply preserves_check_pipeline | intros stages].
    apply preserves_bind; [apply preserves_check_stages | intros _].
    apply preserves_check_name. }
  specialize (Hrun start H0).
  destruct (vbind (lift content) _ start) as [o [[] | e]]; simpl in *; [exact Hrun |].
  destruct e; now apply P_error.
Qed.

End ValidatorPreserved.

Section ValidatorShape.
Import Py Validator.

Lemma check_name_fine (stem : string) (processor : dict) :
  fine (check_name stem (VDict processor)).
Proof.
  intros o. unfold check_name, vbind, lift, when, getitem, py_in, dict_has.
  destruct (dict_get processor "name") as [v |]; simpl; [| reflexivity].
  destruct (differs v stem); reflexivity.
Qed.

Lemma has_output_outputs (stages : list value) :
  forallb stage_ok stages = true ->
  has_output stages = Ok (existsb outputs stages).
Proof.
  induction stages as [| stage rest IH]; simpl; intros H; [reflexivity |].
  apply andb_true_iff in H. destruct H as [Hs Hr].
  destruct stage as [| | | | | | d]; try discriminate. simpl.
  destruct (dict_has d "$merge"); [reflexivity |].
  destruct (dict_has d "$emit"); [reflexivity | now apply IH].
Qed.

(** Tests 2 to 4 on a processor with a non-empty pipeline of well-formed
    stages: at most the first-stage error and the output warning. *)
Lemma check_pipeline_wellformed (processor : dict) (first : value)
    (rest : list value) (o : outcome) :
  dict_get processor "pipeline" = Some (VList (first :: rest)) ->
  forallb stage_ok (first :: rest) = true ->
  check_pipeline (VDict processor) o =
  (let o1 := if starts_with_source first then o
             else fst (add_error "First pipeline stage must be '$source'" o) in
   if existsb outputs (first :: rest) then o1
   else fst (add_warning "No output stage found ($merge, $emit)" o1),
   Ok (first :: rest)).
Proof.
  intros Hp Hok.
  pose proof (has_output_outputs _ Hok) as Hout.
  unfold check_pipeline, vbind, lift, when, ret, py_in, get, dict_has.
  rewrite Hp. cbn [negb is_list len List.length truthy item0 iterate].
  replace (Z.of_nat (S (List.length rest)) =? 0) with false
    by (symmetry; apply Z.eqb_neq; lia).
  rewrite Hout.
  cbn [forallb] in Hok. apply andb_true_iff in Hok. destruct Hok as [Hf _].
  destruct first as [| | | | | | fd]; try discriminate.
  cbn [starts_with_source]. fold (dict_has fd "$source").
  destruct (dict_has fd "$source"); cbn [negb];
    destruct (existsb outputs (VDict fd :: rest)); reflexivity.
Qed.

(** What follows Test 4 on such a processor returns normally. *)
Lemma later_checks_run (stem : string) (c : list string) (processor : dict)
    (stages : list value) (o : outcome) :
  forallb stage_ok stages = true ->
  snd (vbind (check_stages c stages) (fun _ => check_name stem (VDict processor)) o)
    = Ok tt.
Proof.
  intros Hok.
  apply (seq_fine _ _ (check_stages_fine c stages Hok) (check_name_fine stem processor)).
Qed.

Lemma lift_bind {A B : Type} (r : result A) (k : A -> M B) (o : outcome) :
  vbind (lift r) k o = match r with
                       | Ok a => k a o
                       | Raise e => (o, Raise e)
                       end.
Proof. unfold vbind, lift. now destruct r. Qed.

Lemma bind_assoc {A B C : Type} (m : M A) (f : A -> M B) (k : B -> M C)
    (o : outcome) :
  vbind (vbind m f) k o = vbind m (fun a => vbind (f a) k) o.
Proof. unfold vbind. destruct (m o) as [o1 [a |]]; reflexivity. Qed.

(** Once the file is invalid it stays invalid. *)
Lemma invalid_add_error (msg : string) :
  preserves (fun o => valid o = false) (add_error msg).
Proof. intros o _. reflexivity. Qed.

Lemma invalid_add_warning (msg : string) :
  preserves (fun o => valid o = false) (add_warning msg).
Proof. intros o H. exact H. Qed.

(** A conditional error in front of a computation that ends with the
    file valid was not raised. *)
Lemma when_error_valid {A : Type} (b : bool) (msg : string) (k : unit -> M A)
    (o o' : outcome) (r : result A) :
  preserves (fun o => valid o = false) (k tt) ->
  vbind (when b (add_error msg)) k o = (o', r) ->
  valid o' = true ->
  b = false /\ k tt o = (o', r).
Proof.
  intros Hk H Hv. destruct b; [| now split].
  exfalso. unfold when, vbind in H. cbn [add_error] in H.
  specialize (Hk _ (eq_refl : valid {| file := file o; valid := false;
                                       errors := (errors o ++ [msg])%list;
                                       warnings := warnings o |} = false)).
  rewrite H in Hk. cbn [fst] in Hk. congruence.
Qed.

End ValidatorShape.

Section ValidatorMore.
Import Py Validator.

(** X13: whatever the file holds, the verdict and the error
    list of [validate_processor_file] agree: the file is reported valid
    exactly when no error is listed.  Warnings never change the verdict,
    and the result names the path it was given. *)
Theorem verdict_matches_errors (path stem : string) (content : result value)
    (connections : list string) :
  let o := validate_processor_file path stem content connections in
  (valid o = true <-> errors o = []) /\ file o = path.
Proof.
  intros o. unfold o.
  apply (preserves_validate
           (fun o => (valid o = true <-> errors o = []) /\ file o = path)).
  - intros msg o0 H. exact H.
  - intros msg o0 [_ Hf]. simpl. split; [| exact Hf].
    split; [discriminate |]. intros E. now destruct (errors o0).
  - simpl. now repeat split.
Qed.

(** X14: a file reported valid has the required structure:
    its content parsed to a mapping whose ["pipeline"] is a non-empty
    list, and the first stage of that list is a mapping with the key
    [$source]. *)
Theorem valid_file_starts_with_source (path stem : string)
    (content : result value) (connections : list string) :
  valid (validate_processor_file path stem content connections) = true ->
  exists processor first rest,
    content = Ok (VDict processor) /\
    dict_get processor "pipeline" = Some (VList (first :: rest)) /\
    starts_with_source first = true.
Proof.
  unfold validate_processor_file.
  set (start := {| file := path; valid := true; errors := []; warnings := [] |}).
  destruct content as [processor | e].
  2:{ unfold vbind, lift. destruct e; discriminate. }
  rewrite lift_bind. unfold validate_body. unfold vbind at 1.
  destruct (check_pipeline processor start) as [o1 [stages |]] eqn:Ep.
  2:{ destruct e; discriminate. }
  destruct (vbind (check_stages connections stages)
              (fun _ => check_name stem processor) o1) as [o2 r] eqn:El.
  intros Hfinal.
  assert (Hr : r = Ok tt).
  { destruct r as [[] | e]; [reflexivity |]. destruct e; discriminate. }
  subst r. cbn in Hfinal.
  assert (H1 : valid o1 = true).
  { destruct (valid o1) eqn:E; [reflexivity |].
    assert (Hl : preserves (fun o => valid o = false)
                   (vbind (check_stages connections stages)
                      (fun _ => check_name stem processor))).
    { apply preserves_bind;
        [apply preserves_check_stages, invalid_add_warning | intros _].
      apply preserves_check_name, invalid_add_warning. }
    specialize (Hl o1 E). rewrite El in Hl. cbn [fst] in Hl. congruence. }
  (* Tests 2 to 4 recorded no error *)
  unfold check_pipeline in Ep.
  rewrite lift_bind in Ep.
  destruct (py_in "pipeline" processor) as [has |] eqn:Ein; [| discriminate].
  apply when_error_valid in Ep; [| | exact H1].
  2:{ repeat first
        [ apply preserves_ret | apply preserves_lift | apply invalid_add_warning
        | apply invalid_add_error | apply preserves_when
        | apply preserves_bind; [| intros ?] ]. }
  destruct Ep as [Hhas Ep]. apply negb_false_iff in Hhas. subst has.
  rewrite lift_bind in Ep.
  destruct (get processor "pipeline" (VList [])) as [pl |] eqn:Eg; [| discriminate].
  apply when_error_valid in Ep; [| | exact H1].
  2:{ repeat first
        [ apply preserves_ret | apply preserves_lift | apply invalid_add_warning
        | apply invalid_add_error | apply preserves_when
        | apply preserves_bind; [| intros ?] ]. }
  destruct Ep as [Hlist Ep]. apply negb_false_iff in Hlist.
  destruct pl as [| | | | | l |]; try discriminate Hlist.
  rewrite lift_bind in Ep. cbn [len] in Ep.
  apply when_error_valid in Ep; [| | exact H1].
  2:{ repeat first
        [ apply preserves_ret | apply preserves_lift | apply invalid_add_warning
        | apply invalid_add_error | apply preserves_when
        | apply preserves_bind; [| intros ?] ]. }
  destruct Ep as [Hlen Ep].
  destruct l as [| first rest]; [discriminate Hlen |].
  cbn [truthy when] in Ep. rewrite bind_assoc, lift_bind in Ep. cbn [item0] in Ep.
  rewrite bind_assoc, lift_bind in Ep.
  destruct (py_in "$source" first) as [b |] eqn:Es; [| discriminate].
  apply when_error_valid in Ep; [| | exact H1].
  2:{ repeat first
        [ apply preserves_ret | apply preserves_lift | apply invalid_add_warning
        | apply invalid_add_error | apply preserves_when
        | apply preserves_bind; [| intros ?] ]. }
  destruct Ep as [Hb Ep]. apply negb_false_iff in Hb. subst b.
  rewrite lift_bind in Ep. cbn [iterate] in Ep. rewrite lift_bind in Ep.
  destruct (has_output (first :: rest)) as [out |]; [| discriminate].
  assert (Hst : stages = first :: rest).
  { destruct (negb out); cbn in Ep; now injection Ep. }
  subst stages.
  destruct processor as [| | | | | | d]; try discriminate Eg.
  unfold get in Eg. unfold py_in, dict_has in Ein.
  destruct (dict_get d "pipeline") as [pl |] eqn:Ed; [| discriminate].
  injection Eg as ->.
  exists d, first, rest. split; [reflexivity |]. split; [exact Ed |].
  (* the first stage is read again by the connection checks *)
  destruct first as [| | | | fs | fl | fd]; try discriminate Es.
  - exfalso. revert El. cbn [check_stages]. unfold check_stage, check_source.
    rewrite !bind_assoc, lift_bind, Es. cbn [when].
    rewrite bind_assoc, lift_bind. cbn [getitem]. discriminate.
  - exfalso. revert El. cbn [check_stages]. unfold check_stage, check_source.
    rewrite !bind_assoc, lift_bind, Es. cbn [when].
    rewrite bind_assoc, lift_bind. cbn [getitem]. discriminate.
  - cbn [py_in] in Es. injection Es as Es. exact Es.
Qed.

(** The processor of the unknown-source example is reported valid. *)
Lemma valid_file_starts_with_source_witness :
  exists processor first rest,
    Ok (VDict unknown_source_processor) = Ok (VDict processor) /\
    dict_get processor "pipeline" = Some (VList (first :: rest)) /\
    starts_with_source first = true.
Proof.
  apply (valid_file_starts_with_source "processors/solar.json" "solar"
           (Ok (VDict unknown_source_processor)) ["Y"]).
  vm_compute. reflexivity.
Defined.

(** X15: on a processor whose pipeline is a non-empty list
    of well-formed stages the only possible error is the first-stage
    error: the file is valid exactly when the first stage has the key
    [$source].  A pipeline without a [$merge] or [$emit] stage is not an
    error: it is reported in a warning and the verdict does not change. *)
Theorem wellformed_file_verdict (path stem : string) (processor : dict)
    (first : value) (rest : list value) (connections : list string) :
  dict_get processor "pipeline" = Some (VList (first :: rest)) ->
  forallb stage_ok (first :: rest) = true ->
  let o := validate_processor_file path stem (Ok (VDict processor)) connections in
  valid o = starts_with_source first /\
  errors o = (if starts_with_source first then []
              else ["First pipeline stage must be '$source'"]) /\
  (existsb outputs (first :: rest) = false ->
   In "No output stage found ($merge, $emit)" (warnings o)).
Proof.
  intros Hp Hok o.
  set (start := {| file := path; valid := true; errors := []; warnings := [] |}).
  set (o1 := let o1 := if starts_with_source first then start
                       else fst (add_error "First pipeline stage must be '$source'"
                                   start) in
             if existsb outputs (first :: rest) then o1
             else fst (add_warning "No output stage found ($merge, $emit)" o1)).
  set (later := vbind (check_stages connections (first :: rest))
                      (fun _ => check_name stem (VDict processor))).
  assert (E : o = fst (later o1)).
  { unfold o, validate_processor_file. fold start.
    rewrite lift_bind. unfold validate_body. unfold vbind at 1.
    rewrite (check_pipeline_wellformed processor first rest start Hp Hok).
    fold o1. fold later.
    pose proof (later_checks_run stem connections processor (first :: rest) o1 Hok)
      as Hfine.
    fold later in Hfine.
    destruct (later o1) as [o2 r]. cbn [fst snd] in *. now subst r. }
  assert (Hrun : valid o = valid o1 /\ errors o = errors o1 /\
                 forall w, In w (warnings o1) -> In w (warnings o)).
  { rewrite E.
    assert (Hv : valid (fst (later o1)) = valid o1 /\
                 errors (fst (later o1)) = errors o1).
    { apply (preserves_bind
               (fun o => valid o = valid o1 /\ errors o = errors o1)
               (check_stages connections (first :: rest))
               (fun _ => check_name stem (VDict processor))).
      - apply preserves_check_stages. intros msg o0 H. exact H.
      - intros _. apply preserves_check_name. intros msg o0 H. exact H.
      - now split. }
    assert (Hk : keeps later).
    { apply keeps_bind; [apply keeps_check_stages | intros _; apply keeps_check_name]. }
    destruct Hv as [Hv He].
    split; [exact Hv | split; [exact He | exact (Hk o1)]]. }
  destruct Hrun as (-> & -> & Hk). unfold o1.
  destruct (starts_with_source first), (existsb outputs (first :: rest));
    cbn [add_error add_warning fst valid errors app];
    (split; [reflexivity |]); (split; [reflexivity |]);
    intros Hno; try discriminate Hno;
    apply Hk; unfold o1; cbn; now left.
Qed.

(** A source followed by an [$addFields] stage only. *)
Lemma wellformed_file_verdict_witness :
  let o := validate_processor_file "processors/reshape.json" "reshape"
             (Ok (VDict no_output_processor)) ["Y"] in
  valid o = true /\
  errors o = [] /\
  In "No output stage found ($merge, $emit)" (warnings o).
Proof.
  pose proof (wellformed_file_verdict "processors/reshape.json" "reshape"
                no_output_processor
                (VDict [("$source", VDict [("connectionName", VStr "Y")])])
                [VDict [("$addFields", VDict [("seen", VBool true)])]]
                ["Y"] eq_refl eq_refl) as (Hv & He & Hw).
  split; [exact Hv |]. split; [exact He |]. apply Hw. reflexivity.
Defined.

End ValidatorMore.
(* ===================================================================== *)
(** * Properties of the runner *)
(* ===================================================================== *)

Section RunnerFacts.
Import Py Validator Runner.





End RunnerFacts.

Section RunnerTheorems.
Import Py Validator Runner.


End RunnerTheorems.

(* ===================================================================== *)
(** * Further properties of the sampler *)
(* ===================================================================== *)

Section SamplerFacts.
Import Py Profiler.
Local Open Scope Q_scope.

(** A rate the sampler computes is never negative, and is 0 when there is
    no previous sample. *)
Lemma throughput_nonneg (interval : Z) (previous : option sample) (n : string)
    (input_now rate : num) :
  throughput interval previous n input_now = Ok rate ->
  0 <= rate /\ (previous = None -> rate = 0).
Proof.
  unfold throughput. destruct previous as [prev |].
  2:{ intros [= <-]. split; [apply Qle_refl | reflexivity]. }
  destruct (find_named n (processors prev)) as [[q | m e] |].
  - destruct (interval =? 0)%Z; [discriminate |].
    intros [= <-]. split; [| discriminate].
    destruct (Qltb 0 _) eqn:E; [| apply Qle_refl].
    apply Qlt_le_weak. now apply Qltb_lt.
  - discriminate.
  - intros [= <-]. split; [apply Qle_refl | discriminate].
Qed.

Lemma sample_one_rate (full : bool) (interval : Z) (previous : option sample)
    (n : string) (f : fetched) (p : proc_sample) :
  sample_one full interval previous n f = Ok (Some p) ->
  exists s, f = Fetched s /\ name p = n /\
            throughput interval previous n (inputMessageCount s)
              = Ok (throughput_per_sec p).
Proof.
  unfold sample_one, bind. destruct f as [e | | s]; try discriminate.
  destruct (throughput interval previous n (inputMessageCount s)) as [rate |] eqn:E;
    [| discriminate].
  intros [= <-]. exists s. split; [reflexivity | split; [reflexivity | exact E]].
Qed.

(** Where the entries of a sample come from. *)
Lemma collect_entry (full : bool) (interval : Z) (th : threshold_set)
    (previous : option sample) (fetch : string -> fetched) (names : list string) :
  forall s e,
    In e (processors (collect full interval th previous fetch names s)) ->
    In e (processors s) \/
    (In (entry_name e) names /\
     match e with
     | Sampled p =>
         sample_one full interval previous (name p) (fetch (name p)) = Ok (Some p)
     | Failed m msg =>
         exists ex, sample_one full interval previous m (fetch m) = Raise ex /\
                    msg = exn_str ex
     end).
Proof.
  induction names as [| n names IH]; intros s e; simpl.
  - now left.
  - intros H. apply IH in H. destruct H as [H | [H1 H2]]; [| right; split; tauto].
    destruct (sample_one full interval previous n (fetch n)) as [[q |] | ex] eqn:E;
      simpl in H.
    + apply in_app_or in H. destruct H as [H | [<- | []]]; [now left |].
      right. destruct (sample_one_rate _ _ _ _ _ _ E) as (r & _ & Hn & _).
      simpl. rewrite Hn. split; [now left | exact E].
    + now left.
    + apply in_app_or in H. destruct H as [H | [<- | []]]; [now left |].
      right. simpl. split; [now left |]. now exists ex.
Qed.

Lemma collect_keeps (full : bool) (interval : Z) (th : threshold_set)
    (previous : option sample) (fetch : string -> fetched) (names : list string) :
  forall s,
    (forall e, In e (processors s) ->
               In e (processors (collect full interval th previous fetch names s))) /\
    (forall a, In a (alerts s) ->
               In a (alerts (collect full interval th previous fetch names s))).
Proof.
  induction names as [| n names IH]; intros s; simpl; [now split |].
  destruct (sample_one full interval previous n (fetch n)) as [[q |] | ex].
  - match goal with |- context [collect _ _ _ _ _ _ ?s1] =>
      destruct (IH s1) as [H1 H2] end.
    split; intros x Hx; [apply H1 | apply H2]; simpl; apply in_or_app; now left.
  - apply IH.
  - match goal with |- context [collect _ _ _ _ _ _ ?s1] =>
      destruct (IH s1) as [H1 H2] end.
    split; intros x Hx; [apply H1; simpl; apply in_or_app; now left | now apply H2].
Qed.

(** What a name on the list leaves in the sample. *)
Lemma collect_records (full : bool) (interval : Z) (th : threshold_set)
    (previous : option sample) (fetch : string -> fetched) (names : list string)
    (n : string) :
  In n names ->
  forall s,
    match sample_one full interval previous n (fetch n) with
    | Ok (Some p) =>
        In (Sampled p) (processors (collect full interval th previous fetch names s)) /\
        forall a, In a (_check_thresholds p th) ->
                  In a (alerts (collect full interval th previous fetch names s))
    | Ok None => True
    | Raise ex =>
        In (Failed n (exn_str ex))
           (processors (collect full interval th previous fetch names s))
    end.
Proof.
  induction names as [| m names IH]; [contradiction |].
  intros [-> | Hin] s.
  - simpl. destruct (sample_one full interval previous n (fetch n)) as [[p |] | ex];
      [| exact I |].
    + match goal with |- context [collect _ _ _ _ _ _ ?s1] =>
        destruct (collect_keeps full interval th previous fetch names s1) as [H1 H2] end.
      split; [apply H1; simpl; apply in_or_app; right; now left |].
      intros a Ha. apply H2. simpl. apply in_or_app. now right.
    + match goal with |- context [collect _ _ _ _ _ _ ?s1] =>
        destruct (collect_keeps full interval th previous fetch names s1) as [H1 _] end.
      apply H1. simpl. apply in_or_app. right. now left.
  - simpl. apply (IH Hin).
Qed.

(** After an error entry for [n], a fetch that answers or raises gives an
    error again. *)
Lemma sample_one_after_error (full : bool) (interval : Z) (previous : sample)
    (n : string) (f : fetched) :
  failed_in n previous -> f <> FetchNothing ->
  exists ex, sample_one full interval (Some previous) n f = Raise ex.
Proof.
  intros (m & e & Hf) Hn. unfold sample_one, bind, throughput.
  destruct f as [ex | | s]; [now exists ex | contradiction |].
  rewrite Hf. now exists KeyError.
Qed.

Lemma find_named_failed (n : string) (l : list entry) :
  (exists e, In e l /\ entry_name e = n) ->
  (forall e, In e l -> entry_name e = n -> error_free e = false) ->
  (exists m msg, find_named n l = Some (Failed m msg)) /\ find_sampled n l = None.
Proof.
  intros (e0 & Hin0 & Hn0) Hall. split.
  - unfold find_named. destruct (find _ l) as [e |] eqn:E.
    + apply find_some in E. destruct E as [Hin He]. apply String.eqb_eq in He.
      specialize (Hall e Hin He). destruct e as [p | m msg]; [discriminate |].
      now exists m, msg.
    + exfalso. apply (find_none _ _ E) in Hin0.
      rewrite Hn0, String.eqb_refl in Hin0. discriminate.
  - unfold find_sampled. destruct (find _ l) as [e |] eqn:E; [| reflexivity].
    apply find_some in E. destruct E as [Hin He].
    apply andb_true_iff in He. destruct He as [He Hfree].
    apply String.eqb_eq in He. rewrite (Hall e Hin He) in Hfree. discriminate.
Qed.

(** One tick after an error entry. *)
Lemma tick_after_error (full : bool) (interval : Z) (th : threshold_set)
    (samples : list sample) (previous : sample) (fetch : string -> fetched)
    (names : list string) (now : num) (n : string) :
  last (map Some samples) None = Some previous ->
  failed_in n previous ->
  In n names ->
  fetch n <> FetchNothing ->
  failed_in n (tick full interval th samples fetch names now) /\
  find_sampled n (processors (tick full interval th samples fetch names now)) = None.
Proof.
  intros Hlast Hfail Hin Hfetch. unfold failed_in, tick. rewrite Hlast.
  destruct (sample_one_after_error full interval previous n (fetch n) Hfail Hfetch)
    as (ex & Hex).
  apply find_named_failed.
  - exists (Failed n (exn_str ex)). split; [| reflexivity].
    pose proof (collect_records full interval th (Some previous) fetch names n Hin
                  {| timestamp := now; processors := []; alerts := [] |}) as H.
    now rewrite Hex in H.
  - intros e He Hn. apply collect_entry in He. destruct He as [[] | [_ He]].
    destruct e as [p | m msg]; [| reflexivity].
    simpl in Hn. rewrite Hn, Hex in He. discriminate.
Qed.

Lemma last_snoc (samples : list sample) (s : sample) :
  last (map Some (samples ++ [s])) None = Some s.
Proof.
  rewrite map_app. simpl. induction (map Some samples) as [| x l IH]; [reflexivity |].
  simpl. destruct (l ++ [Some s])%list eqn:E; [| exact IH].
  now destruct l.
Qed.

Lemma added_snoc (samples more : list sample) (s : sample) :
  added samples ((samples ++ [s]) ++ more) = s :: added (samples ++ [s]) ((samples ++ [s]) ++ more).
Proof.
  unfold added. rewrite (skipn_app (List.length (samples ++ [s]))).
  rewrite skipn_all, Nat.sub_diag. simpl.
  rewrite <- app_assoc. rewrite (skipn_app (List.length samples)).
  rewrite skipn_all, Nat.sub_diag. reflexivity.
Qed.

Lemma added_one (samples : list sample) (s : sample) :
  added samples (samples ++ [s]) = [s].
Proof.
  unfold added. rewrite (skipn_app (List.length samples)).
  now rewrite skipn_all, Nat.sub_diag.
Qed.

End SamplerFacts.

Section SamplerTheorems.
Import Py Profiler.
Local Open Scope Q_scope.

(** X17: the throughput of a sampled entry is never
    negative, whatever the counters do (a counter that went back, after
    a restart say, gives 0), and it is 0 for every entry of the first
    sample of a run, which has no previous sample to compare with. *)
Theorem throughput_is_never_negative
    (full : bool) (interval : Z) (th : threshold_set) (samples : list sample)
    (fetch : string -> fetched) (names : list string) (now : num) (p : proc_sample) :
  In (Sampled p) (processors (tick full interval th samples fetch names now)) ->
  0 <= throughput_per_sec p /\
  (samples = [] -> throughput_per_sec p = 0).
Proof.
  intros H. unfold tick in H. apply collect_entry in H.
  destruct H as [[] | [_ H]].
  destruct (sample_one_rate _ _ _ _ _ _ H) as (s & _ & _ & Hr).
  destruct (throughput_nonneg _ _ _ _ _ Hr) as [H0 H1].
  split; [exact H0 |]. intros ->. now apply H1.
Qed.

(** The first tick of [late_run]. *)
Lemma throughput_is_never_negative_witness :
  exists p,
    In (Sampled p)
       (processors (tick true 10 no_thresholds [] (Profiler.fetch first_tick_env)
                      ["steady"] 0)) /\
    0 <= throughput_per_sec p /\
    throughput_per_sec p = 0.
Proof.
  eexists. split; [left; reflexivity |].
  assert (H : In (Sampled
                    {| name := "steady";
                       memory_mb := memoryUsageBytes (reply 100) / 1048576;
                       input_count := 100; output_count := 100;
                       latency_p50_us := 1500; latency_p99_us := 9000;
                       throughput_per_sec := 0;
                       extras := Some (0, 0, 1) |})
                 (processors (tick true 10 no_thresholds []
                                (Profiler.fetch first_tick_env) ["steady"] 0)))
    by (left; reflexivity).
  destruct (throughput_is_never_negative true 10 no_thresholds []
              (Profiler.fetch first_tick_env) ["steady"] 0 _ H) as [H0 H1].
  split; [exact H0 | now apply H1].
Defined.

(** X18: a throughput floor always fires on the first sample.
    With a positive [throughput_min] threshold, every monitored processor
    whose statistics are fetched in the first tick of a run gets the
    alert "Low throughput (0.0/sec < limit)" in that sample, because its
    throughput is 0 by construction there. *)
Theorem throughput_floor_fires_on_first_tick
    (full : bool) (interval : Z) (th : threshold_set) (fetch : string -> fetched)
    (names : list string) (now limit : num) (n : string) (s : stats_reply) :
  th_throughput_min th = Some limit ->
  0 < limit ->
  In n names ->
  fetch n = Fetched s ->
  In (LowThroughput n 0 limit)
     (alerts (tick full interval th [] fetch names now)).
Proof.
  intros Hth Hlim Hin Hf. unfold tick. simpl last.
  pose proof (collect_records full interval th None fetch names n Hin
                {| timestamp := now; processors := []; alerts := [] |}) as H.
  rewrite Hf in H. cbn [sample_one throughput bind] in H.
  destruct H as [_ H]. apply H.
  unfold _check_thresholds. rewrite Hth. cbn [throughput_per_sec name].
  apply Qltb_lt in Hlim. rewrite Hlim.
  apply in_or_app. right. apply in_or_app. right. now left.
Qed.

(** The first tick of a run watched with a floor of ten per second. *)
Lemma throughput_floor_fires_on_first_tick_witness :
  In (LowThroughput "steady" 0 10)
     (alerts (tick false 10 throughput_floor [] (Profiler.fetch first_tick_env)
                ["steady"; "late"] 0)).
Proof.
  apply (throughput_floor_fires_on_first_tick false 10 throughput_floor
           (Profiler.fetch first_tick_env) ["steady"; "late"] 0 10 "steady"
           (reply 100)).
  - reflexivity.
  - reflexivity.
  - now left.
  - reflexivity.
Defined.

(** X19: an error entry is sticky.  Once the last sample holds
    an error entry for a monitored processor, every later tick in which
    its statistics fetch answers (or raises) records an error for it
    again: the rate computation reads the input count of the previous
    entry, which an error entry does not have.  So in either loop no
    sample added from then on has a measurement of that processor, for as
    long as each tick's fetch does not come back empty. *)
Theorem error_entry_is_sticky
    (envs : list tick_env) (names : list string) (start duration : num)
    (interval : Z) (th : threshold_set) (n : string) :
  In n names ->
  (forall env, In env envs -> Profiler.fetch env n <> FetchNothing) ->
  forall (now : num) (samples : list sample) (previous : sample),
    last (map Some samples) None = Some previous ->
    failed_in n previous ->
    (forall s,
       In s (added samples (fst (continuous_loop envs names interval th now samples))) ->
       find_sampled n (processors s) = None) /\
    (forall s,
       In s (added samples
               (fst (fixed_loop envs names start duration interval th now samples))) ->
       find_sampled n (processors s) = None).
Proof.
  intros Hin. induction envs as [| env rest IH]; intros Hfetch now samples previous Hl Hf.
  - unfold added. simpl. rewrite skipn_all. split; intros s [].
  - assert (Hrest : forall e, In e rest -> Profiler.fetch e n <> FetchNothing)
      by (intros e He; apply Hfetch; now right).
    assert (Henv : Profiler.fetch env n <> FetchNothing) by (apply Hfetch; now left).
    split.
    + cbn [continuous_loop]. cbv zeta.
      set (s1 := tick false interval th samples (Profiler.fetch env) names now).
      destruct (tick_after_error false interval th samples previous
                  (Profiler.fetch env) names now n Hl Hf Hin Henv) as [Hf1 Hs1].
      fold s1 in Hf1, Hs1.
      destruct (nap_taken _) as [[] | e].
      * match goal with
        | |- context [continuous_loop rest names interval th ?t ?ss] =>
            destruct (IH Hrest t ss s1 (last_snoc samples s1) Hf1) as [IHc _];
            destruct (continuous_loop_samples rest names interval th t ss)
              as (more & Hm);
            destruct (continuous_loop rest names interval th t ss) as [all trace]
        end.
        cbn [fst] in *. subst all. rewrite added_snoc.
        intros s [<- | Hs]; [exact Hs1 | now apply IHc].
      * cbn [fst]. rewrite added_one. intros s [<- | []]. exact Hs1.
    + cbn [fixed_loop]. destruct (Qltb (now - start) duration).
      * cbv zeta.
        set (s1 := tick true interval th samples (Profiler.fetch env) names now).
        destruct (tick_after_error true interval th samples previous
                    (Profiler.fetch env) names now n Hl Hf Hin Henv) as [Hf1 Hs1].
        fold s1 in Hf1, Hs1.
        destruct (nap_taken _) as [[] | e].
        -- match goal with
           | |- context [fixed_loop rest names start duration interval th ?t ?ss] =>
               destruct (IH Hrest t ss s1 (last_snoc samples s1) Hf1) as [_ IHf];
               destruct (fixed_loop_samples rest names start duration interval th t ss)
                 as (more & Hm);
               destruct (fixed_loop rest names start duration interval th t ss)
                 as [all trace]
           end.
           cbn [fst] in *. subst all. rewrite added_snoc.
           intros s [<- | Hs]; [exact Hs1 | now apply IHf].
        -- cbn [fst]. rewrite added_one. intros s [<- | []]. exact Hs1.
      * unfold added. cbn [fst]. rewrite skipn_all. intros s [].
Qed.

(** A run whose first fetch raised: the two later ticks, which answer,
    record errors again. *)
Lemma error_entry_is_sticky_witness :
  failed_in "steady"
    (tick false 10 no_thresholds [] (Profiler.fetch failing_tick_env) ["steady"] 0) /\
  List.length
    (added [tick false 10 no_thresholds [] (Profiler.fetch failing_tick_env)
              ["steady"] 0]
       (fst (continuous_loop [later_tick_env 200; later_tick_env 300] ["steady"] 10
               no_thresholds 11
               [tick false 10 no_thresholds [] (Profiler.fetch failing_tick_env)
                  ["steady"] 0]))) = 2%nat /\
  Forall (fun s => find_sampled "steady" (processors s) = None)
    (added [tick false 10 no_thresholds [] (Profiler.fetch failing_tick_env)
              ["steady"] 0]
       (fst (continuous_loop [later_tick_env 200; later_tick_env 300] ["steady"] 10
               no_thresholds 11
               [tick false 10 no_thresholds [] (Profiler.fetch failing_tick_env)
                  ["steady"] 0]))).
Proof.
  assert (Hf : failed_in "steady"
                 (tick false 10 no_thresholds [] (Profiler.fetch failing_tick_env)
                    ["steady"] 0))
    by (exists "steady", (exn_str OSError); reflexivity).
  split; [exact Hf |]. split; [reflexivity |].
  apply Forall_forall.
  refine (proj1 (error_entry_is_sticky [later_tick_env 200; later_tick_env 300]
                   ["steady"] 0 0 10 no_thresholds "steady" _ _ 11 _ _ _ Hf)).
  - now left.
  - intros env [<- | [<- | []]]; discriminate.
  - reflexivity.
Defined.

End SamplerTheorems.

(* ===================================================================== *)
(** * Further properties of the end-of-run analysis *)
(* ===================================================================== *)

Section StatsFacts.
Import Py Profiler.
Local Open Scope Q_scope.

Lemma fold_min (rest : list num) :
  forall m,
    let r := fold_left (fun m x => if Qltb x m then x else m) rest m in
    r <= m /\ forall x, In x rest -> r <= x.
Proof.
  induction rest as [| y rest IH]; intros m; simpl.
  - split; [apply Qle_refl | contradiction].
  - destruct (IH (if Qltb y m then y else m)) as [H1 H2].
    destruct (Qltb y m) eqn:E.
    + apply Qltb_lt in E. split.
      * eapply Qle_trans; [exact H1 | now apply Qlt_le_weak].
      * intros x [<- | Hx]; [exact H1 | now apply H2].
    + apply Qltb_ge in E. split; [exact H1 |].
      intros x [<- | Hx]; [eapply Qle_trans; [exact H1 | exact E] | now apply H2].
Qed.

Lemma fold_max (rest : list num) :
  forall m,
    let r := fold_left (fun m x => if Qltb m x then x else m) rest m in
    m <= r /\ forall x, In x rest -> x <= r.
Proof.
  induction rest as [| y rest IH]; intros m; simpl.
  - split; [apply Qle_refl | contradiction].
  - destruct (IH (if Qltb m y then y else m)) as [H1 H2].
    destruct (Qltb m y) eqn:E.
    + apply Qltb_lt in E. split.
      * eapply Qle_trans; [apply Qlt_le_weak; exact E | exact H1].
      * intros x [<- | Hx]; [exact H1 | now apply H2].
    + apply Qltb_ge in E. split; [exact H1 |].
      intros x [<- | Hx]; [eapply Qle_trans; [exact E | exact H1] | now apply H2].
Qed.

Lemma minimum_le (values : list num) (v : num) :
  In v values -> minimum values <= v.
Proof.
  destruct values as [| v0 rest]; [contradiction |]. simpl.
  destruct (fold_min rest v0) as [H1 H2].
  intros [<- | H]; [exact H1 | now apply H2].
Qed.

Lemma maximum_ge (values : list num) (v : num) :
  In v values -> v <= maximum values.
Proof.
  destruct values as [| v0 rest]; [contradiction |]. simpl.
  destruct (fold_max rest v0) as [H1 H2].
  intros [<- | H]; [exact H1 | now apply H2].
Qed.

Lemma fold_min_in (rest : list num) :
  forall m,
    let r := fold_left (fun m x => if Qltb x m then x else m) rest m in
    r = m \/ In r rest.
Proof.
  induction rest as [| y rest IH]; intros m; simpl; [now left |].
  destruct (IH (if Qltb y m then y else m)) as [H | H]; [| right; now right].
  rewrite H. destruct (Qltb y m); [right; now left | now left].
Qed.

Lemma fold_max_in (rest : list num) :
  forall m,
    let r := fold_left (fun m x => if Qltb m x then x else m) rest m in
    r = m \/ In r rest.
Proof.
  induction rest as [| y rest IH]; intros m; simpl; [now left |].
  destruct (IH (if Qltb m y then y else m)) as [H | H]; [| right; now right].
  rewrite H. destruct (Qltb m y); [right; now left | now left].
Qed.

Lemma minimum_in (values : list num) :
  values <> [] -> In (minimum values) values.
Proof.
  destruct values as [| v0 rest]; [contradiction |]. intros _. simpl.
  destruct (fold_min_in rest v0) as [H | H]; [left; now rewrite H | now right].
Qed.

Lemma maximum_in (values : list num) :
  values <> [] -> In (maximum values) values.
Proof.
  destruct values as [| v0 rest]; [contradiction |]. intros _. simpl.
  destruct (fold_max_in rest v0) as [H | H]; [left; now rewrite H | now right].
Qed.

Lemma safe_stats_summarises (values : list num) :
  summarises (safe_stats values) values.
Proof.
  unfold summarises, safe_stats.
  destruct values as [| v0 rest].
  { split; [contradiction | intros H; now contradiction H]. }
  set (values := v0 :: rest).
  destruct (forallb (fun v => Qeq_bool v 0) values) eqn:E.
  - cbn [s_min s_max]. rewrite forallb_forall in E. split.
    + intros v Hv. specialize (E v Hv). apply Qeq_bool_iff in E.
      rewrite E. split; apply Qle_refl.
    + intros _. assert (H0 : v0 == 0)
        by (apply Qeq_bool_iff, E; now left).
      split; exists v0; (split; [now left | exact H0]).
  - cbn [s_min s_max]. split.
    + intros v Hv. split; [now apply minimum_le | now apply maximum_ge].
    + intros Hne. split.
      * exists (minimum values). split; [now apply minimum_in | reflexivity].
      * exists (maximum values). split; [now apply maximum_in | reflexivity].
Qed.

(** The statistics of a series that is zero throughout, or empty. *)
Lemma safe_stats_zero (values : list num) :
  forallb (fun v => Qeq_bool v 0) values = true ->
  safe_stats values = {| s_min := 0; s_max := 0; s_avg := 0; s_trend := stable |}.
Proof.
  intros H. unfold safe_stats. destruct values; [reflexivity |]. now rewrite H.
Qed.

Lemma recommendations_nonempty (stats : stats_view) :
  _generate_recommendations stats <> [].
Proof.
  unfold _generate_recommendations.
  destruct (trend_is (v_memory_mb stats) increasing),
           (Qltb 1000 (max_of (v_memory_mb stats))),
           (Qltb (avg_of (v_memory_mb stats)) 100),
           (trend_is (v_latency_p99_ms stats) increasing),
           (Qltb 50 (avg_of (v_latency_p99_ms stats))),
           (trend_is (v_throughput_per_sec stats) decreasing),
           (Qltb (avg_of (v_throughput_per_sec stats)) 1); discriminate.
Qed.

Lemma proc_data_of_length (n : string) (samples : list sample) :
  (List.length (proc_data_of n samples) <= List.length samples)%nat.
Proof.
  induction samples as [| s rest IH]; simpl; [lia |].
  destruct (find_sampled n (processors s)); simpl; lia.
Qed.

Lemma assign_entries (table : stats_table) (k : string) (v : processor_stats)
    (k' : string) (v' : processor_stats) :
  In (k', v') (assign table k v) -> (k', v') = (k, v) \/ In (k', v') table.
Proof.
  induction table as [| [k0 v0] table IH]; simpl.
  - intros [H | []]. now left.
  - destruct (String.eqb k0 k); simpl.
    + intros [H | H]; [now left | right; now right].
    + intros [H | H]; [right; now left |].
      destruct (IH H) as [H1 | H1]; [now left | right; now right].
Qed.

(** Every entry of the per-processor table is the statistics of a
    non-empty series of that processor's samples. *)
Lemma per_processor_entries (samples : list sample) (names : list string) :
  forall table k v,
    In (k, v) (per_processor names samples table) ->
    In (k, v) table \/
    (proc_data_of k samples <> [] /\
     v = _calculate_processor_stats (proc_data_of k samples)).
Proof.
  induction names as [| n names IH]; intros table k v; simpl; [now left |].
  intros H. apply IH in H. destruct H as [H | H]; [| now right].
  destruct (proc_data_of n samples) as [| p ps] eqn:E; [now left |].
  apply assign_entries in H. destruct H as [[= -> ->] | H]; [| now left].
  right. rewrite E. split; [discriminate | reflexivity].
Qed.

(** A sample carries the clock reading of the start of its tick. *)
Lemma tick_timestamp (full : bool) (interval : Z) (th : threshold_set)
    (samples : list sample) (fetch : string -> fetched) (names : list string)
    (now : num) :
  timestamp (tick full interval th samples fetch names now) = now.
Proof.
  unfold tick. generalize (last (map Some samples) None). intros previous.
  change now with (timestamp {| timestamp := now; processors := []; alerts := [] |}) at 2.
  generalize {| timestamp := now; processors := []; alerts := [] |}.
  induction names as [| n names IH]; intros s; simpl; [reflexivity |].
  rewrite IH. destruct (sample_one full interval previous n (fetch n)) as [[p |] | e];
    reflexivity.
Qed.

(** A loop adds at most one sample per tick the world supplies. *)
Lemma fixed_loop_length (names : list string) (start duration : num)
    (interval : Z) (th : threshold_set) (envs : list tick_env) :
  forall now samples,
    (List.length (fst (fixed_loop envs names start duration interval th now samples))
     <= List.length samples + List.length envs)%nat.
Proof.
  induction envs as [| env rest IH]; intros now samples; cbn [fixed_loop];
    [cbn; lia |].
  destruct (Qltb (now - start) duration); [| cbn; lia].
  cbv zeta. destruct (nap_taken _) as [[] | e].
  - match goal with
    | |- context [fixed_loop rest names start duration interval th ?t ?ss] =>
        specialize (IH t ss);
        destruct (fixed_loop rest names start duration interval th t ss)
          as [all trace]
    end.
    cbn [fst List.length] in *. rewrite length_app in IH. cbn in IH. lia.
  - cbn [fst List.length]. rewrite length_app. cbn. lia.
Qed.

(** The loop test at the start of a run. *)
Lemma first_test (clock : num) (duration : Z) :
  Qltb (clock - clock) (inject_Z duration) = (0 <? duration)%Z.
Proof.
  destruct (Z.ltb_spec 0 duration) as [H | H].
  - apply Qltb_lt. setoid_replace (clock - clock) with (inject_Z 0) by (simpl; ring).
    now rewrite <- Zlt_Qlt.
  - apply Qltb_ge. setoid_replace (clock - clock) with (inject_Z 0) by (simpl; ring).
    now rewrite <- Zle_Qle.
Qed.

(** A run of positive duration begins with a tick at its start time. *)
Lemma fixed_loop_begins (env : tick_env) (rest : list tick_env)
    (names : list string) (duration interval : Z) (th : threshold_set)
    (clock : num) :
  (0 < duration)%Z ->
  exists more,
    fst (fixed_loop (env :: rest) names clock (inject_Z duration) interval th clock [])
    = tick true interval th [] (fetch env) names clock :: more.
Proof.
  intros Hd. cbn [fixed_loop]. rewrite first_test.
  replace (0 <? duration)%Z with true by (symmetry; now apply Z.ltb_lt).
  cbv zeta. destruct (nap_taken _) as [[] | e].
  - match goal with
    | |- context [fixed_loop rest names clock ?d interval th ?t ?ss] =>
        destruct (fixed_loop_samples rest names clock d interval th t ss)
          as (more & Hm);
        destruct (fixed_loop rest names clock d interval th t ss) as [all trace]
    end.
    cbn [fst] in *. subst all. exists more. reflexivity.
  - exists []. reflexivity.
Qed.

(** With a negative interval the sleep after the first tick raises, unless
    the tick itself used up the run and more. *)
Lemma first_sleep_raises (env : tick_env) (rest : list tick_env)
    (names : list string) (duration interval : Z) (th : threshold_set)
    (clock : num) :
  (0 < duration)%Z ->
  (interval < 0)%Z ->
  work env < inject_Z duration - inject_Z interval ->
  profile_processors (env :: rest) names duration interval th clock
  = Raise ValueError.
Proof.
  intros Hd Hi Hw. unfold profile_processors. cbn [fixed_loop]. rewrite first_test.
  replace (0 <? duration)%Z with true by (symmetry; now apply Z.ltb_lt).
  cbv zeta.
  assert (Hnap : sleep_fixed clock (inject_Z duration) interval (clock + work env)
                 = Some (inject_Z interval)).
  { unfold sleep_fixed.
    assert (H : Qltb (inject_Z interval)
                  (inject_Z duration - (clock + work env - clock)) = true)
      by (apply Qltb_lt; lra).
    now rewrite H. }
  rewrite Hnap. cbn [nap_taken]. rewrite (negative_sleep_raises interval Hi).
  unfold ended. cbn [rev app slept nap_taken].
  now rewrite (negative_sleep_raises interval Hi).
Qed.

End StatsFacts.

Section StatsTheorems.
Import Py Profiler.
Local Open Scope Q_scope.

(** X20: the extremes reported for a metric are those of the
    samples.  For each of memory, p50 latency, p99 latency and
    throughput, every sampled value lies between the reported minimum and
    maximum, and both are values that were sampled (also when all values
    are zero, where they are reported as 0 without looking at the
    series).  The sample count reported is the number of samples used. *)
Theorem processor_stats_bound_the_samples (proc_data : list proc_sample) :
  let stats := _calculate_processor_stats proc_data in
  summarises (ps_memory_mb stats) (map memory_mb proc_data) /\
  summarises (ps_latency_p50_ms stats)
             (map (fun p => latency_p50_us p / 1000) proc_data) /\
  summarises (ps_latency_p99_ms stats)
             (map (fun p => latency_p99_us p / 1000) proc_data) /\
  summarises (ps_throughput_per_sec stats) (map throughput_per_sec proc_data) /\
  ps_samples stats = List.length proc_data.
Proof.
  intros stats. unfold stats, _calculate_processor_stats.
  cbn [ps_memory_mb ps_latency_p50_ms ps_latency_p99_ms ps_throughput_per_sec
       ps_samples].
  do 4 (split; [apply safe_stats_summarises |]). reflexivity.
Qed.

(** X21: growth from zero is never reported.  A series of
    at least two values whose first half is zero throughout is "stable",
    however large its second half: the first-half average is not
    positive, so no change is computed.  Fewer than two values give
    "insufficient_data". *)
Theorem growth_from_zero_is_stable (values : list num) :
  (forall v, In v (firstn (List.length values / 2) values) -> v == 0) ->
  _calculate_trend values =
    if (List.length values <? 2)%nat then insufficient_data else stable.
Proof.
  intros Hz. destruct (Nat.ltb_spec (List.length values) 2) as [H | H].
  - now apply trend_of_few.
  - apply trend_without_baseline; [exact H |]. now apply average_zeros.
Qed.

(** A throughput that starts at zero and climbs to 50 and 80 messages
    per second. *)
Lemma growth_from_zero_is_stable_witness :
  Forall (fun v => v == 0) (firstn (List.length [0; 0; 50; 80] / 2) [0; 0; 50; 80]) /\
  _calculate_trend [0; 0; 50; 80] = stable.
Proof.
  assert (H : forall v, In v (firstn (List.length [0; 0; 50; 80] / 2) [0; 0; 50; 80]) ->
                        v == 0)
    by (intros v [<- | [<- | []]]; reflexivity).
  split; [apply Forall_forall; exact H |].
  exact (growth_from_zero_is_stable [0; 0; 50; 80] H).
Defined.

(** X22: a processor whose memory readings are all zero
    (the default when the API reports no [memoryUsageBytes]) is told that
    it may be over-provisioned: its recommendations always contain "Low
    memory usage - processor may be over-provisioned", and never one of
    the other two memory advisories. *)
Theorem zero_memory_reads_as_overprovisioned (proc_data : list proc_sample) :
  forallb (fun p => Qeq_bool (memory_mb p) 0) proc_data = true ->
  let recs := ps_recommendations (_calculate_processor_stats proc_data) in
  In rightsize_advice recs /\ ~ In leak_advice recs /\ ~ In upsize_advice recs.
Proof.
  intros H recs. unfold recs, _calculate_processor_stats. cbn [ps_recommendations].
  assert (Hz : forallb (fun v => Qeq_bool v 0) (map memory_mb proc_data) = true).
  { rewrite forallb_forall in *. intros v Hv. apply in_map_iff in Hv.
    destruct Hv as (p & <- & Hp). now apply H. }
  rewrite (safe_stats_zero _ Hz).
  unfold _generate_recommendations.
  cbn [v_memory_mb v_latency_p99_ms v_throughput_per_sec trend_is trend_eqb s_trend
       max_of avg_of s_max s_avg].
  change (Qltb 1000 0) with false. change (Qltb 0 100) with true.
  cbv beta iota.
  set (lat := safe_stats (map (fun p => latency_p99_us p / 1000) proc_data)).
  set (thr := safe_stats (map throughput_per_sec proc_data)).
  destruct (trend_eqb (s_trend lat) increasing), (Qltb 50 (s_avg lat)),
           (trend_eqb (s_trend thr) decreasing), (Qltb (s_avg thr) 1);
    (split; [now left |]); split; simpl; intros Hin;
    repeat (destruct Hin as [Hin | Hin]; [discriminate Hin |]); exact Hin.
Qed.

(** Three samples without a memory figure. *)
Lemma zero_memory_reads_as_overprovisioned_witness :
  In rightsize_advice
     (ps_recommendations
        (_calculate_processor_stats [unmetered 100; unmetered 200; unmetered 300])).
Proof.
  apply (zero_memory_reads_as_overprovisioned
           [unmetered 100; unmetered 200; unmetered 300]).
  reflexivity.
Defined.

(** X23: every per-processor entry of an analysis is computed
    from at least one and at most [sample_count] samples of that
    processor, and carries at least one recommendation; an analysis of no
    samples is the error result. *)
Theorem analysis_entries_are_backed (samples : list sample) (duration : num)
    (interval : Z) :
  (samples = [] <-> _analyze_profile_data samples duration interval = NoSamples) /\
  (forall summary table all_alerts,
     _analyze_profile_data samples duration interval
       = Profile summary table all_alerts ->
     sample_count summary = List.length samples /\
     all_alerts = flat_map alerts samples /\
     forall n stats, In (n, stats) table ->
       (1 <= ps_samples stats <= sample_count summary)%nat /\
       ps_recommendations stats <> []).
Proof.
  split.
  - destruct samples; simpl; split; (reflexivity || discriminate).
  - intros summary table all_alerts.
    destruct samples as [| first rest]; [discriminate |].
    unfold _analyze_profile_data. intros [= <- <- <-].
    cbn [sample_count]. split; [reflexivity |]. split; [reflexivity |].
    intros n stats Hin. apply per_processor_entries in Hin.
    destruct Hin as [[] | [Hne ->]].
    unfold _calculate_processor_stats. cbn [ps_samples ps_recommendations].
    split; [| apply recommendations_nonempty].
    split; [| apply proc_data_of_length].
    destruct (proc_data_of n (first :: rest)); [contradiction | simpl; lia].
Qed.

(** X24: a run whose duration is zero or negative performs no
    tick and returns the error result "No samples collected".  A run
    with a positive duration performs its first tick at once; when the
    interval is not negative its analysis is a profile that starts at the
    start time and counts between one sample and as many as there were
    ticks to perform.  With a negative interval the sleep after the
    first tick raises [ValueError], which nothing catches, and the sample
    is lost, unless the tick itself overran the run by more than the
    interval's length. *)
Theorem run_length (envs : list tick_env) (names : list string)
    (duration interval : Z) (th : threshold_set) (clock : num) :
  ((duration <= 0)%Z ->
   profile_processors envs names duration interval th clock = Ok NoSamples) /\
  ((0 < duration)%Z -> (0 <= interval)%Z -> envs <> [] ->
   exists summary table all_alerts,
     profile_processors envs names duration interval th clock
       = Ok (Profile summary table all_alerts) /\
     start_time summary = clock /\
     (1 <= sample_count summary <= List.length envs)%nat) /\
  ((0 < duration)%Z -> (interval < 0)%Z ->
   forall env rest, envs = env :: rest ->
     work env < inject_Z duration - inject_Z interval ->
     profile_processors envs names duration interval th clock = Raise ValueError).
Proof.
  split; [| split].
  - intros Hd. unfold profile_processors.
    destruct envs as [| env rest]; [reflexivity |].
    cbn [fixed_loop]. rewrite first_test.
    replace (0 <? duration)%Z with false by (symmetry; apply Z.ltb_ge; lia).
    reflexivity.
  - intros Hd Hi Hne. destruct envs as [| env rest]; [contradiction |].
    rewrite (fixed_run_total _ _ _ _ _ _ Hi).
    pose proof (fixed_loop_length names clock (inject_Z duration) interval th
                  (env :: rest) clock []) as Hlen.
    destruct (fixed_loop_begins env rest names duration interval th clock Hd)
      as (more & Hm).
    rewrite Hm in *. cbn [_analyze_profile_data].
    do 3 eexists. split; [reflexivity |].
    split; [cbn [start_time]; apply tick_timestamp |].
    cbn [sample_count List.length] in *. lia.
  - intros Hd Hi env rest -> Hw. now apply first_sleep_raises.
Qed.

End StatsTheorems.
